(** * Reddit sentiment scraper: a shallow embedding of [reddit_scraper.py]

    The development follows the class [RedditSentimentAnalyzer]: string
    helpers first, then the browser session as an explicit world with
    fallible operations, the field extractors, the pagination resolver, the
    crawl loop and the top-level run, and finally the properties.

    Modelling choices:
    - texts are ASCII strings, and Python's [None] is [option]'s [None];
    - every call into Selenium, the file system or the clock goes through
      the [Driver] record; it may change the world and may raise;
    - exceptions are those that [except Exception] catches;
    - the analyzer carries a ghost log of the events the properties speak
      about;
    - logging calls are left out, the formatting of their messages included;
    - [int] and [str] convert between texts and integers up to CPython's
      default limit of 4300 decimal digits and raise [ValueError] beyond it;
    - a path built with pathlib's [/] is kept as the pair of its operands;
    - the statistics of [analyze_all_results], which never raises, are one
      opaque change of the world; the sentiment classes it counts and the
      parsing of the configured languages are modelled on their own
      ([Stats], [parse_languages]). *)

From Stdlib Require Import ZArith NArith QArith_base Ascii DecimalString.
From Stdlib Require Import DecimalN DecimalPos.
From Stdlib Require String.
From stdpp Require Import gmap strings list fin_maps.

(** ** Python string operations used by the scraper *)

Module PyStr.

Definition is_space (c : ascii) : bool :=
  let n := nat_of_ascii c in
  ((9 <=? n) && (n <=? 13)) || ((28 <=? n) && (n <=? 32)).

Definition is_digit (c : ascii) : bool :=
  let n := nat_of_ascii c in (48 <=? n) && (n <=? 57).

Definition is_upper (c : ascii) : bool :=
  let n := nat_of_ascii c in (65 <=? n) && (n <=? 90).

Definition is_lower (c : ascii) : bool :=
  let n := nat_of_ascii c in (97 <=? n) && (n <=? 122).

Definition to_lower (c : ascii) : ascii :=
  if is_upper c then ascii_of_nat (nat_of_ascii c + 32) else c.

Definition to_upper (c : ascii) : ascii :=
  if is_lower c then ascii_of_nat (nat_of_ascii c - 32) else c.

Fixpoint rev_onto (s acc : string) : string :=
  match s with
  | EmptyString => acc
  | String c s' => rev_onto s' (String c acc)
  end.

Definition rev (s : string) : string := rev_onto s EmptyString.

Fixpoint lstrip (s : string) : string :=
  match s with
  | EmptyString => EmptyString
  | String c s' => if is_space c then lstrip s' else s
  end.

(** [str.strip()] *)
Definition strip (s : string) : string := rev (lstrip (rev (lstrip s))).

(** [bool(s)] for a string *)
Definition truthy (s : string) : bool :=
  match s with EmptyString => false | _ => true end.

Fixpoint starts_with (p s : string) : bool :=
  match p, s with
  | EmptyString, _ => true
  | String _ _, EmptyString => false
  | String a p', String b s' => Ascii.eqb a b && starts_with p' s'
  end.

(** [p in s] *)
Fixpoint contains (p s : string) : bool :=
  starts_with p s ||
  match s with
  | EmptyString => false
  | String _ s' => contains p s'
  end.

Fixpoint drop (n : nat) (s : string) : string :=
  match n, s with
  | O, _ => s
  | S _, EmptyString => EmptyString
  | S n', String _ s' => drop n' s'
  end.

Fixpoint take_while (f : ascii -> bool) (s : string) : string :=
  match s with
  | EmptyString => EmptyString
  | String c s' => if f c then String c (take_while f s') else EmptyString
  end.

(** [s.split(sep)] for a non-empty separator: [skip] counts the characters
    of a separator match still to be consumed, [cur] is the current piece
    in reverse. *)
Fixpoint split_go (sep : string) (skip : nat) (cur : string) (s : string)
  : list string :=
  match s with
  | EmptyString => [rev cur]
  | String c s' =>
      match skip with
      | S k => split_go sep k cur s'
      | O =>
          if starts_with sep s
          then rev cur :: split_go sep (String.length sep - 1) EmptyString s'
          else split_go sep 0 (String c cur) s'
      end
  end.

Definition split (sep s : string) : list string :=
  split_go sep 0 EmptyString s.

(** [s.replace(a, b)] for single characters *)
Fixpoint replace (a b : ascii) (s : string) : string :=
  match s with
  | EmptyString => EmptyString
  | String c s' => String (if Ascii.eqb c a then b else c) (replace a b s')
  end.

Fixpoint lower (s : string) : string :=
  match s with
  | EmptyString => EmptyString
  | String c s' => String (to_lower c) (lower s')
  end.

(** [s.title()]: a letter that follows a non-letter is upper-cased, every
    other letter lower-cased. *)
Fixpoint title_go (prev_cased : bool) (s : string) : string :=
  match s with
  | EmptyString => EmptyString
  | String c s' =>
      let cased := is_upper c || is_lower c in
      String (if prev_cased then to_lower c else to_upper c) (title_go cased s')
  end.

Definition title (s : string) : string := title_go false s.

(** [int(ds)] for a run of decimal digits *)
Definition digit_val (c : ascii) : N := N.of_nat (nat_of_ascii c - 48).

Fixpoint int_go (acc : N) (ds : string) : N :=
  match ds with
  | EmptyString => acc
  | String c ds' => int_go (10 * acc + digit_val c)%N ds'
  end.

Definition int_of_digits (ds : string) : N := int_go 0%N ds.

(** The decimal numeral of a natural number *)
Definition str_of_N (n : N) : string := NilZero.string_of_uint (N.to_uint n).

(** [sys.get_int_max_str_digits()], CPython's default *)
Definition int_max_str_digits : N := 4300.

Definition within_limit (ds : string) : bool :=
  (N.of_nat (String.length ds) <=? int_max_str_digits)%N.

(** [int(ds)] for a run of decimal digits; [None] stands for the
    [ValueError] raised when [ds] has more digits than the limit *)
Definition py_int (ds : string) : option N :=
  if within_limit ds then Some (int_of_digits ds) else None.

(** [str(n)] and [f"{n}"] for an integer; [None] stands for the
    [ValueError] raised when [n] has more digits than the limit *)
Definition py_str_N (n : N) : option string :=
  let ds := str_of_N n in if within_limit ds then Some ds else None.

Definition py_str (z : Z) : option string :=
  match z with
  | Zneg p => String "-" <$> py_str_N (Npos p)
  | _ => py_str_N (Z.to_N z)
  end.

(** [xs[-1]] and [xs[-2]] *)
Definition last_item (xs : list string) : option string := last xs.

Definition second_last (xs : list string) : option string :=
  match reverse xs with
  | _ :: x :: _ => Some x
  | _ => None
  end.

(** [list(dict.fromkeys(xs))]: first occurrences, in order *)
Fixpoint dedup_go (seen : list string) (xs : list string) : list string :=
  match xs with
  | [] => []
  | x :: xs' =>
      if bool_decide (x ∈ seen) then dedup_go seen xs'
      else x :: dedup_go (x :: seen) xs'
  end.

Definition dedup (xs : list string) : list string := dedup_go [] xs.

(** [re.search(r"/r/([^/]+)", s)]: group 1 of the leftmost match *)
Definition not_slash (c : ascii) : bool := negb (Ascii.eqb c "/").

Fixpoint search_subreddit (s : string) : option string :=
  match s with
  | EmptyString => None
  | String _ s' =>
      if starts_with "/r/" s
      then match take_while not_slash (drop 3 s) with
           | EmptyString => search_subreddit s'
           | g => Some g
           end
      else search_subreddit s'
  end.

(** A match of [page=\d+] at the head of [s]: the digits it spans *)
Definition match_page (s : string) : option string :=
  if starts_with "page=" s
  then match take_while is_digit (drop 5 s) with
       | EmptyString => None
       | ds => Some ds
       end
  else None.

(** [re.search(r"page=(\d+)", s)]: group 1 of the leftmost match *)
Fixpoint search_page (s : string) : option string :=
  match match_page s with
  | Some ds => Some ds
  | None =>
      match s with
      | EmptyString => None
      | String _ s' => search_page s'
      end
  end.

(** [re.sub(r"page=\d+", repl, s)]: every non-overlapping match, left to
    right, is replaced; [skip] counts the characters of the current match
    still to be consumed. *)
Fixpoint sub_page_go (repl : string) (skip : nat) (s : string) : string :=
  match s with
  | EmptyString => EmptyString
  | String c s' =>
      match skip with
      | S k => sub_page_go repl k s'
      | O =>
          match match_page s with
          | Some ds => repl +:+ sub_page_go repl (4 + String.length ds) s'
          | None => String c (sub_page_go repl 0 s')
          end
      end
  end.

Definition sub_page (repl s : string) : string := sub_page_go repl 0 s.

End PyStr.


(** ** Exceptions, state and control flow

    Every Python function of the class becomes a computation over a state
    that returns the new state and either a raised exception or a value. *)

Inductive exn : Type :=
| NoSuchElementException
| TimeoutException
| WebDriverException
| KeyError
| ValueError.

Definition Res (A : Type) : Type := exn + A.

Definition M (S A : Type) : Type := S -> S * Res A.

Definition ret {S A} (a : A) : M S A := fun s => (s, inr a).

Definition raise {S A} (e : exn) : M S A := fun s => (s, inl e).

Definition bind {S A B} (m : M S A) (k : A -> M S B) : M S B :=
  fun s =>
    match m s with
    | (s', inr a) => k a s'
    | (s', inl e) => (s', inl e)
    end.

Notation "x <- m ;; k" := (bind m (fun x => k))
  (at level 100, m at next level, right associativity).
Notation "m ;; k" := (bind m (fun _ => k))
  (at level 100, right associativity).

(** [try: m  except Exception as e: h e] *)
Definition try_catch {S A} (m : M S A) (h : exn -> M S A) : M S A :=
  fun s =>
    match m s with
    | (s', inl e) => h e s'
    | (s', inr a) => (s', inr a)
    end.

(** [try: m  except NoSuchElementException: h]; the other exceptions pass *)
Definition except_no_such_element {S A} (m : M S A) (h : M S A) : M S A :=
  try_catch m (fun e =>
    match e with
    | NoSuchElementException => h
    | _ => raise e
    end).

(** [try: m  except TimeoutException: h] *)
Definition except_timeout {S A} (m : M S A) (h : M S A) : M S A :=
  try_catch m (fun e =>
    match e with
    | TimeoutException => h
    | _ => raise e
    end).

(** [try: m  finally: c] *)
Definition finally {S A} (m : M S A) (c : M S unit) : M S A :=
  fun s =>
    match m s with
    | (s', r) =>
        match c s' with
        | (s'', inl e) => (s'', inl e)
        | (s'', inr _) => (s'', r)
        end
    end.

(** What one pass through a loop body asks for next *)
Inductive ctl (R : Type) : Type :=
| Next
| Break
| Return (r : R).
Arguments Next {R}.
Arguments Break {R}.
Arguments Return {R} r.

(** [for x in xs: body x]; [Some r] when the body returned [r] from the
    enclosing function *)
Fixpoint for_each {S A R} (xs : list A) (body : A -> M S (ctl R))
  : M S (option R) :=
  match xs with
  | [] => ret None
  | x :: xs' =>
      c <- body x ;;
      match c with
      | Next => for_each xs' body
      | Break => ret None
      | Return r => ret (Some r)
      end
  end.

(** [[f(x) for x in xs]] with an effectful [f] *)
Fixpoint map_m {S A B} (f : A -> M S B) (xs : list A) : M S (list B) :=
  match xs with
  | [] => ret []
  | x :: xs' => y <- f x ;; ys <- map_m f xs' ;; ret (y :: ys)
  end.

(** ** Data of the scraper *)

(** The four VADER scores attached to a post *)
Record Sentiment : Type := mkSentiment {
  compound : Q;
  pos : Q;
  neu : Q;
  neg : Q
}.

Definition zero_sentiment : Sentiment := mkSentiment 0 0 0 0.

(** Values stored in a post dictionary *)
Inductive PyVal : Type :=
| VStr (s : string)
| VSent (v : Sentiment).

(** [post_data]: a dictionary with string keys *)
Abbreviation Post := (gmap string PyVal).

(** [dir / name] for [dir = Path(d)] and a string [name], unevaluated *)
Inductive PyPath : Type :=
| PathJoin (d name : string).

(** What [_save_to_json] is asked to write *)
Inductive SaveData : Type :=
| SavePosts (posts : list Post)
| SaveAll (all : gmap string (list Post)).

(** [PROGRAMMING_LANGUAGES]: key, display name, subreddits *)
Definition PROGRAMMING_LANGUAGES : list (string * (string * list string)) :=
  [ ("r", ("R", ["rlanguage"; "Rlanguage"; "rprogramming"; "RStudio"; "statistics"]));
    ("rust", ("Rust", ["rust"; "rust_gamedev"; "learnrust"]));
    ("go", ("Go", ["golang"; "learngolang"])) ].

Fixpoint language_info (lang : string) (table : list (string * (string * list string)))
  : option (string * list string) :=
  match table with
  | [] => None
  | (k, info) :: rest =>
      if bool_decide (k = lang) then Some info else language_info lang rest
  end.

(** Configuration read by [__init__] *)
Record Config : Type := mkConfig {
  languages : list string;
  max_pages : Z;
  max_posts : Z;
  request_delay : Q;
  output_dir : string
}.

(** ** The browser session and the rest of the outside world

    [W] is the state of everything outside the analyzer object (browser,
    site, clock, file system) and [E] the type of element handles. Every
    call may change the world and may raise. *)

Inductive Scroll : Type :=
| ScrollByViewport
| ScrollToTop
| ScrollBy (px : Z)
| ScrollToBottom.

(** The inline scripts that return a text or [null] *)
Inductive TextScript : Type :=
| JsTitle
| JsAuthor
| JsDate
| JsContent
| JsVotes
| JsComments.

Record Driver (W E : Type) : Type := mkDriver {
  (* setup_driver *)
  chromedriver_install : M W unit;
  chrome_start : M W unit;
  set_page_load_timeout : M W unit;
  set_script_timeout : M W unit;
  execute_cdp_cmd : M W unit;
  (* navigation *)
  drv_get : string -> M W unit;
  drv_current_url : M W string;
  drv_quit : M W unit;
  (* queries *)
  wait_presence : string -> M W unit;
  find_element : string -> M W E;
  find_elements : string -> M W (list E);
  find_elements_by_tag : string -> M W (list E);
  (* elements *)
  el_text : E -> M W string;
  el_get_attribute : E -> string -> M W (option string);
  el_tag_name : E -> M W string;
  el_click : E -> M W unit;
  el_parent : E -> M W E;
  (* scripts *)
  js_scroll : Scroll -> M W unit;
  js_has_posts : M W bool;
  js_post_links : M W (list string);
  js_text : TextScript -> M W (option string);
  js_find_by_text : string -> M W (option E);
  (* time, hashing, scoring, files *)
  sleep : Q -> W -> W;
  now_isoformat : W -> string;
  py_hash : string -> Z;
  polarity_scores : string -> Sentiment;
  write_json : PyPath -> SaveData -> M W unit;
  run_analysis : list string -> gmap string (list Post) -> W -> W
}.

(** ** The methods that only talk to the browser *)

Section Browser.

Context {W E : Type} (drv : Driver W E).

Definition do_sleep (secs : Q) : M W unit :=
  fun w => (sleep _ _ drv secs w, inr tt).

(** The selector loop shared by the field extractors:
    [find_element(css).text.strip()], first non-empty one wins, a missing
    element moves on to the next selector. *)
Definition first_text (selectors : list string) : M W (option string) :=
  for_each selectors (fun selector =>
    except_no_such_element
      (el <- find_element _ _ drv selector ;;
       t <- el_text _ _ drv el ;;
       let t := PyStr.strip t in
       if PyStr.truthy t then ret (Return t) else ret Next)
      (ret Next)).

(** The script fallback: [v = execute_script(...)], kept when truthy, any
    exception swallowed *)
Definition script_text (script : TextScript) : M W (option string) :=
  try_catch
    (v <- js_text _ _ drv script ;;
     match v with
     | Some t => if PyStr.truthy t then ret (Some t) else ret None
     | None => ret None
     end)
    (fun _ => ret None).

Definition _is_valid_post_link (url : option string) : bool :=
  match url with
  | None => false
  | Some u =>
      PyStr.truthy u && PyStr.contains "/comments/" u
      && PyStr.contains "reddit.com/r/" u
  end.

Definition _extract_post_id (url : string) : string :=
  if PyStr.contains "/comments/" url then
    match PyStr.split "/comments/" url with
    | _ :: part :: _ => hd "" (PyStr.split "/" part)
    | _ => PyStr.str_of_N (Z.to_N (py_hash _ _ drv url `mod` 10000))
    end
  else PyStr.str_of_N (Z.to_N (py_hash _ _ drv url `mod` 10000)).

Definition title_selectors : list string :=
  ["h1"; "h1[slot='title']"; ".title a"; "[data-testid='post-title']"].

Definition title_from_url (post_url post_id : string) : string :=
  let url_parts := PyStr.split "/" post_url in
  if bool_decide (1 < length url_parts) then
    let potential_title :=
      if bool_decide (PyStr.last_item url_parts = Some "")
      then default "" (PyStr.second_last url_parts)
      else default "" (PyStr.last_item url_parts) in
    PyStr.title (PyStr.replace "-" " " (PyStr.replace "_" " " potential_title))
  else "Post " +:+ post_id.

Definition _extract_post_title (post_url post_id : string) : M W string :=
  try_catch
    (r <- first_text title_selectors ;;
     match r with
     | Some t => ret t
     | None =>
         j <- script_text JsTitle ;;
         match j with
         | Some t => ret t
         | None => ret (title_from_url post_url post_id)
         end
     end)
    (fun _ => ret ("Post " +:+ post_id)).

Definition author_selectors : list string :=
  ["a[data-testid='post_author']"; "a[slot='author']"; ".author"; "a.author"].

Definition _extract_post_author : M W string :=
  try_catch
    (r <- first_text author_selectors ;;
     match r with
     | Some t => ret t
     | None =>
         j <- script_text JsAuthor ;;
         match j with
         | Some t => ret t
         | None => ret "Unknown"
         end
     end)
    (fun _ => ret "Unknown").

Definition subreddit_selectors : list string :=
  ["a[data-testid='subreddit-link']"; "a[slot='subreddit-name']"; ".subreddit";
   "a.subreddit"].

Definition subreddit_from_url (post_url : string) : string :=
  if PyStr.contains "/r/" post_url then
    match PyStr.search_subreddit post_url with
    | Some g => "r/" +:+ g
    | None => "Unknown Subreddit"
    end
  else "Unknown Subreddit".

Definition _extract_post_subreddit (post_url : string) : M W string :=
  try_catch
    (r <- first_text subreddit_selectors ;;
     match r with
     | Some t => ret t
     | None => ret (subreddit_from_url post_url)
     end)
    (fun _ => ret "Unknown Subreddit").

Definition date_selectors : list string :=
  ["span[data-testid='post_timestamp']"; "span[slot='posted-time']"; "time";
   ".tagline time"].

Definition _extract_post_date : M W string :=
  try_catch
    (r <- first_text date_selectors ;;
     match r with
     | Some t => ret t
     | None =>
         j <- script_text JsDate ;;
         match j with
         | Some t => ret t
         | None => ret "Unknown Date"
         end
     end)
    (fun _ => ret "Unknown Date").

Definition ui_indicators : list string :=
  ["header"; "footer"; "sidebar"; "navigation"; "nav"; "menu"; "comment";
   "toolbar"; "banner"; "ad"; "widget"; "modal"; "popup"; "overlay"; "tooltip";
   "community-widget"].

(** The [for _ in range(5)] walk up the ancestors *)
Fixpoint ui_area_walk (levels : nat) (parent : E) : M W bool :=
  match levels with
  | O => ret false
  | S levels' =>
      c <- el_get_attribute _ _ drv parent "class" ;;
      i <- el_get_attribute _ _ drv parent "id" ;;
      let parent_class := PyStr.lower (default "" c) in
      let parent_id := PyStr.lower (default "" i) in
      if existsb (fun indicator =>
                    PyStr.contains indicator parent_class
                    || PyStr.contains indicator parent_id) ui_indicators
      then ret true
      else p <- el_parent _ _ drv parent ;; ui_area_walk levels' p
  end.

Definition _is_in_ui_area (element : E) : M W bool :=
  try_catch (ui_area_walk 5 element) (fun _ => ret false).

Definition content_selectors : list string :=
  ["div[data-test-id='post-content']"; "div[slot='text-body']";
   "[data-click-id='text']"; "div.md"; ".sitetable .usertext-body"].

(** Method 3 of [_extract_post_text_content]: the surviving paragraphs *)
Fixpoint content_paragraphs (paragraphs : list E) : M W (list string) :=
  match paragraphs with
  | [] => ret []
  | p :: rest =>
      t <- el_text _ _ drv p ;;
      if bool_decide (String.length (PyStr.strip t) < 20)
      then content_paragraphs rest
      else
        ui <- _is_in_ui_area p ;;
        if ui then content_paragraphs rest
        else
          t2 <- el_text _ _ drv p ;;
          more <- content_paragraphs rest ;;
          ret (PyStr.strip t2 :: more)
  end.

(** ["\n\n".join(parts)] *)
Fixpoint join_blank_line (parts : list string) : string :=
  match parts with
  | [] => ""
  | [x] => x
  | x :: rest => x +:+ String "010" (String "010" (join_blank_line rest))
  end.

Definition paragraph_text : M W (option string) :=
  try_catch
    (ps <- find_elements_by_tag _ _ drv "p" ;;
     parts <- content_paragraphs ps ;;
     match parts with
     | [] => ret None
     | _ => ret (Some (join_blank_line parts))
     end)
    (fun _ => ret None).

Definition _extract_post_text_content : M W string :=
  try_catch
    (r <- first_text content_selectors ;;
     match r with
     | Some t => ret t
     | None =>
         j <- script_text JsContent ;;
         match j with
         | Some t => ret t
         | None =>
             p <- paragraph_text ;;
             match p with
             | Some t => ret t
             | None => ret ""
             end
         end
     end)
    (fun _ => ret "").

Definition vote_selectors : list string :=
  ["div[id^='vote-arrows-']"; "faceplate-number[slot='upvote-count']";
   ".score.unvoted"; ".score"].

Definition comment_selectors : list string :=
  ["span[data-click-id='comments']"; "span[slot='comment-count']"; ".comments";
   "a.comments"].

(** The metadata selector loop: the first element found gives the value,
    empty or not *)
Definition first_element_text (selectors : list string) : M W (option string) :=
  for_each selectors (fun selector =>
    except_no_such_element
      (el <- find_element _ _ drv selector ;;
       t <- el_text _ _ drv el ;;
       ret (Return (PyStr.strip t)))
      (ret Next)).

(** One metadata field: selector loop, then the script when the key is
    still missing; the key is set only when a value was found. *)
Definition metadata_field (key : string) (selectors : list string)
    (script : TextScript) (post_data : Post) : M W Post :=
  r <- first_element_text selectors ;;
  match r with
  | Some v => ret (<[key := VStr v]> post_data)
  | None =>
      match post_data !! key with
      | Some _ => ret post_data
      | None =>
          j <- script_text script ;;
          match j with
          | Some v => ret (<[key := VStr v]> post_data)
          | None => ret post_data
          end
      end
  end.

(** [_extract_post_metadata] mutates [post_data] in place: an exception in
    the second half keeps what the first half stored. *)
Definition _extract_post_metadata (post_data : Post) : M W Post :=
  try_catch
    (pd1 <- metadata_field "votes" vote_selectors JsVotes post_data ;;
     try_catch
       (metadata_field "comments_count" comment_selectors JsComments pd1)
       (fun _ => ret pd1))
    (fun _ => ret post_data).

(** *** Post links of a listing page *)

Definition link_selectors : list string :=
  ["a[data-click-id='body']"; "a.title"; "a[data-testid='post-title']";
   "shreddit-post a[slot='full-post-link']"; "div.thing a.title"].

(** [[link.get_attribute('href') for link in links if link.get_attribute('href')]] *)
Fixpoint found_links (links : list E) : M W (list (option string)) :=
  match links with
  | [] => ret []
  | link :: rest =>
      h <- el_get_attribute _ _ drv link "href" ;;
      if PyStr.truthy (default "" h)
      then h2 <- el_get_attribute _ _ drv link "href" ;;
           more <- found_links rest ;;
           ret (h2 :: more)
      else found_links rest
  end.

Definition valid_links (links : list (option string)) : list string :=
  omap (fun l => if _is_valid_post_link l then l else None) links.

Fixpoint links_by_selectors (selectors : list string) (post_links : list string)
  : M W (list string) :=
  match selectors with
  | [] => ret post_links
  | selector :: rest =>
      found <- try_catch
                 (links <- find_elements _ _ drv selector ;;
                  fl <- found_links links ;;
                  ret (valid_links fl))
                 (fun _ => ret []) ;;
      links_by_selectors rest (post_links ++ found)
  end.

Definition _extract_post_links : M W (list string) :=
  post_links <- links_by_selectors link_selectors [] ;;
  post_links <-
    match post_links with
    | [] =>
        try_catch
          (js_links <- js_post_links _ _ drv ;;
           ret (valid_links (Some <$> js_links)))
          (fun _ => ret [])
    | _ => ret post_links
    end ;;
  ret (PyStr.dedup post_links).

(** *** The pagination resolver *)

Definition next_button_selectors : list string :=
  ["button[aria-label='Next']"; "a.next-button"; "span.next-button a";
   "a[rel='next']"; ".nav-buttons .next-button a"; "a.next"].

(** Method 1: a next control. The value returned to the caller is the
    link target, which is [None] for a link without one. *)
Definition next_button_strategy : M W (option (option string)) :=
  for_each next_button_selectors (fun selector =>
    try_catch
      (next_button <- find_element _ _ drv selector ;;
       d <- el_get_attribute _ _ drv next_button "disabled" ;;
       if bool_decide (d = Some "true") then ret Next
       else
         tag <- el_tag_name _ _ drv next_button ;;
         if bool_decide (PyStr.lower tag = "a")
         then h <- el_get_attribute _ _ drv next_button "href" ;; ret (Return h)
         else
           el_click _ _ drv next_button ;;
           do_sleep 2 ;;
           u <- drv_current_url _ _ drv ;;
           ret (Return (Some u)))
      (fun _ => ret Next)).

Definition load_more_selectors : list string :=
  ["button:contains('Load more')"; "button.MoreCommentsLink";
   "a:contains('load more')"; "button[data-click-id='load-more']";
   "button.button:contains('More')"].

(** [selector.split(":contains('")[1].split("')")[0]] *)
Definition contains_text (selector : string) : string :=
  hd "" (PyStr.split "')" (nth 1 (PyStr.split ":contains('" selector) "")).

(** Method 2: a load-more control *)
Definition load_more_strategy : M W (option string) :=
  for_each load_more_selectors (fun selector =>
    try_catch
      (load_more <-
         (if PyStr.contains ":contains" selector
          then js_find_by_text _ _ drv (contains_text selector)
          else el <- find_element _ _ drv selector ;; ret (Some el)) ;;
       match load_more with
       | Some el =>
           el_click _ _ drv el ;;
           do_sleep 3 ;;
           u <- drv_current_url _ _ drv ;;
           ret (Return u)
       | None => ret Next
       end)
      (fun _ => ret Next)).

Definition post_container_selector : string :=
  "div[data-testid='post-container'], shreddit-post, div.thing".

(** Method 3: more posts after scrolling to the bottom *)
Definition infinite_scroll_strategy : M W (option string) :=
  try_catch
    (old <- find_elements _ _ drv post_container_selector ;;
     js_scroll _ _ drv ScrollToBottom ;;
     do_sleep 3 ;;
     new <- find_elements _ _ drv post_container_selector ;;
     if bool_decide (length old < length new)
     then u <- drv_current_url _ _ drv ;; ret (Some u)
     else ret None)
    (fun _ => ret None).

(** Method 4 on the location it has read; [None] stands for the
    [ValueError] of [int(page_match.group(1))] or of [f'page={next_page}'] *)
Definition increment_page (current_url : string) : option string :=
  match PyStr.search_page current_url with
  | Some ds =>
      match PyStr.py_int ds with
      | Some current_page =>
          let next_page := (current_page + 1)%N in
          match PyStr.py_str_N next_page with
          | Some digits => Some (PyStr.sub_page ("page=" +:+ digits) current_url)
          | None => None
          end
      | None => None
      end
  | None =>
      if PyStr.contains "?" current_url
      then Some (current_url +:+ "&page=2")
      else Some (current_url +:+ "?page=2")
  end.

Definition url_pattern_strategy : M W string :=
  current_url <- drv_current_url _ _ drv ;;
  match increment_page current_url with
  | Some next_url => ret next_url
  | None => raise ValueError
  end.

Definition _find_next_page_or_load_more : M W (option string) :=
  try_catch
    (r1 <- next_button_strategy ;;
     match r1 with
     | Some v => ret v
     | None =>
         r2 <- load_more_strategy ;;
         match r2 with
         | Some u => ret (Some u)
         | None =>
             r3 <- infinite_scroll_strategy ;;
             match r3 with
             | Some u => ret (Some u)
             | None => u <- url_pattern_strategy ;; ret (Some u)
             end
         end
     end)
    (fun _ => ret None).

End Browser.

(** ** The analyzer object *)

(** Ghost record of what a run did, newest event first *)
Inductive Event : Type :=
| EvSessionStart
| EvQuit
| EvIter (page_num : Z) (url : string)
| EvAdd (url : string)
| EvGet (url : string)
| EvResolve (current_url : string) (next_url : option string)
| EvAppend (language : string) (post : Post)
| EvSave (path : PyPath) (data : SaveData).

(** The counters and sequences as they stand at some moment *)
Definition Snapshot : Type := gmap string Z * gmap string (list Post).

(** The analyzer object. [events] and [observed] are ghost fields: the
    events of the run, newest first, and next to each event the counters and
    sequences as they stood when it happened. *)
Record Analyzer (W : Type) : Type := mkAnalyzer {
  world : W;
  driver : bool;
  all_posts : gmap string (list Post);
  visited_urls : gset string;
  post_count : gmap string Z;
  events : list Event;
  observed : list Snapshot
}.
Arguments mkAnalyzer {W}.
Arguments world {W}.
Arguments driver {W}.
Arguments all_posts {W}.
Arguments visited_urls {W}.
Arguments post_count {W}.
Arguments events {W}.
Arguments observed {W}.

(** The events in the order they happened *)
Definition trace {W} (s : Analyzer W) : list Event := reverse (events s).

Section Analyzer.

Context {W E : Type} (drv : Driver W E) (cfg : Config).

(** [__init__] *)
Definition init (w : W) : Analyzer W :=
  mkAnalyzer w false ∅ ∅
    (list_to_map ((fun lang => (lang, 0%Z)) <$> languages cfg)) [] [].

Definition lift {A} (m : M W A) : M (Analyzer W) A :=
  fun s =>
    match m (world s) with
    | (w', r) =>
        (mkAnalyzer w' (driver s) (all_posts s) (visited_urls s) (post_count s)
           (events s) (observed s), r)
    end.

Definition log (ev : Event) : M (Analyzer W) unit :=
  fun s =>
    (mkAnalyzer (world s) (driver s) (all_posts s) (visited_urls s)
       (post_count s) (ev :: events s)
       ((post_count s, all_posts s) :: observed s), inr tt).

Definition gets {A} (f : Analyzer W -> A) : M (Analyzer W) A :=
  fun s => (s, inr (f s)).

Definition set_driver (d : bool) : M (Analyzer W) unit :=
  fun s =>
    (mkAnalyzer (world s) d (all_posts s) (visited_urls s) (post_count s)
       (events s) (observed s), inr tt).

(** [self.visited_urls.add(url)] *)
Definition visited_add (url : string) : M (Analyzer W) unit :=
  fun s =>
    (mkAnalyzer (world s) (driver s) (all_posts s) ({[url]} ∪ visited_urls s)
       (post_count s) (EvAdd url :: events s)
       ((post_count s, all_posts s) :: observed s), inr tt).

(** [self.post_count[language]] *)
Definition get_count (language : string) : M (Analyzer W) Z :=
  fun s =>
    match post_count s !! language with
    | Some c => (s, inr c)
    | None => (s, inl KeyError)
    end.

(** [self.all_posts[language]] *)
Definition get_posts (language : string) : M (Analyzer W) (list Post) :=
  fun s =>
    match all_posts s !! language with
    | Some l => (s, inr l)
    | None => (s, inl KeyError)
    end.

(** [self.all_posts[lang] = []] *)
Definition reset_posts (language : string) : M (Analyzer W) unit :=
  fun s =>
    (mkAnalyzer (world s) (driver s) (<[language := []]> (all_posts s))
       (visited_urls s) (post_count s) (events s) (observed s), inr tt).

(** [self.all_posts[language].append(post_data)] *)
Definition append_post (language : string) (post_data : Post)
  : M (Analyzer W) unit :=
  fun s =>
    match all_posts s !! language with
    | Some l =>
        (mkAnalyzer (world s) (driver s)
           (<[language := l ++ [post_data]]> (all_posts s)) (visited_urls s)
           (post_count s) (events s) (observed s), inr tt)
    | None => (s, inl KeyError)
    end.

(** [self.post_count[language] += 1] *)
Definition incr_count (language : string) : M (Analyzer W) unit :=
  fun s =>
    match post_count s !! language with
    | Some c =>
        (mkAnalyzer (world s) (driver s) (all_posts s) (visited_urls s)
           (<[language := (c + 1)%Z]> (post_count s)) (events s) (observed s),
         inr tt)
    | None => (s, inl KeyError)
    end.

(** [self.driver.get(url)] *)
Definition driver_get (url : string) : M (Analyzer W) unit :=
  log (EvGet url) ;; lift (drv_get _ _ drv url).

Definition analyze_sentiment (text : option string) : Sentiment :=
  match text with
  | None => zero_sentiment
  | Some t =>
      if PyStr.truthy t then polarity_scores _ _ drv t else zero_sentiment
  end.

Definition _save_to_json (data : SaveData) (filepath : PyPath)
  : M (Analyzer W) unit :=
  log (EvSave filepath data) ;;
  lift (try_catch (write_json _ _ drv filepath data) (fun _ => ret tt)).

Definition setup_driver : M (Analyzer W) unit :=
  lift (chromedriver_install _ _ drv) ;;
  lift (chrome_start _ _ drv) ;;
  set_driver true ;;
  log EvSessionStart ;;
  lift (set_page_load_timeout _ _ drv) ;;
  lift (set_script_timeout _ _ drv) ;;
  lift (execute_cdp_cmd _ _ drv).

(** [post_data.get(key)] when it holds a string *)
Definition get_str (key : string) (post_data : Post) : option string :=
  match post_data !! key with
  | Some (VStr t) => Some t
  | _ => None
  end.

Definition post_content_selectors : list string :=
  ["div[data-testid='post-content']"; "div[slot='text-body']";
   "[data-click-id='text']"; "div.md"; ".sitetable .usertext-body";
   "div[data-test-id='post-content']"].

(** The soft wait for any of the selectors; [true] when one showed up *)
Definition wait_for_any (selectors : list string) : M W bool :=
  r <- for_each selectors (fun selector =>
         except_timeout
           (wait_presence _ _ drv selector ;; ret (Return tt))
           (ret Next)) ;;
  ret (bool_decide (r = Some tt)).

(** The sentiment chosen for a filled [post_data] *)
Definition post_sentiment (post_data : Post) : Sentiment :=
  if PyStr.truthy (default "" (get_str "content" post_data))
  then analyze_sentiment (get_str "content" post_data)
  else if PyStr.truthy (default "" (get_str "title" post_data))
  then analyze_sentiment (get_str "title" post_data)
  else zero_sentiment.

(** The [try] block of [_extract_post_content] once the page is requested *)
Definition extract_fields (post_url language : string) : M W Post :=
  _ <- wait_for_any post_content_selectors ;;
  let post_id := _extract_post_id drv post_url in
  scraped_at <- (fun w => (w, inr (now_isoformat _ _ drv w))) ;;
  let post_data : Post :=
    <["scraped_at" := VStr scraped_at]>
      (<["language" := VStr language]>
         (<["post_url" := VStr post_url]>
            (<["post_id" := VStr post_id]> ∅))) in
  t <- _extract_post_title drv post_url post_id ;;
  let post_data := <["title" := VStr t]> post_data in
  a <- _extract_post_author drv ;;
  let post_data := <["author" := VStr a]> post_data in
  sr <- _extract_post_subreddit drv post_url ;;
  let post_data := <["subreddit" := VStr sr]> post_data in
  d <- _extract_post_date drv ;;
  let post_data := <["post_date" := VStr d]> post_data in
  c <- _extract_post_text_content drv ;;
  let post_data := <["content" := VStr c]> post_data in
  post_data <- _extract_post_metadata drv post_data ;;
  ret (<["sentiment" := VSent (post_sentiment post_data)]> post_data).

Definition _extract_post_content (post_url language : string)
  : M (Analyzer W) (option Post) :=
  visited <- gets visited_urls ;;
  if bool_decide (post_url ∈ visited) then ret None
  else
    visited_add post_url ;;
    try_catch
      (driver_get post_url ;;
       post_data <- lift (extract_fields post_url language) ;;
       ret (Some post_data))
      (fun _ => ret None).

(** *** [scrape_subreddit] *)

Definition post_selectors : list string :=
  ["div[data-testid='post-container']"; "div.thing"; "div.Post"; "shreddit-post";
   "[data-click-id='body']"].

(** The three attempts at finding posts on the listing page *)
Definition detect_posts : M W bool :=
  post_found <- wait_for_any post_selectors ;;
  post_found <-
    (if post_found then ret true
     else try_catch (js_has_posts _ _ drv) (fun _ => ret false)) ;;
  if post_found then ret true
  else
    try_catch
      (h3_elements <- find_elements_by_tag _ _ drv "h3" ;;
       ret (bool_decide (3 < length h3_elements)))
      (fun _ => ret false).

Definition scroll_and_wait (moves : list (Scroll * Q)) : M W unit :=
  _ <- for_each (R := unit) moves (fun '(mv, secs) =>
         js_scroll _ _ drv mv ;; do_sleep drv secs ;; ret Next) ;;
  ret tt.

(** The links of the page, with the second attempt after more scrolling *)
Definition find_post_links : M W (list string) :=
  post_links <- _extract_post_links drv ;;
  match post_links with
  | [] =>
      do_sleep drv 2 ;;
      js_scroll _ _ drv ScrollToTop ;;
      do_sleep drv 1 ;;
      scroll_and_wait
        ((fun i => (ScrollBy (300 * (Z.of_nat i + 1)), 7 # 10)) <$> seq 0 5) ;;
      _extract_post_links drv
  | _ => ret post_links
  end.

(** [self.output_dir / f"{language}_posts_batch_{count}.json"] *)
Definition batch_path (language : string) (count : Z) : M (Analyzer W) PyPath :=
  match PyStr.py_str count with
  | Some digits =>
      ret (PathJoin (output_dir cfg)
             (language +:+ "_posts_batch_" +:+ digits +:+ ".json"))
  | None => raise ValueError
  end.

(** One pass of the [for index, post_url in enumerate(post_links)] loop *)
Definition visit_post (language post_url : string) : M (Analyzer W) (ctl unit) :=
  count <- get_count language ;;
  if bool_decide (max_posts cfg <= count)%Z then ret Break
  else
    visited <- gets visited_urls ;;
    if bool_decide (post_url ∈ visited) then ret Next
    else
      try_catch
        (post_data <- _extract_post_content post_url language ;;
         match post_data with
         | Some pd =>
             if bool_decide (pd = ∅) then ret tt
             else
               append_post language pd ;;
               incr_count language ;;
               log (EvAppend language pd) ;;
               count <- get_count language ;;
               if bool_decide (count `mod` 5 = 0)%Z then
                 batch_file <- batch_path language count ;;
                 posts <- get_posts language ;;
                 _save_to_json (SavePosts posts) batch_file
               else ret tt
         | None => ret tt
         end ;;
         lift (do_sleep drv (request_delay cfg)) ;;
         ret Next)
        (fun _ => ret Next).

(** The [try] block of one listing page: [Some next_url] moves on to that
    page, [None] leaves the [while] loop. *)
Definition scrape_page (language current_url : string)
  : M (Analyzer W) (option string) :=
  driver_get current_url ;;
  post_found <- lift detect_posts ;;
  if negb post_found then ret None
  else
    lift (scroll_and_wait [(ScrollByViewport, 1%Q); (ScrollByViewport, 1%Q);
                           (ScrollByViewport, 1%Q)]) ;;
    post_links <- lift find_post_links ;;
    match post_links with
    | [] => ret None
    | _ =>
        _ <- for_each post_links (visit_post language) ;;
        next_url <- lift (_find_next_page_or_load_more drv) ;;
        log (EvResolve current_url next_url) ;;
        match next_url with
        | Some u =>
            if PyStr.truthy u && negb (bool_decide (u = current_url))
            then ret (Some u)
            else ret None
        | None => ret None
        end
    end.

(** The [while] loop; [None] only when [fuel] runs out *)
Fixpoint scrape_pages (fuel : nat) (language current_url : string) (page_num : Z)
  : M (Analyzer W) (option unit) :=
  match fuel with
  | O => ret None
  | S fuel' =>
      if PyStr.truthy current_url && bool_decide (page_num <= max_pages cfg)%Z
      then
        count <- get_count language ;;
        if bool_decide (count < max_posts cfg)%Z then
          log (EvIter page_num current_url) ;;
          visited <- gets visited_urls ;;
          if bool_decide (current_url ∈ visited) then ret (Some tt)
          else
            visited_add current_url ;;
            next <- try_catch (scrape_page language current_url)
                      (fun _ => ret None) ;;
            match next with
            | Some next_url =>
                scrape_pages fuel' language next_url (page_num + 1)
            | None => ret (Some tt)
            end
        else ret (Some tt)
      else ret (Some tt)
  end.

Definition scrape_subreddit (start_url language : string) : M (Analyzer W) unit :=
  _ <- scrape_pages (S (Z.to_nat (max_pages cfg))) language start_url 1 ;;
  ret tt.

(** *** [start_analysis] *)

Definition analyze_all_results : M (Analyzer W) unit :=
  fun s =>
    (mkAnalyzer (run_analysis _ _ drv (languages cfg) (all_posts s) (world s))
       (driver s) (all_posts s) (visited_urls s) (post_count s) (events s)
       (observed s), inr tt).

Definition known_language (lang : string) : bool :=
  bool_decide (is_Some (language_info lang PROGRAMMING_LANGUAGES)).

Definition subreddit_url (subreddit : string) : string :=
  "https://www.reddit.com/r/" +:+ subreddit +:+ "/hot/".

(** The [for subreddit in lang_info['subreddits']] loop *)
Definition crawl_subreddits (lang : string) (subreddits : list string)
  : M (Analyzer W) (option unit) :=
  for_each (R := unit) subreddits (fun subreddit =>
    try_catch
      (scrape_subreddit (subreddit_url subreddit) lang ;;
       count <- get_count lang ;;
       if bool_decide (max_posts cfg <= count)%Z then ret Break
       else lift (do_sleep drv (request_delay cfg)) ;; ret Next)
      (fun _ => ret Next)).

(** One pass of the [for lang in self.languages] loop for a known language *)
Definition scrape_language (lang : string) (subreddits : list string)
  : M (Analyzer W) unit :=
  _ <- crawl_subreddits lang subreddits ;;
  let lang_output_path := PathJoin (output_dir cfg) (lang +:+ "_posts.json") in
  posts <- get_posts lang ;;
  _save_to_json (SavePosts posts) lang_output_path.

Definition any_posts (all : gmap string (list Post)) : bool :=
  existsb (fun kv => negb (bool_decide (kv.2 = []))) (map_to_list all).

(** The [try] block of [start_analysis] *)
Definition start_analysis_try : M (Analyzer W) unit :=
  setup_driver ;;
  _ <- for_each (R := unit) (languages cfg) (fun lang =>
         if known_language lang then reset_posts lang ;; ret Next
         else ret Next) ;;
  _ <- for_each (R := unit) (languages cfg) (fun lang =>
         match language_info lang PROGRAMMING_LANGUAGES with
         | None => ret Next
         | Some (_, subreddits) => scrape_language lang subreddits ;; ret Next
         end) ;;
  all <- gets all_posts ;;
  if any_posts all then analyze_all_results else ret tt.

Definition emergency_path : PyPath :=
  PathJoin (output_dir cfg) "emergency-save.json".

(** The [except Exception] clause of [start_analysis] *)
Definition emergency_save : M (Analyzer W) unit :=
  try_catch
    (all <- gets all_posts ;; _save_to_json (SaveAll all) emergency_path)
    (fun _ => ret tt).

(** The [finally] clause of [start_analysis] *)
Definition close_driver : M (Analyzer W) unit :=
  d <- gets driver ;;
  if d then log EvQuit ;; lift (drv_quit _ _ drv) else ret tt.

Definition start_analysis : M (Analyzer W) unit :=
  finally (try_catch start_analysis_try (fun _ => emergency_save)) close_driver.

End Analyzer.

(** ** A small static site, used to run the model on concrete pages *)

Module Static.

Record Element : Type := mkElement {
  tag : string;
  text : string;
  attributes : list (string * string)
}.

Fixpoint assoc (k : string) (kvs : list (string * string)) : option string :=
  match kvs with
  | [] => None
  | (k', v) :: rest => if bool_decide (k' = k) then Some v else assoc k rest
  end.

(** A site: the elements a selector (or tag name) matches at a location, and
    which browser calls fail *)
Record Site : Type := mkSite {
  matches : string -> string -> list Element;
  location_fails : bool;
  configure_fails : bool;
  score : string -> Sentiment
}.

(** The world is the current location of the browser. *)
Definition driver (site : Site) : Driver string Element :=
  {| chromedriver_install := ret tt;
     chrome_start := ret tt;
     set_page_load_timeout :=
       if configure_fails site then raise WebDriverException else ret tt;
     set_script_timeout := ret tt;
     execute_cdp_cmd := ret tt;
     drv_get := fun url _ => (url, inr tt);
     drv_current_url :=
       fun w => if location_fails site then (w, inl WebDriverException)
                else (w, inr w);
     drv_quit := ret tt;
     wait_presence :=
       fun selector w =>
         match matches site w selector with
         | [] => (w, inl TimeoutException)
         | _ => (w, inr tt)
         end;
     find_element :=
       fun selector w =>
         match matches site w selector with
         | [] => (w, inl NoSuchElementException)
         | el :: _ => (w, inr el)
         end;
     find_elements := fun selector w => (w, inr (matches site w selector));
     find_elements_by_tag := fun name w => (w, inr (matches site w name));
     el_text := fun el => ret (text el);
     el_get_attribute := fun el name => ret (assoc name (attributes el));
     el_tag_name := fun el => ret (tag el);
     el_click := fun _ => ret tt;
     el_parent := fun _ => raise NoSuchElementException;
     js_scroll := fun _ => ret tt;
     js_has_posts := ret false;
     js_post_links := ret [];
     js_text := fun _ => ret None;
     js_find_by_text := fun _ => ret None;
     sleep := fun _ w => w;
     now_isoformat := fun _ => "2024-05-01T12:00:00";
     py_hash := fun _ => 0%Z;
     polarity_scores := score site;
     write_json := fun _ _ => ret tt;
     run_analysis := fun _ _ w => w |}.

Definition flat_score (_ : string) : Sentiment :=
  mkSentiment (1 # 2) (1 # 2) (1 # 2) 0.

(** A post page that shows a title and an author and nothing else *)
Definition bare_post_url : string :=
  "https://www.reddit.com/r/rust/comments/abc123/hello_world/".

Definition bare_site : Site :=
  mkSite
    (fun location selector =>
       if bool_decide (location = bare_post_url) then
         if bool_decide (selector = "h1") then [mkElement "h1" "Hello World" []]
         else if bool_decide (selector = ".author")
         then [mkElement "a" "  alice " []]
         else []
       else [])
    false false flat_score.

Definition config : Config :=
  mkConfig ["rust"] 3 20 0 "output".

End Static.

(** ** Configuration and result helpers *)

(** The languages of [load_config_from_env] and [main]:
    [[lang.strip() for lang in text.split(',') if lang.strip()]] *)
Definition parse_languages (text : string) : list string :=
  omap (fun lang =>
          if PyStr.truthy (PyStr.strip lang) then Some (PyStr.strip lang)
          else None)
       (PyStr.split "," text).

Module Stats.

(** The five counts of [sentiment_distribution] in [_create_json_outputs] *)
Record Distribution : Type := mkDistribution {
  very_positive : nat;
  positive : nat;
  neutral : nat;
  negative : nat;
  very_negative : nat
}.

(** The literals [0.5] and [0.05] as the numbers the interpreter reads *)
Definition half : Q := 1 # 2.
Definition twentieth : Q := 3602879701896397 # 72057594037927936.

Definition Qlt_bool (x y : Q) : bool := negb (Qle_bool y x).

(** [len(frame[mask])] *)
Fixpoint count_where (mask : Q -> bool) (compounds : list Q) : nat :=
  match compounds with
  | [] => 0
  | c :: rest => (if mask c then 1 else 0) + count_where mask rest
  end.

(** The distribution of the compound scores of one language; the scores
    are numbers, taken at their exact value. *)
Definition sentiment_distribution (compounds : list Q) : Distribution :=
  {| very_positive := count_where (fun c => Qlt_bool half c) compounds;
     positive :=
       count_where (fun c => Qle_bool c half && Qlt_bool twentieth c) compounds;
     neutral :=
       count_where (fun c => Qle_bool (- twentieth) c && Qle_bool c twentieth)
         compounds;
     negative :=
       count_where (fun c => Qle_bool (- half) c && Qlt_bool c (- twentieth))
         compounds;
     very_negative := count_where (fun c => Qlt_bool c (- half)) compounds |}.

End Stats.

(** ** Vocabulary of the properties *)

(** [rel R m]: running [m] takes every state to one related to it by [R] *)
Definition rel {S A} (R : S -> S -> Prop) (m : M S A) : Prop :=
  forall s, R s (m s).1.

(** Two analyzer states that differ at most in the outside world *)
Definition same_but_world {W} (s s' : Analyzer W) : Prop :=
  driver s' = driver s /\ all_posts s' = all_posts s /\
  visited_urls s' = visited_urls s /\ post_count s' = post_count s /\
  events s' = events s /\ observed s' = observed s.

(** [s'] has the events of [s] and, on top, new ones that all satisfy [phi] *)
Definition emits {W} (phi : Event -> Prop) (s s' : Analyzer W) : Prop :=
  exists new, events s' = new ++ events s /\ Forall phi new.

Definition is_iter (ev : Event) : bool :=
  match ev with EvIter _ _ => true | _ => false end.

Definition is_resolve (ev : Event) : bool :=
  match ev with EvResolve _ _ => true | _ => false end.

(** Events that are neither a loop iteration nor a resolver call *)
Definition not_paging (ev : Event) : Prop :=
  is_iter ev = false /\ is_resolve ev = false.

Fixpoint count_events (f : Event -> bool) (l : list Event) : nat :=
  match l with
  | [] => 0
  | ev :: l' => (if f ev then 1 else 0) + count_events f l'
  end.

(** What the resolver's answer means to the [while] loop: the location to
    go to next, if any *)
Definition next_location (current_url : string) (next_url : option string)
  : option string :=
  match next_url with
  | Some u =>
      if PyStr.truthy u && negb (bool_decide (u = current_url)) then Some u
      else None
  | None => None
  end.

(** How one listing page ends, seen from state [s]: either without a
    resolver call and without a next location, or with exactly one resolver
    call as its last event, whose answer decides the next location. *)
Definition page_outcome {W} (current_url : string) (s : Analyzer W)
    (out : Analyzer W * Res (option string)) : Prop :=
  exists new, events out.1 = new ++ events s /\
    ((Forall not_paging new /\ forall u, out.2 <> inr (Some u)) \/
     (exists next_url old,
        new = EvResolve current_url next_url :: old /\
        Forall not_paging old /\
        out.2 = inr (next_location current_url next_url))).

(** The shape of the events of one [while] loop, newest first, with
    [budget] iterations left: nothing; a last iteration, with or without a
    resolver call at its end; or an iteration whose resolver call gave a new,
    non-empty location, followed by the rest of the loop. *)
Inductive paging_log : nat -> list Event -> Prop :=
| paging_done budget : paging_log budget []
| paging_stop budget page_num cur body :
    Forall not_paging body ->
    paging_log (S budget) (body ++ [EvIter page_num cur])
| paging_stop_resolved budget page_num cur next_url body :
    Forall not_paging body ->
    paging_log (S budget) (EvResolve cur next_url :: body ++ [EvIter page_num cur])
| paging_next budget page_num cur u body rest :
    u <> cur -> PyStr.truthy u = true ->
    Forall not_paging body ->
    paging_log budget rest ->
    paging_log (S budget)
      (rest ++ EvResolve cur (Some u) :: body ++ [EvIter page_num cur]).

(** Iterations the page counter still allows from [page_num] on *)
Definition pages_left (cfg : Config) (page_num : Z) : nat :=
  Z.to_nat (max_pages cfg + 1 - page_num).

(** [keeps I]: a step that does not break [I] *)
Definition keeps {S} (I : S -> Prop) (s s' : S) : Prop := I s -> I s'.

(** The locations added to [visited_urls], as the log has them *)
Definition added (l : list Event) : list string :=
  omap (fun ev => match ev with EvAdd u => Some u | _ => None end) l.

Definition not_visit (ev : Event) : Prop :=
  match ev with
  | EvAdd _ | EvGet _ => False
  | _ => True
  end.

(** A log, newest first, in which every addition is of a location not added
    before and every navigation comes right after the addition of its
    location *)
Fixpoint wf_log (l : list Event) : Prop :=
  match l with
  | [] => True
  | EvAdd u :: rest => (u ∉ added rest) /\ wf_log rest
  | EvGet u :: rest => (exists rest', rest = EvAdd u :: rest') /\ wf_log rest
  | _ :: rest => wf_log rest
  end.

(** The log is well formed and [visited_urls] holds exactly what it added. *)
Definition visited_inv {W} (s : Analyzer W) : Prop :=
  wf_log (events s) /\ forall u, u ∈ visited_urls s <-> u ∈ added (events s).

(** A step that leaves [visited_urls] alone and neither adds nor navigates *)
Definition calm {W} (s s' : Analyzer W) : Prop :=
  visited_urls s' = visited_urls s /\ emits not_visit s s'.

(** [len(all_posts[lang])], zero when the key is missing *)
Definition seq_len (all : gmap string (list Post)) (lang : string) : Z :=
  Z.of_nat (length (default [] (all !! lang))).

(** A snapshot in which every counter equals the length of its sequence
    and is within the item bound *)
Definition consistent (cfg : Config) (snap : Snapshot) : Prop :=
  forall lang c, snap.1 !! lang = Some c ->
    c = seq_len snap.2 lang /\ (c <= Z.max 0 (max_posts cfg))%Z.

Definition is_append (ev : Event) : bool :=
  match ev with EvAppend _ _ => true | _ => false end.

(** The posts appended for [lang], in the order of the list of events *)
Definition appended (lang : string) (l : list Event) : list Post :=
  omap (fun ev =>
          match ev with
          | EvAppend lang' post => if bool_decide (lang' = lang) then Some post else None
          | _ => None
          end) l.


(** The analyzer before any post was stored *)
Definition fresh {W} (cfg : Config) (s : Analyzer W) : Prop :=
  (forall lang l, all_posts s !! lang = Some l -> l = []) /\
  (forall lang c, post_count s !! lang = Some c -> c = 0%Z) /\
  Forall (consistent cfg) (observed s) /\
  (forall lang, lang ∈ languages cfg -> is_Some (post_count s !! lang)) /\
  (forall lang, appended lang (trace s) = []).

(** A step that leaves counters and sequences alone, appends no post to the
    log, and observes only the snapshot it started from *)
Definition steady {W} (s s' : Analyzer W) : Prop :=
  post_count s' = post_count s /\ all_posts s' = all_posts s /\
  exists new_events new_observed,
    events s' = new_events ++ events s /\
    observed s' = new_observed ++ observed s /\
    Forall (fun ev => is_append ev = false) new_events /\
    Forall (fun snap => snap = (post_count s, all_posts s)) new_observed.


(** A step that leaves the session alone *)
Definition session_quiet {W} (s s' : Analyzer W) : Prop :=
  driver s' = driver s /\ emits (fun ev => ev <> EvSessionStart) s s'.

(** The keys [_extract_post_content] always stores *)
Definition core_keys : list string :=
  ["post_id"; "post_url"; "language"; "scraped_at"; "title"; "author";
   "subreddit"; "post_date"; "content"; "sentiment"].

(** The first three strategies of the resolver all fall through, leaving
    the world [w3] to the fourth. *)
Definition first_three_fail {W E} (drv : Driver W E) (w w3 : W) : Prop :=
  exists w1 w2,
    next_button_strategy drv w = (w1, inr None) /\
    load_more_strategy drv w1 = (w2, inr None) /\
    infinite_scroll_strategy drv w2 = (w3, inr None).

(** Where a metadata value comes from, in the words of the claim about
    [votes] and [comments_count]. An element produced [t]: the selectors
    before it raised [NoSuchElementException], and the first one that did
    not gave an element whose stripped text is [t]. *)
Fixpoint element_found {W E} (drv : Driver W E) (selectors : list string)
    (w : W) (t : string) (w' : W) : Prop :=
  match selectors with
  | [] => False
  | selector :: rest =>
      match find_element _ _ drv selector w with
      | (w1, inr el) =>
          match el_text _ _ drv el w1 with
          | (w2, inr t0) => t = PyStr.strip t0 /\ w' = w2
          | (w2, inl NoSuchElementException) => element_found drv rest w2 t w'
          | (w2, inl _) => False
          end
      | (w1, inl NoSuchElementException) => element_found drv rest w1 t w'
      | (w1, inl _) => False
      end
  end.

(** No selector has an element: each one raised [NoSuchElementException]. *)
Fixpoint no_element {W E} (drv : Driver W E) (selectors : list string)
    (w w' : W) : Prop :=
  match selectors with
  | [] => w' = w
  | selector :: rest =>
      match find_element _ _ drv selector w with
      | (w1, inr el) =>
          match el_text _ _ drv el w1 with
          | (w2, inl NoSuchElementException) => no_element drv rest w2 w'
          | _ => False
          end
      | (w1, inl NoSuchElementException) => no_element drv rest w1 w'
      | (w1, inl _) => False
      end
  end.

(** The script produced [t]: it returned the non-empty text [t]. *)
Definition script_found {W E} (drv : Driver W E) (script : TextScript)
    (w : W) (t : string) : Prop :=
  exists w', js_text _ _ drv script w = (w', inr (Some t)) /\
    PyStr.truthy t = true.

(** An element, or else the script, produced [t]. *)
Definition field_found {W E} (drv : Driver W E) (selectors : list string)
    (script : TextScript) (w : W) (t : string) : Prop :=
  (exists w', element_found drv selectors w t w') \/
  (exists w1, no_element drv selectors w w1 /\ script_found drv script w1 t).

(** ** Sample sites and runs *)

(** Sites for the resolver: one without any control, one whose next link
    has no target, one whose location cannot be read *)
Definition plain_site : Static.Site :=
  Static.mkSite (fun _ _ => []) false false Static.flat_score.


Definition dead_site : Static.Site :=
  Static.mkSite (fun _ _ => []) true false Static.flat_score.

Definition page3_url : string := "https://www.reddit.com/r/rust/hot/?page=3".

Definition per_page_url : string :=
  "https://old.reddit.com/r/rust/?page=3&per_page=25".

(** A location beyond the limit of the integer conversions: its page
    number has 4301 digits *)
Fixpoint nines (n : nat) : string :=
  match n with
  | O => EmptyString
  | S k => String "9" (nines k)
  end.

Definition long_page_url : string :=
  "https://www.reddit.com/r/rust/hot/?page=1" +:+ nines 4300.

(** A site that shows a listing with two post links at every location
    that is not a post or that carries a page parameter, and a title on
    every post page. *)
Definition first_post_url : string :=
  "https://www.reddit.com/r/rust/comments/aaa111/first_post/".

Definition second_post_url : string :=
  "https://www.reddit.com/r/rust/comments/bbb222/second_post/".

Definition listing_site : Static.Site :=
  Static.mkSite
    (fun location selector =>
       if PyStr.contains "/comments/" location
          && negb (PyStr.contains "?page=" location) then
         if bool_decide (selector = "h1")
         then [Static.mkElement "h1" "A post" []]
         else []
       else if bool_decide (selector = "div.thing")
       then [Static.mkElement "div" "" []]
       else if bool_decide (selector = "a.title")
       then [Static.mkElement "a" "first" [("href", first_post_url)];
             Static.mkElement "a" "second" [("href", second_post_url)]]
       else [])
    false false Static.flat_score.

Definition one_post_config : Config := mkConfig ["rust"] 3 1 0 "output".

(** A run over that subreddit with an item bound of one *)
Definition one_post_run : Analyzer string :=
  (start_analysis (Static.driver listing_site) one_post_config
     (init one_post_config "about:blank")).1.

(** One subreddit crawl with room for twenty posts and three pages *)
Definition three_pages_run : Analyzer string :=
  (scrape_subreddit (Static.driver listing_site) Static.config
     "https://www.reddit.com/r/rust/hot/" "rust"
     (reset_posts "rust" (init Static.config "about:blank")).1).1.

(** A site on which the configuration of the new session fails *)
Definition broken_site : Static.Site :=
  Static.mkSite (fun _ _ => []) false true Static.flat_score.

(** A run whose session cannot be configured *)
Definition broken_run : Analyzer string :=
  (start_analysis (Static.driver broken_site) Static.config
     (init Static.config "about:blank")).1.

(** The post extracted from the bare page by a fresh analyzer *)
Definition bare_run : Analyzer string * Res (option Post) :=
  _extract_post_content (Static.driver Static.bare_site) Static.bare_post_url
    "rust" (init Static.config "about:blank").

Definition bare_post : Post :=
  match bare_run.2 with
  | inr (Some pd) => pd
  | _ => ∅
  end.

(** ** Vocabulary of the properties of the stored posts *)

(** A step that leaves the part [f] of the analyzer alone *)
Definition unchanged {W A} (f : Analyzer W -> A) (s s' : Analyzer W) : Prop :=
  f s' = f s.

(** A step of the crawl for [lang] that forgets nothing: the session flag
    stays, [visited_urls] only grows, the other languages keep their
    sequences and counters, the sequence of [lang] is only appended to and
    its counter only goes up. *)
Definition extends {W} (lang : string) (s s' : Analyzer W) : Prop :=
  driver s' = driver s /\
  visited_urls s ⊆ visited_urls s' /\
  (forall lang', lang' <> lang ->
     all_posts s' !! lang' = all_posts s !! lang' /\
     post_count s' !! lang' = post_count s !! lang') /\
  (exists new, all_posts s' !! lang = (fun l => l ++ new) <$> all_posts s !! lang) /\
  (exists k, (0 <= k)%Z /\
     post_count s' !! lang = (fun c => (c + k)%Z) <$> post_count s !! lang).

(** A step that leaves the sequences alone and only adds to [visited_urls] *)
Definition settled {W} (s s' : Analyzer W) : Prop :=
  all_posts s' = all_posts s /\ visited_urls s ⊆ visited_urls s'.

(** What holds of the stored posts: each one carries the language it is
    stored under, the core keys, and the location of a valid post link
    that is in [visited_urls] and from which its identifier was computed;
    and no two stored posts have the same location. *)
Definition stored_inv {W E} (drv : Driver W E) (s : Analyzer W) : Prop :=
  (forall lang posts pd, all_posts s !! lang = Some posts -> pd ∈ posts ->
     pd !! "language" = Some (VStr lang) /\
     Forall (fun k => is_Some (pd !! k)) core_keys /\
     exists u, pd !! "post_url" = Some (VStr u) /\
       pd !! "post_id" = Some (VStr (_extract_post_id drv u)) /\
       _is_valid_post_link (Some u) = true /\ u ∈ visited_urls s) /\
  (forall lang1 lang2 posts1 posts2 i j pd1 pd2,
     all_posts s !! lang1 = Some posts1 -> all_posts s !! lang2 = Some posts2 ->
     posts1 !! i = Some pd1 -> posts2 !! j = Some pd2 ->
     pd1 !! "post_url" = pd2 !! "post_url" -> lang1 = lang2 /\ i = j).

(** Sequences exist only for configured languages of the table. *)
Definition languages_inv {W} (cfg : Config) (s : Analyzer W) : Prop :=
  forall lang, is_Some (all_posts s !! lang) ->
    lang ∈ languages cfg /\ known_language lang = true.

(** An analyzer that holds four posts, and the visit that gives it a fifth *)
Definition four_posts : Analyzer string :=
  mkAnalyzer "about:blank" true
    {[ "rust" := replicate 4 (<["post_url" := VStr "https://example.org/"]> ∅) ]}
    ∅ {[ "rust" := 4%Z ]} [] [].

Definition fifth_visit : Analyzer string * Res (option Post) :=
  _extract_post_content (Static.driver listing_site) first_post_url "rust"
    four_posts.

Definition fifth_post : Post :=
  match fifth_visit.2 with
  | inr (Some pd) => pd
  | _ => ∅
  end.

(** The file of a language: [output_dir / f"{lang}_posts.json"] *)
Definition language_path (cfg : Config) (lang : string) : PyPath :=
  PathJoin (output_dir cfg) (lang +:+ "_posts.json").

(** Every known language of [done] has a sequence, and a write of exactly
    that sequence to the file of the language was requested. *)
Definition saved_inv {W} (cfg : Config) (done : list string) (s : Analyzer W)
  : Prop :=
  forall lang, lang ∈ done -> known_language lang = true ->
    exists posts, all_posts s !! lang = Some posts /\
      EvSave (language_path cfg lang) (SavePosts posts) ∈ events s.

(** * Properties *)

(** ** Running computations *)

Lemma bind_inr {S A B} (m : M S A) (k : A -> M S B) s s' b :
  (x <- m ;; k x) s = (s', inr b) ->
  exists s1 a, m s = (s1, inr a) /\ k a s1 = (s', inr b).
Proof.
  unfold bind. destruct (m s) as [s1 [e|a]]; [discriminate|]. eauto.
Qed.

Lemma bind_step {S A B} (m : M S A) (k : A -> M S B) s s1 a :
  m s = (s1, inr a) -> (x <- m ;; k x) s = k a s1.
Proof. intros H. unfold bind. by rewrite H. Qed.

Lemma try_catch_total {S A} (m : M S A) (h : exn -> M S A) s :
  (forall e s1, exists s2 a, h e s1 = (s2, inr a)) ->
  exists s2 a, try_catch m h s = (s2, inr a).
Proof.
  intros Hh. unfold try_catch. destruct (m s) as [s1 [e|a]]; eauto.
Qed.

(** A handler that only returns leaves the state of the body. *)
Lemma try_catch_state {S A} (m : M S A) (x : A) s :
  (try_catch m (fun _ => ret x) s).1 = (m s).1.
Proof. unfold try_catch. by destruct (m s) as [s1 [e|a]]. Qed.

(** Sequencing with a fact [P] about the state in between *)
Lemma bind_inv {S A B} (P Q : S -> Prop) (m : M S A) (k : A -> M S B) s :
  P (m s).1 -> (forall s1, P s1 -> Q s1) ->
  (forall a s1, P s1 -> Q (k a s1).1) ->
  Q ((x <- m ;; k x) s).1.
Proof.
  intros Hm HPQ Hk. unfold bind. destruct (m s) as [s1 [e|a]]; simpl in *; auto.
Qed.

Lemma keeps_bind_from {S A B} (I : S -> Prop) (m : M S A) (k : A -> M S B) s :
  I (m s).1 -> (forall a, rel (keeps I) (k a)) -> I ((x <- m ;; k x) s).1.
Proof.
  intros Hm Hk. apply (bind_inv I); [exact Hm|done|]. intros a s1. apply Hk.
Qed.

(** ** Post extraction *)

Section PostFacts.

Context {W E : Type} (drv : Driver W E).

Lemma metadata_field_spec key sels script (pd pd' : Post) w w' :
  metadata_field drv key sels script pd w = (w', inr pd') ->
  pd' = pd \/ exists v, pd' = <[key := VStr v]> pd.
Proof.
  unfold metadata_field, bind.
  destruct (first_element_text drv sels w) as [w1 [e|[v|]]]; [discriminate| |].
  - unfold ret. intros [= <- <-]. eauto.
  - destruct (pd !! key); [unfold ret; intros [= <- <-]; eauto|].
    destruct (script_text drv script w1) as [w2 [e|[v|]]]; [discriminate| |];
      unfold ret; intros [= <- <-]; eauto.
Qed.

(** The metadata step always hands back a dictionary, which differs from
    the one it was given at most at the keys [votes] and [comments_count]. *)
Lemma metadata_spec (pd : Post) w :
  exists w' pd', _extract_post_metadata drv pd w = (w', inr pd') /\
    forall k, k <> "votes" -> k <> "comments_count" -> pd' !! k = pd !! k.
Proof.
  unfold _extract_post_metadata, try_catch at 1, bind.
  destruct (metadata_field drv "votes" vote_selectors JsVotes pd w)
    as [w1 [e|pd1]] eqn:H1.
  - eexists _, _. split; [reflexivity|]. done.
  - assert (Hk1 : forall k, k <> "votes" -> pd1 !! k = pd !! k).
    { intros k Hk. destruct (metadata_field_spec _ _ _ _ _ _ _ H1) as [->|[v ->]];
        [done|]. by rewrite lookup_insert_ne. }
    unfold try_catch.
    destruct (metadata_field drv "comments_count" comment_selectors JsComments
                pd1 w1) as [w2 [e|pd2]] eqn:H2.
    + eexists _, _. split; [reflexivity|]. auto.
    + eexists _, _. split; [reflexivity|]. intros k Hv Hc.
      destruct (metadata_field_spec _ _ _ _ _ _ _ H2) as [->|[v ->]]; [auto|].
      rewrite lookup_insert_ne; auto.
Qed.

(** The selector loop of a metadata field against its description *)
Lemma first_element_text_found sels w w' t :
  first_element_text drv sels w = (w', inr (Some t)) <->
  element_found drv sels w t w'.
Proof.
  unfold first_element_text. revert w.
  induction sels as [|sel sels IH]; intros w; cbn [for_each element_found].
  - by split.
  - unfold bind at 1, except_no_such_element, try_catch, bind.
    destruct (find_element W E drv sel w) as [w1 [e|el]].
    + destruct e; try by split. apply IH.
    + destruct (el_text W E drv el w1) as [w2 [e|t0]].
      * destruct e; try by split. apply IH.
      * unfold ret. split; [by intros [= <- <-]|by intros [-> ->]].
Qed.

Lemma first_element_text_none sels w w' :
  first_element_text drv sels w = (w', inr None) <-> no_element drv sels w w'.
Proof.
  unfold first_element_text. revert w.
  induction sels as [|sel sels IH]; intros w; cbn [for_each no_element].
  - unfold ret. split; [by intros [= <-]|by intros ->].
  - unfold bind at 1, except_no_such_element, try_catch, bind.
    destruct (find_element W E drv sel w) as [w1 [e|el]].
    + destruct e; try by split. apply IH.
    + destruct (el_text W E drv el w1) as [w2 [e|t0]].
      * destruct e; try by split. apply IH.
      * by split.
Qed.

(** A value that was produced is stored under the key. *)
Lemma field_found_runs key sels script (pd : Post) w t :
  pd !! key = None -> field_found drv sels script w t ->
  exists w', metadata_field drv key sels script pd w
             = (w', inr (<[key := VStr t]> pd)).
Proof.
  intros Hkey [(w' & Hel)|(w1 & Hno & w2 & Hjs & Ht)]; unfold metadata_field.
  - apply first_element_text_found in Hel.
    rewrite (bind_step _ _ _ _ _ Hel). by eexists.
  - apply first_element_text_none in Hno.
    rewrite (bind_step _ _ _ _ _ Hno), Hkey.
    unfold script_text, try_catch, bind. rewrite Hjs, Ht. by eexists.
Qed.

(** The key is stored only for a value that was produced. *)
Lemma metadata_field_found key sels script (pd pd' : Post) w w' :
  pd !! key = None ->
  metadata_field drv key sels script pd w = (w', inr pd') ->
  forall v, pd' !! key = Some v <->
            exists t, v = VStr t /\ field_found drv sels script w t.
Proof.
  intros Hkey Hrun v. split.
  - revert Hrun. unfold metadata_field, bind.
    destruct (first_element_text drv sels w) as [w1 [e|[t|]]] eqn:Hf;
      [discriminate| |].
    + unfold ret. intros [= <- <-]. rewrite lookup_insert_eq. intros [= <-].
      exists t. split; [done|]. left. exists w1. by apply first_element_text_found.
    + rewrite Hkey. unfold script_text, try_catch, bind.
      destruct (js_text W E drv script w1) as [w2 [e|[t|]]] eqn:Hjs; unfold ret;
        [intros [= <- <-]; by rewrite Hkey| |intros [= <- <-]; by rewrite Hkey].
      destruct (PyStr.truthy t) eqn:Ht; intros [= <- <-];
        [|by rewrite Hkey].
      rewrite lookup_insert_eq. intros [= <-]. exists t. split; [done|].
      right. exists w1. split; [by apply first_element_text_none|].
      exists w2. by split.
  - intros (t & -> & Hfound).
    destruct (field_found_runs key sels script pd w t Hkey Hfound) as (w2 & H2).
    rewrite Hrun in H2. injection H2 as _ ->. by rewrite lookup_insert_eq.
Qed.

(** [votes] and [comments_count] after the metadata step, for a dictionary
    that had neither. *)
Lemma metadata_found (pd0 : Post) w :
  pd0 !! "votes" = None -> pd0 !! "comments_count" = None ->
  exists w' pdm, _extract_post_metadata drv pd0 w = (w', inr pdm) /\
    (forall v, pdm !! "votes" = Some v <->
       exists t, v = VStr t /\ field_found drv vote_selectors JsVotes w t) /\
    (forall v, pdm !! "comments_count" = Some v <->
       exists t wv pd1, v = VStr t /\
         metadata_field drv "votes" vote_selectors JsVotes pd0 w = (wv, inr pd1) /\
         field_found drv comment_selectors JsComments wv t).
Proof.
  intros Hv Hc. unfold _extract_post_metadata, try_catch at 1, bind.
  destruct (metadata_field drv "votes" vote_selectors JsVotes pd0 w)
    as [w1 [e|pd1]] eqn:H1.
  - eexists _, _. split; [reflexivity|]. split; intros v; rewrite ?Hv, ?Hc.
    + split; [done|]. intros (t & _ & Hfound).
      destruct (field_found_runs "votes" _ _ pd0 w t Hv Hfound) as (w2 & H2).
      congruence.
    + split; [done|]. by intros (t & wv & pd1 & _ & [=] & _).
  - pose proof (metadata_field_found _ _ _ _ _ _ _ Hv H1) as Hvotes.
    assert (Hc1 : pd1 !! "comments_count" = None).
    { destruct (metadata_field_spec _ _ _ _ _ _ _ H1) as [->|[v ->]]; [done|].
      by rewrite lookup_insert_ne. }
    unfold try_catch.
    destruct (metadata_field drv "comments_count" comment_selectors JsComments
                pd1 w1) as [w2 [e|pd2]] eqn:H2.
    + eexists _, _. split; [reflexivity|]. split; [exact Hvotes|].
      intros v. rewrite Hc1. split; [done|].
      intros (t & wv & pd1' & _ & [= <- <-] & Hfound).
      destruct (field_found_runs "comments_count" _ _ pd1 w1 t Hc1 Hfound)
        as (w3 & H3).
      congruence.
    + eexists _, _. split; [reflexivity|]. split.
      * intros v. rewrite <- Hvotes.
        destruct (metadata_field_spec _ _ _ _ _ _ _ H2) as [->|[c ->]]; [done|].
        by rewrite lookup_insert_ne.
      * intros v.
        rewrite (metadata_field_found _ _ _ _ _ _ _ Hc1 H2 v).
        split; [intros (t & -> & Hf); by eauto 10|].
        intros (t & wv & pd1' & -> & [= <- <-] & Hf). eauto.
Qed.

(** What [extract_fields] returns when it returns: the five extracted texts
    under their keys, the bookkeeping keys, and the sentiment chosen from
    content and title. *)
Lemma extract_fields_spec url lang w w' (pd : Post) :
  extract_fields drv url lang w = (w', inr pd) ->
  exists t a sr d c,
    pd !! "post_id" = Some (VStr (_extract_post_id drv url)) /\
    pd !! "post_url" = Some (VStr url) /\
    pd !! "language" = Some (VStr lang) /\
    is_Some (pd !! "scraped_at") /\
    pd !! "title" = Some (VStr t) /\
    pd !! "author" = Some (VStr a) /\
    pd !! "subreddit" = Some (VStr sr) /\
    pd !! "post_date" = Some (VStr d) /\
    pd !! "content" = Some (VStr c) /\
    pd !! "sentiment" =
      Some (VSent (if PyStr.truthy c then polarity_scores _ _ drv c
                   else if PyStr.truthy t then polarity_scores _ _ drv t
                   else zero_sentiment)).
Proof.
  unfold extract_fields. intros H.
  apply bind_inr in H as (w1 & _ & _ & H).
  apply bind_inr in H as (w2 & ts & Hts & H).
  apply bind_inr in H as (w3 & t & _ & H).
  apply bind_inr in H as (w4 & a & _ & H).
  apply bind_inr in H as (w5 & sr & _ & H).
  apply bind_inr in H as (w6 & d & _ & H).
  apply bind_inr in H as (w7 & c & _ & H).
  apply bind_inr in H as (w8 & pdm & Hm & H).
  unfold ret in H. injection H as <- <-.
  match type of Hm with
  | _extract_post_metadata _ ?p _ = _ =>
      set (pd0 := p) in *;
      destruct (metadata_spec pd0 w7) as (w8' & pdm' & Hm' & Hkeep)
  end.
  rewrite Hm in Hm'. injection Hm' as <- <-.
  assert (Hfin : forall k, k <> "votes" -> k <> "comments_count" ->
            k <> "sentiment" ->
            (<["sentiment":=VSent (post_sentiment drv pdm)]> pdm) !! k = pd0 !! k).
  { intros k ? ? ?. rewrite lookup_insert_ne by done. by apply Hkeep. }
  exists t, a, sr, d, c.
  repeat split;
    try (rewrite Hfin by discriminate; subst pd0; simplify_map_eq; reflexivity).
  - rewrite Hfin by discriminate. subst pd0. simplify_map_eq. eauto.
  - rewrite lookup_insert_eq. do 2 f_equal.
    unfold post_sentiment, get_str, analyze_sentiment.
    rewrite !Hkeep by discriminate. subst pd0. simplify_map_eq. simpl.
    destruct (PyStr.truthy c); [done|]. destruct (PyStr.truthy t); done.
Qed.

Lemma extract_post_content_inv url lang (s s' : Analyzer W) (pd : Post) :
  _extract_post_content drv url lang s = (s', inr (Some pd)) ->
  exists w w', extract_fields drv url lang w = (w', inr pd).
Proof.
  unfold _extract_post_content. intros H.
  apply bind_inr in H as (s1 & v & _ & H).
  case_bool_decide; [discriminate|].
  apply bind_inr in H as (s2 & [] & _ & H).
  unfold try_catch in H.
  destruct ((driver_get drv url ;;
             post_data <- lift (extract_fields drv url lang) ;;
             ret (Some post_data)) s2) as [s3 [e|r]] eqn:Hb; [discriminate|].
  injection H as <- ->.
  apply bind_inr in Hb as (s4 & [] & _ & Hb).
  apply bind_inr in Hb as (s5 & pd' & Hl & Hb).
  injection Hb as <- <-.
  unfold lift in Hl.
  destruct (extract_fields drv url lang (world s4)) as [w' r] eqn:Hx.
  injection Hl as <- ->. eauto.
Qed.

(** The metadata step is the last one of [extract_fields] that touches the
    browser; it starts from a dictionary without [votes] and
    [comments_count], and its two keys are the ones returned. *)
Lemma extract_fields_metadata url lang w w' (pd : Post) :
  extract_fields drv url lang w = (w', inr pd) ->
  exists pd0 wm pdm,
    pd0 !! "votes" = None /\ pd0 !! "comments_count" = None /\
    _extract_post_metadata drv pd0 wm = (w', inr pdm) /\
    pd !! "votes" = pdm !! "votes" /\
    pd !! "comments_count" = pdm !! "comments_count".
Proof.
  unfold extract_fields. intros H.
  apply bind_inr in H as (w1 & _ & _ & H).
  apply bind_inr in H as (w2 & ts & Hts & H).
  apply bind_inr in H as (w3 & t & _ & H).
  apply bind_inr in H as (w4 & a & _ & H).
  apply bind_inr in H as (w5 & sr & _ & H).
  apply bind_inr in H as (w6 & d & _ & H).
  apply bind_inr in H as (w7 & c & _ & H).
  apply bind_inr in H as (w8 & pdm & Hm & H).
  unfold ret in H. injection H as <- <-.
  eexists _, w7, pdm. split; [|split; [|split; [exact Hm|]]].
  - by simplify_map_eq.
  - by simplify_map_eq.
  - split; by rewrite lookup_insert_ne.
Qed.

Lemma extract_post_content_last url lang (s s' : Analyzer W) (pd : Post) :
  _extract_post_content drv url lang s = (s', inr (Some pd)) ->
  exists w, extract_fields drv url lang w = (world s', inr pd).
Proof.
  unfold _extract_post_content. intros H.
  apply bind_inr in H as (s1 & v & _ & H).
  case_bool_decide; [discriminate|].
  apply bind_inr in H as (s2 & [] & _ & H).
  unfold try_catch in H.
  destruct ((driver_get drv url ;;
             post_data <- lift (extract_fields drv url lang) ;;
             ret (Some post_data)) s2) as [s3 [e|r]] eqn:Hb; [discriminate|].
  injection H as <- ->.
  apply bind_inr in Hb as (s4 & [] & _ & Hb).
  apply bind_inr in Hb as (s5 & pd' & Hl & Hb).
  injection Hb as <- <-.
  unfold lift in Hl.
  destruct (extract_fields drv url lang (world s4)) as [w' r] eqn:Hx.
  injection Hl as <- ->. eauto.
Qed.

End PostFacts.

(** C1, as the code has it: [_extract_post_content] never raises; it
    returns [None] or a dictionary in which the identification keys, title,
    author, subreddit, post date, content and sentiment are all present.
    The keys [votes] and [comments_count] of a returned dictionary are those
    of the metadata step, which is the last step to touch the browser and
    starts from a dictionary that has neither key. The metadata step never
    raises, and from such a dictionary it stores [votes] exactly when an
    element or else the script produced a value, and that value; it stores
    [comments_count] exactly when the [votes] part did not raise and, on the
    world it left, an element or else the script produced a value, and that
    value. Otherwise the keys are absent. *)
Theorem extract_post_content_core_fields {W E} (drv : Driver W E) url lang
    (s : Analyzer W) :
  (exists s' r, _extract_post_content drv url lang s = (s', inr r) /\
     match r with
     | None => True
     | Some pd =>
         Forall (fun k => is_Some (pd !! k)) core_keys /\
         exists pd0 wm pdm,
           pd0 !! "votes" = None /\ pd0 !! "comments_count" = None /\
           _extract_post_metadata drv pd0 wm = (world s', inr pdm) /\
           pd !! "votes" = pdm !! "votes" /\
           pd !! "comments_count" = pdm !! "comments_count"
     end) /\
  (forall (pd0 : Post) (w : W),
     pd0 !! "votes" = None -> pd0 !! "comments_count" = None ->
     exists w' pdm, _extract_post_metadata drv pd0 w = (w', inr pdm) /\
       (forall v, pdm !! "votes" = Some v <->
          exists t, v = VStr t /\ field_found drv vote_selectors JsVotes w t) /\
       (forall v, pdm !! "comments_count" = Some v <->
          exists t wv pd1, v = VStr t /\
            metadata_field drv "votes" vote_selectors JsVotes pd0 w
              = (wv, inr pd1) /\
            field_found drv comment_selectors JsComments wv t)).
Proof.
  split; [|apply metadata_found].
  destruct (_extract_post_content drv url lang s) as [s' [e|[pd|]]] eqn:Hrun.
  - exfalso. revert Hrun. unfold _extract_post_content, bind, gets.
    case_bool_decide; [discriminate|].
    unfold visited_add, try_catch.
    match goal with |- context [match ?x with _ => _ end] => destruct x as [? [?|?]] end;
      discriminate.
  - eexists _, _. split; [reflexivity|].
    apply extract_post_content_last in Hrun as (w & Hx). split.
    + apply extract_fields_spec in Hx
        as (t & a & sr & d & c & H1 & H2 & H3 & H4 & H5 & H6 & H7 & H8 & H9 & H10).
      unfold core_keys. repeat constructor; try done; eauto.
    + by apply extract_fields_metadata in Hx.
  - eexists _, _. split; [reflexivity|]. exact I.
Qed.

(** C1 as stated fails: on a page without vote and comment elements the
    returned dictionary has neither a [votes] nor a [comments_count] key. *)
Lemma extract_post_content_omits_votes :
  exists pd, bare_run.2 = inr (Some pd) /\
    pd !! "title" = Some (VStr "Hello World") /\
    pd !! "votes" = None /\ pd !! "comments_count" = None.
Proof.
  exists bare_post. repeat split; vm_compute; reflexivity.
Qed.

(** C7: the sentiment stored in an extracted post is the score of its
    content when that is non-empty, else the score of its title when that is
    non-empty, else the zero vector. *)
Theorem sentiment_from_content_then_title {W E} (drv : Driver W E) url lang
    (s s' : Analyzer W) (pd : Post) :
  _extract_post_content drv url lang s = (s', inr (Some pd)) ->
  exists c t,
    pd !! "content" = Some (VStr c) /\ pd !! "title" = Some (VStr t) /\
    pd !! "sentiment" =
      Some (VSent (if PyStr.truthy c then polarity_scores _ _ drv c
                   else if PyStr.truthy t then polarity_scores _ _ drv t
                   else zero_sentiment)).
Proof.
  intros Hrun. apply extract_post_content_inv in Hrun as (w & w' & Hx).
  apply extract_fields_spec in Hx
    as (t & a & sr & d & c & _ & _ & _ & _ & Ht & _ & _ & _ & Hc & Hs).
  exists c, t. auto.
Qed.

Lemma sentiment_from_content_then_title_witness :
  exists c t,
    bare_post !! "content" = Some (VStr c) /\ bare_post !! "title" = Some (VStr t) /\
    bare_post !! "sentiment" =
      Some (VSent (if PyStr.truthy c
                   then polarity_scores _ _ (Static.driver Static.bare_site) c
                   else if PyStr.truthy t
                   then polarity_scores _ _ (Static.driver Static.bare_site) t
                   else zero_sentiment)).
Proof.
  apply (sentiment_from_content_then_title (Static.driver Static.bare_site)
           Static.bare_post_url "rust" (init Static.config "about:blank")
           bare_run.1 bare_post).
  vm_compute. reflexivity.
Defined.

(** C9: [analyze_sentiment] gives the zero vector for [None] and for the
    empty string. *)
Theorem analyze_sentiment_empty {W E} (drv : Driver W E) :
  analyze_sentiment drv None = mkSentiment 0 0 0 0 /\
  analyze_sentiment drv (Some "") = mkSentiment 0 0 0 0.
Proof. split; reflexivity. Qed.

(** ** The pagination resolver *)

Lemma for_each_total {S A R} (xs : list A) (body : A -> M S (ctl R)) :
  (forall x s, exists s' c, body x s = (s', inr c)) ->
  forall s, exists s' r, for_each xs body s = (s', inr r).
Proof.
  intros Hb. induction xs as [|x xs IH]; intros s; simpl.
  - eexists _, _. reflexivity.
  - unfold bind. destruct (Hb x s) as (s1 & c & ->).
    destruct c; [apply IH | eexists _, _; reflexivity..].
Qed.

Section ResolverFacts.

Context {W E : Type} (drv : Driver W E).






End ResolverFacts.




(** When the browser cannot report its location, the fourth strategy
    raises and the resolver answers [None]. *)
Example find_next_without_location :
  first_three_fail (Static.driver dead_site) page3_url page3_url /\
  (_find_next_page_or_load_more (Static.driver dead_site) page3_url).2 = inr None.
Proof.
  split; [|vm_compute; reflexivity].
  exists page3_url, page3_url. repeat split; vm_compute; reflexivity.
Qed.

(** A location that is read, but whose page number is beyond the limit of
    [int]: the fourth strategy raises [ValueError] and the resolver answers
    [None]. *)
Example find_next_beyond_digit_limit :
  first_three_fail (Static.driver plain_site) long_page_url long_page_url /\
  drv_current_url _ _ (Static.driver plain_site) long_page_url
    = (long_page_url, inr long_page_url) /\
  (url_pattern_strategy (Static.driver plain_site) long_page_url).2
    = inl ValueError /\
  (_find_next_page_or_load_more (Static.driver plain_site) long_page_url).2
    = inr None.
Proof.
  split; [|repeat apply conj; vm_compute; reflexivity].
  exists long_page_url, long_page_url. repeat apply conj; vm_compute; reflexivity.
Qed.

(** The fourth strategy on ordinary locations *)
Example increment_page_samples :
  increment_page page3_url = Some "https://www.reddit.com/r/rust/hot/?page=4" /\
  increment_page "https://www.reddit.com/r/rust/hot/"
    = Some "https://www.reddit.com/r/rust/hot/?page=2" /\
  increment_page "https://www.reddit.com/r/rust/hot/?sort=new"
    = Some "https://www.reddit.com/r/rust/hot/?sort=new&page=2" /\
  increment_page "https://www.reddit.com/r/rust/hot/?page=99"
    = Some "https://www.reddit.com/r/rust/hot/?page=100".
Proof. repeat split; reflexivity. Qed.

(** *** The URL strategy on locations with one page parameter *)

Lemma append_cons c a s : String c a +:+ s = String c (a +:+ s).
Proof. reflexivity. Qed.

Lemma sub_page_no_match repl s :
  PyStr.search_page s = None -> PyStr.sub_page_go repl 0 s = s.
Proof.
  induction s as [|c s IH]; [reflexivity|]. cbn [PyStr.search_page PyStr.sub_page_go].
  destruct (PyStr.match_page (String c s)); [discriminate|].
  intros H. by rewrite IH.
Qed.

Lemma sub_page_skip repl a s :
  PyStr.sub_page_go repl (String.length a) (a +:+ s) = PyStr.sub_page_go repl 0 s.
Proof. induction a as [|c a IH]; [reflexivity|]. exact IH. Qed.

Lemma take_while_digits ds post :
  PyStr.take_while PyStr.is_digit ds = ds ->
  PyStr.take_while PyStr.is_digit post = "" ->
  PyStr.take_while PyStr.is_digit (ds +:+ post) = ds.
Proof.
  intros Hds Hpost. induction ds as [|c ds IH]; [exact Hpost|].
  rewrite append_cons. cbn [PyStr.take_while] in *.
  destruct (PyStr.is_digit c); [|discriminate].
  injection Hds as Hds. by rewrite (IH Hds).
Qed.

Lemma match_page_here ds post :
  ds <> "" ->
  PyStr.take_while PyStr.is_digit ds = ds ->
  PyStr.take_while PyStr.is_digit post = "" ->
  PyStr.match_page (String "p" ("age=" +:+ ds +:+ post)) = Some ds.
Proof.
  intros Hne Hds Hpost. unfold PyStr.match_page.
  change (PyStr.starts_with "page=" (String "p" ("age=" +:+ ds +:+ post)))
    with true.
  change (PyStr.drop 5 (String "p" ("age=" +:+ ds +:+ post))) with (ds +:+ post).
  rewrite (take_while_digits ds post Hds Hpost). by destruct ds.
Qed.

(** On a location with exactly one match of [page=<digits>], the URL
    strategy returns the same location with the number incremented. *)
Lemma increment_page_single pre ds post :
  (forall i, i < String.length pre ->
     PyStr.match_page (PyStr.drop i (pre +:+ "page=" +:+ ds +:+ post)) = None) ->
  ds <> "" ->
  PyStr.take_while PyStr.is_digit ds = ds ->
  PyStr.take_while PyStr.is_digit post = "" ->
  PyStr.search_page post = None ->
  PyStr.within_limit ds = true ->
  PyStr.within_limit (PyStr.str_of_N (PyStr.int_of_digits ds + 1)) = true ->
  increment_page (pre +:+ "page=" +:+ ds +:+ post)
  = Some (pre +:+ "page=" +:+ PyStr.str_of_N (PyStr.int_of_digits ds + 1)
          +:+ post).
Proof.
  intros Hpre Hne Hds Hpost Hrest Hin Hout.
  pose proof (match_page_here ds post Hne Hds Hpost) as Hhere.
  change ("page=" +:+ ds +:+ post) with (String "p" ("age=" +:+ ds +:+ post))
    in *.
  assert (Hboth : PyStr.search_page (pre +:+ String "p" ("age=" +:+ ds +:+ post))
                  = Some ds /\
                  forall repl,
                    PyStr.sub_page_go repl 0
                      (pre +:+ String "p" ("age=" +:+ ds +:+ post))
                    = pre +:+ repl +:+ post).
  { induction pre as [|c pre IH].
    - change ("" +:+ String "p" ("age=" +:+ ds +:+ post))
        with (String "p" ("age=" +:+ ds +:+ post)).
      cbn [PyStr.search_page PyStr.sub_page_go]. rewrite Hhere.
      split; [reflexivity|]. intros repl.
      change ("" +:+ repl +:+ post) with (repl +:+ post). f_equal.
      change ("age=" +:+ ds +:+ post) with (("age=" +:+ ds) +:+ post).
      change (4 + String.length ds) with (String.length ("age=" +:+ ds)).
      rewrite sub_page_skip. by apply sub_page_no_match.
    - pose proof (Hpre 0 ltac:(simpl; lia)) as H0.
      change (PyStr.drop 0 ?x) with x in H0.
      rewrite (append_cons c pre) in H0 |- *.
      destruct IH as [IHs IHr].
      { intros i Hi. apply (Hpre (S i)). simpl. lia. }
      cbn [PyStr.search_page PyStr.sub_page_go]. rewrite H0.
      split; [exact IHs|]. intros repl. rewrite (append_cons c pre).
      f_equal. apply IHr. }
  destruct Hboth as [Hsearch Hsub].
  unfold increment_page, PyStr.py_int, PyStr.py_str_N.
  rewrite Hsearch, Hin, Hout. unfold PyStr.sub_page. f_equal. apply Hsub.
Qed.

(** Without any match the URL strategy appends a page parameter. *)
Lemma increment_page_none u :
  PyStr.search_page u = None ->
  increment_page u
  = Some (u +:+ (if PyStr.contains "?" u then "&page=2" else "?page=2")).
Proof.
  intros H. unfold increment_page. rewrite H. by destruct (PyStr.contains "?" u).
Qed.

Example increment_page_single_sample :
  increment_page ("https://www.reddit.com/r/rust/hot/?" +:+ "page=" +:+ "3"
                  +:+ "&sort=new")
  = Some ("https://www.reddit.com/r/rust/hot/?" +:+ "page=" +:+ "4"
          +:+ "&sort=new").
Proof.
  apply (increment_page_single "https://www.reddit.com/r/rust/hot/?" "3"
           "&sort=new"); try reflexivity; [|discriminate].
  intros i Hi. do 35 (destruct i as [|i]; [reflexivity|]).
  simpl in Hi. lia.
Qed.

(** C8 at a location with a second parameter whose name ends in [page]: the
    first three strategies fail, and the resolver rewrites that parameter as
    well instead of returning the same location with [page=4]. *)
Theorem find_next_rewrites_other_parameters :
  first_three_fail (Static.driver plain_site) per_page_url per_page_url /\
  (_find_next_page_or_load_more (Static.driver plain_site) per_page_url).2
    = inr (Some "https://old.reddit.com/r/rust/?page=4&per_page=4").
Proof.
  split; [|vm_compute; reflexivity].
  exists per_page_url, per_page_url. repeat split; vm_compute; reflexivity.
Qed.

(** ** Relational reasoning about computations *)

Section Rel.

Context {S : Type} (R : S -> S -> Prop) `{!PreOrder R}.

Lemma rel_ret {A} (a : A) : rel R (ret a).
Proof. intros s. reflexivity. Qed.

Lemma rel_raise {A} e : rel R (raise (A := A) e).
Proof. intros s. reflexivity. Qed.

Lemma rel_bind {A B} (m : M S A) (k : A -> M S B) :
  rel R m -> (forall a, rel R (k a)) -> rel R (x <- m ;; k x).
Proof.
  intros Hm Hk s. unfold bind. specialize (Hm s).
  destruct (m s) as [s1 [e|a]]; [exact Hm|].
  etrans; [exact Hm|apply Hk].
Qed.

Lemma rel_try_catch {A} (m : M S A) (h : exn -> M S A) :
  rel R m -> (forall e, rel R (h e)) -> rel R (try_catch m h).
Proof.
  intros Hm Hh s. unfold try_catch. specialize (Hm s).
  destruct (m s) as [s1 [e|a]]; [|exact Hm].
  etrans; [exact Hm|apply Hh].
Qed.

Lemma rel_finally {A} (m : M S A) (c : M S unit) :
  rel R m -> rel R c -> rel R (finally m c).
Proof.
  intros Hm Hc s. unfold finally. specialize (Hm s).
  destruct (m s) as [s1 r]. specialize (Hc s1).
  destruct (c s1) as [s2 [e|[]]]; etrans; eauto.
Qed.

Lemma rel_for_each {A B} (xs : list A) (body : A -> M S (ctl B)) :
  (forall x, rel R (body x)) -> rel R (for_each xs body).
Proof.
  intros Hb. induction xs as [|x xs IH]; simpl.
  - apply rel_ret.
  - apply rel_bind; [apply Hb|]. intros []; [exact IH|apply rel_ret..].
Qed.

End Rel.

Section AnalyzerRel.

Context {W E : Type} (drv : Driver W E) (cfg : Config).

Lemma lift_same {A} (m : M W A) (s : Analyzer W) :
  same_but_world s (lift m s).1.
Proof. unfold lift. destruct (m (world s)); repeat split. Qed.

Lemma rel_lift (R : Analyzer W -> Analyzer W -> Prop) {A} (m : M W A) :
  (forall s s', same_but_world s s' -> R s s') -> rel R (lift m).
Proof. intros HR s. apply HR, lift_same. Qed.

Lemma rel_gets (R : Analyzer W -> Analyzer W -> Prop) `{!Reflexive R} {A}
    (f : Analyzer W -> A) :
  rel R (gets f).
Proof. intros s. reflexivity. Qed.

Global Instance emits_preorder (phi : Event -> Prop) :
  PreOrder (emits (W := W) phi).
Proof.
  split.
  - intros s. exists []. split; [reflexivity|constructor].
  - intros s1 s2 s3 (n1 & H1 & F1) (n2 & H2 & F2). exists (n2 ++ n1).
    rewrite H2, H1, app_assoc. split; [reflexivity|]. apply Forall_app; auto.
Qed.

Lemma emits_same_events phi (s s' : Analyzer W) :
  events s' = events s -> emits phi s s'.
Proof. intros H. exists []. split; [exact H|constructor]. Qed.

Lemma emits_same phi (s s' : Analyzer W) :
  same_but_world s s' -> emits phi s s'.
Proof. intros (_ & _ & _ & _ & H & _). by apply emits_same_events. Qed.

Lemma emits_log phi ev : phi ev -> rel (emits phi) (log (W := W) ev).
Proof. intros H s. exists [ev]. split; [reflexivity|]. by constructor. Qed.

End AnalyzerRel.

(** Walks through the structure of a computation, leaving its primitive
    steps to [leaf] *)
Ltac rel_walk leaf :=
  repeat first
    [ leaf
    | apply rel_ret; apply _ | apply rel_raise; apply _
    | apply rel_gets; apply _
    | apply rel_bind; [apply _| |intros ?]
    | apply rel_try_catch; [apply _| |intros ?]
    | apply rel_finally; [apply _| |]
    | apply rel_for_each; [apply _|intros ?]
    | match goal with
      | |- rel _ (if ?b then _ else _) => destruct b
      | |- rel _ (match ?x with _ => _ end) => destruct x
      end
    | progress unfold batch_path
    | progress unfold crawl_subreddits ].

(** The state-only primitives leave the events alone. *)
Ltac same_events :=
  let s := fresh "s" in
  intros s;
  unfold get_count, get_posts, append_post, incr_count, reset_posts, set_driver;
  repeat match goal with
         | |- context [match ?x with _ => _ end] => destruct x
         end;
  apply emits_same_events; reflexivity.

Section Paging.

Context {W E : Type} (drv : Driver W E) (cfg : Config).

Ltac quiet_leaf :=
  first
    [ apply rel_lift; apply emits_same
    | apply emits_log; split; reflexivity
    | solve [same_events] ].

Lemma quiet_driver_get url : rel (emits not_paging) (driver_get drv url).
Proof. unfold driver_get. rel_walk quiet_leaf. Qed.

Lemma quiet_save data path : rel (emits not_paging) (_save_to_json drv data path).
Proof. unfold _save_to_json. rel_walk quiet_leaf. Qed.

Lemma quiet_visited_add url : rel (emits not_paging) (visited_add (W := W) url).
Proof.
  intros s. exists [EvAdd url]. split; [reflexivity|]. by repeat constructor.
Qed.

Lemma quiet_extract url lang :
  rel (emits not_paging) (_extract_post_content drv url lang).
Proof.
  unfold _extract_post_content.
  rel_walk ltac:(first [apply quiet_driver_get | apply quiet_visited_add | quiet_leaf]).
Qed.

Lemma quiet_visit_post lang url :
  rel (emits not_paging) (visit_post drv cfg lang url).
Proof.
  unfold visit_post.
  rel_walk ltac:(first [apply quiet_extract | apply quiet_save | quiet_leaf]).
Qed.

Lemma page_outcome_bind {A} cur (m : M (Analyzer W) A) k s :
  rel (emits not_paging) m ->
  (forall a s1, page_outcome cur s1 (k a s1)) ->
  page_outcome cur s ((x <- m ;; k x) s).
Proof.
  intros Hm Hk. unfold bind. destruct (Hm s) as (n1 & H1 & F1).
  destruct (m s) as [s1 [e|a]]; simpl in *.
  - exists n1. split; [exact H1|]. left. split; [exact F1|]. by intros u.
  - destruct (Hk a s1) as (n2 & H2 & Hcase). exists (n2 ++ n1).
    rewrite H2, H1, app_assoc. split; [reflexivity|].
    destruct Hcase as [[F2 Hr]|(nxt & old & -> & F2 & Hr)].
    + left. split; [apply Forall_app; auto|exact Hr].
    + right. exists nxt, (old ++ n1). repeat split; [|exact Hr].
      apply Forall_app; auto.
Qed.

Lemma page_outcome_stop cur (s : Analyzer W) :
  page_outcome cur s (ret None s).
Proof.
  exists []. split; [reflexivity|]. left. split; [constructor|]. by intros u.
Qed.

(** Every listing page ends in one of the two ways of [page_outcome]. *)
Lemma scrape_page_outcome lang cur (s : Analyzer W) :
  page_outcome cur s (scrape_page drv cfg lang cur s).
Proof.
  unfold scrape_page.
  apply page_outcome_bind; [apply quiet_driver_get|]. intros _ s1.
  apply page_outcome_bind; [rel_walk quiet_leaf|]. intros found s2.
  destruct found; simpl; [|apply page_outcome_stop].
  apply page_outcome_bind; [rel_walk quiet_leaf|]. intros _ s3.
  apply page_outcome_bind; [rel_walk quiet_leaf|]. intros links s4.
  destruct links as [|l links]; [apply page_outcome_stop|].
  apply page_outcome_bind.
  { apply rel_for_each; [apply _|]. intros x. apply quiet_visit_post. }
  intros _ s5.
  apply page_outcome_bind; [rel_walk quiet_leaf|]. intros nxt s6.
  exists [EvResolve cur nxt]. split.
  - unfold bind, log. simpl. by destruct nxt as [u|]; [destruct (_ && _)|].
  - right. exists nxt, []. repeat split; [constructor|].
    unfold bind, log, next_location. simpl.
    by destruct nxt as [u|]; [destruct (_ && _)|].
Qed.

End Paging.

Section PagingLoop.

Context {W E : Type} (drv : Driver W E) (cfg : Config).

(** The [while] loop emits a paging log within the page budget, and does
    not run out of fuel when given more fuel than that budget. *)
Lemma scrape_pages_log fuel lang cur page_num (s : Analyzer W) :
  exists new,
    events (scrape_pages drv cfg fuel lang cur page_num s).1 = new ++ events s /\
    paging_log (pages_left cfg page_num) new /\
    (pages_left cfg page_num < fuel ->
     (scrape_pages drv cfg fuel lang cur page_num s).2 <> inr None).
Proof.
  revert cur page_num s.
  induction fuel as [|fuel IH]; intros cur page_num s.
  { exists []. repeat split; [constructor|lia]. }
  destruct (scrape_pages drv cfg (S fuel) lang cur page_num s) as [s' r] eqn:Hrun.
  cbn [fst snd]. cbn [scrape_pages] in Hrun.
  assert (Hnone : s' = s -> r = inr (Some tt) \/ (exists e, r = inl e) ->
            exists new, events s' = new ++ events s /\
              paging_log (pages_left cfg page_num) new /\
              (pages_left cfg page_num < S fuel -> r <> inr None)).
  { intros -> Hr. exists []. repeat split; [constructor|].
    intros _. destruct Hr as [->|[e ->]]; discriminate. }
  destruct (PyStr.truthy cur && bool_decide (page_num <= max_pages cfg)%Z)
    eqn:Hcond; [|injection Hrun as <- <-; apply Hnone; auto].
  apply andb_true_iff in Hcond as [_ Hle]. apply bool_decide_eq_true in Hle.
  assert (Hbudget : pages_left cfg page_num = S (pages_left cfg (page_num + 1))).
  { unfold pages_left. lia. }
  unfold bind at 1, get_count in Hrun.
  destruct (post_count s !! lang) as [count|];
    [|injection Hrun as <- <-; apply Hnone; eauto].
  case_bool_decide; [|injection Hrun as <- <-; apply Hnone; auto].
  unfold bind at 1, log in Hrun. unfold bind at 1, gets in Hrun.
  cbn [events visited_urls] in Hrun.
  case_bool_decide.
  { injection Hrun as <- <-. exists [EvIter page_num cur]. rewrite Hbudget.
    repeat split; [apply (paging_stop _ _ _ []); constructor|discriminate]. }
  unfold bind at 1, visited_add in Hrun. unfold bind, try_catch in Hrun.
  cbn [world driver all_posts visited_urls post_count events observed] in Hrun.
  match type of Hrun with
  | context [scrape_page drv cfg lang cur ?s0] =>
      set (s1 := s0) in *;
      pose proof (scrape_page_outcome drv cfg lang cur s1) as Hpage
  end.
  destruct (scrape_page drv cfg lang cur s1) as [s2 r2] eqn:Hrun2.
  destruct Hpage as (new & Hnew & Hcase). cbn [fst snd] in Hnew, Hcase.
  assert (Hbase : events s1 = [EvAdd cur; EvIter page_num cur] ++ events s)
    by reflexivity.
  assert (Hquiet : forall body, Forall not_paging body ->
            Forall not_paging (body ++ [EvAdd cur])).
  { intros body Hb. apply Forall_app. split; [exact Hb|]. by repeat constructor. }
  destruct Hcase as [[Fq Hr]|(nxt & old & -> & Fq & ->)].
  - assert (Hstop : exists new',
              events s2 = new' ++ events s /\
              paging_log (pages_left cfg page_num) new').
    { exists (new ++ [EvAdd cur; EvIter page_num cur]). rewrite Hnew, Hbase.
      split; [by rewrite <- app_assoc|]. rewrite Hbudget.
      replace (new ++ [EvAdd cur; EvIter page_num cur])
        with ((new ++ [EvAdd cur]) ++ [EvIter page_num cur])
        by (by rewrite <- app_assoc).
      apply paging_stop. auto. }
    destruct Hstop as (new' & Hev & Hlog).
    destruct r2 as [e|[u|]]; [|by destruct (Hr u)|];
      injection Hrun as <- <-; exists new'; repeat split; auto; discriminate.
  - assert (Hev : events s2 =
              (EvResolve cur nxt :: (old ++ [EvAdd cur]) ++ [EvIter page_num cur])
              ++ events s).
    { rewrite Hnew, Hbase. cbn. by rewrite <- !app_assoc. }
    destruct (next_location cur nxt) as [u|] eqn:Hnext.
    + unfold next_location in Hnext. destruct nxt as [u'|]; [|discriminate].
      destruct (PyStr.truthy u' && negb (bool_decide (u' = cur))) eqn:Hp;
        [|discriminate].
      injection Hnext as ->. apply andb_true_iff in Hp as [Ht Hne].
      apply negb_true_iff, bool_decide_eq_false in Hne.
      destruct (IH u (page_num + 1)%Z s2) as (rest & Hrest & Hlog & Hfuel).
      rewrite Hrun in Hrest, Hfuel. cbn [fst snd] in Hrest, Hfuel.
      exists (rest ++ EvResolve cur (Some u) :: (old ++ [EvAdd cur])
                ++ [EvIter page_num cur]).
      split; [rewrite Hrest, Hev; apply app_assoc|].
      split; [rewrite Hbudget; apply paging_next; auto|].
      intros Hlt. apply Hfuel. lia.
    + injection Hrun as <- <-.
      exists (EvResolve cur nxt :: (old ++ [EvAdd cur]) ++ [EvIter page_num cur]).
      rewrite Hbudget.
      repeat split; [exact Hev|apply paging_stop_resolved; auto|discriminate].
Qed.

End PagingLoop.

(** ** What a paging log says *)

Lemma count_events_app f l1 l2 :
  count_events f (l1 ++ l2) = count_events f l1 + count_events f l2.
Proof. induction l1 as [|ev l1 IH]; simpl; [reflexivity|]. rewrite IH. lia. Qed.

Lemma count_not_paging body :
  Forall not_paging body ->
  count_events is_iter body = 0 /\ count_events is_resolve body = 0.
Proof.
  induction 1 as [|ev body [Hi Hr] _ [IHi IHr]]; simpl; [done|].
  by rewrite Hi, Hr, IHi, IHr.
Qed.

Lemma paging_log_counts budget new :
  paging_log budget new ->
  count_events is_iter new <= budget /\ count_events is_resolve new <= budget.
Proof.
  induction 1 as [n|n pn cur body Hb|n pn cur nxt body Hb
                  |n pn cur u body rest Hne Ht Hb Hrest [IHi IHr]];
    try destruct (count_not_paging _ Hb) as [Hi Hr];
    simpl; rewrite ?count_events_app; simpl; rewrite ?count_events_app; simpl;
    rewrite ?Hi, ?Hr; lia.
Qed.

Lemma not_paging_no_resolve body pn cur c n :
  Forall not_paging body -> EvResolve c n ∉ body ++ [EvIter pn cur].
Proof.
  intros Hb Hin. apply elem_of_app in Hin as [Hin|Hin].
  - rewrite Forall_forall in Hb. destruct (Hb _ Hin) as [_ Hr]. discriminate.
  - apply list_elem_of_singleton in Hin. discriminate.
Qed.

(** In a paging log, a resolver call that answered with its own location
    is the newest event. *)
Lemma paging_log_self budget new :
  paging_log budget new ->
  forall l2 l1 u, new = l2 ++ EvResolve u (Some u) :: l1 -> l2 = [].
Proof.
  induction 1 as [n|n pn cur body Hb|n pn cur nxt body Hb
                  |n pn cur v body rest Hne Ht Hb Hrest IH];
    intros l2 l1 u Heq.
  - by destruct l2.
  - exfalso. apply (not_paging_no_resolve body pn cur u (Some u) Hb).
    rewrite Heq. apply elem_of_app. right. left.
  - destruct l2 as [|x l2]; [reflexivity|]. exfalso.
    injection Heq as _ Heq.
    apply (not_paging_no_resolve body pn cur u (Some u) Hb).
    rewrite Heq. apply elem_of_app. right. left.
  - apply app_eq_inv in Heq as [(k & Hk1 & Hk2)|(k & Hk1 & Hk2)].
    + destruct k as [|x k]; simpl in Hk2.
      * injection Hk2 as ? ? ?. congruence.
      * injection Hk2 as <- _. by apply (IH l2 k u).
    + destruct k as [|x k]; simpl in Hk2.
      * injection Hk2 as ? ? ?. congruence.
      * injection Hk2 as _ Hk2. exfalso.
        apply (not_paging_no_resolve body pn cur u (Some u) Hb).
        rewrite Hk2. apply elem_of_app. right. left.
Qed.

Section ResolverLocation.

Context {W E : Type} (drv : Driver W E).

(** The infinite-scroll and load-more strategies answer with the location
    the browser reports once they have acted. *)
Lemma infinite_scroll_answer w w' u :
  infinite_scroll_strategy drv w = (w', inr (Some u)) ->
  exists w0, drv_current_url _ _ drv w0 = (w', inr u).
Proof.
  unfold infinite_scroll_strategy, try_catch, bind.
  destruct (find_elements W E drv post_container_selector w) as [w1 [e|old]];
    [discriminate|].
  destruct (js_scroll W E drv ScrollToBottom w1) as [w2 [e|[]]]; [discriminate|].
  unfold do_sleep.
  destruct (find_elements W E drv post_container_selector _) as [w3 [e|new]];
    [discriminate|].
  case_bool_decide; [|discriminate].
  destruct (drv_current_url W E drv w3) as [w4 [e|u']] eqn:Hu; [discriminate|].
  intros [= <- <-]. eauto.
Qed.

Lemma load_more_answer w w' u :
  load_more_strategy drv w = (w', inr (Some u)) ->
  exists w0, drv_current_url _ _ drv w0 = (w', inr u).
Proof.
  unfold load_more_strategy. generalize load_more_selectors. intros sels.
  revert w. induction sels as [|sel sels IH]; intros w; simpl; [discriminate|].
  unfold bind at 1, try_catch at 1.
  match goal with
  | |- context [match ?m w with _ => _ end] => destruct (m w) as [w1 [e|c]] eqn:Hbody
  end; simpl.
  - apply IH.
  - destruct c as [| |v]; [apply IH|discriminate|].
    intros [= <- <-]. clear IH. revert Hbody. unfold bind at 1.
    match goal with
    | |- context [match ?m w with _ => _ end] => destruct (m w) as [w2 [e|[el|]]]
    end; [discriminate| |discriminate].
    unfold bind, do_sleep.
    destruct (el_click W E drv el w2) as [w3 [e|[]]]; [discriminate|].
    destruct (drv_current_url W E drv _) as [w4 [e|u']] eqn:Hu; [discriminate|].
    intros [= <- <-]. eauto.
Qed.

End ResolverLocation.

(** C3: one [scrape_subreddit] call runs the loop body, and calls the
    pagination resolver, at most [max_pages] times, whatever the browser
    and the resolver answer. The bound holds for the loop under any amount
    of fuel, and the loop ends by itself within [max_pages + 1] evaluations
    of its condition. *)
Theorem scrape_subreddit_within_max_pages {W E} (drv : Driver W E) (cfg : Config)
    start_url lang (s : Analyzer W) :
  (forall fuel, Z.to_nat (max_pages cfg) < fuel ->
     (scrape_pages drv cfg fuel lang start_url 1 s).2 <> inr None) /\
  (forall fuel, exists new,
     events (scrape_pages drv cfg fuel lang start_url 1 s).1 = new ++ events s /\
     count_events is_iter new <= Z.to_nat (max_pages cfg) /\
     count_events is_resolve new <= Z.to_nat (max_pages cfg)) /\
  exists new,
    events (scrape_subreddit drv cfg start_url lang s).1 = new ++ events s /\
    count_events is_iter new <= Z.to_nat (max_pages cfg) /\
    count_events is_resolve new <= Z.to_nat (max_pages cfg).
Proof.
  assert (Hleft : pages_left cfg 1 = Z.to_nat (max_pages cfg)).
  { unfold pages_left. f_equal. lia. }
  assert (Hany : forall fuel, exists new,
            events (scrape_pages drv cfg fuel lang start_url 1 s).1
              = new ++ events s /\
            count_events is_iter new <= Z.to_nat (max_pages cfg) /\
            count_events is_resolve new <= Z.to_nat (max_pages cfg)).
  { intros fuel.
    destruct (scrape_pages_log drv cfg fuel lang start_url 1 s)
      as (new & Hnew & Hlog & _).
    rewrite Hleft in Hlog. exists new. split; [exact Hnew|].
    by apply paging_log_counts. }
  split; [|split; [exact Hany|]].
  - intros fuel Hfuel.
    destruct (scrape_pages_log drv cfg fuel lang start_url 1 s)
      as (new & _ & _ & Hok).
    apply Hok. by rewrite Hleft.
  - destruct (Hany (S (Z.to_nat (max_pages cfg)))) as (new & Hnew & Hcount).
    exists new. split; [|exact Hcount].
    unfold scrape_subreddit, bind.
    destruct (scrape_pages drv cfg _ lang start_url 1 s) as [s' [e|r]]; exact Hnew.
Qed.

(** C10: when the resolver answers with the location the loop is at, the
    [scrape_subreddit] call does nothing more: that resolver call is its last
    event. The infinite-scroll and load-more strategies answer with the
    location the browser reports after they acted. *)
Theorem resolver_answer_at_current_ends_paging {W E} (drv : Driver W E)
    (cfg : Config) start_url lang (s : Analyzer W) :
  (exists new,
     events (scrape_subreddit drv cfg start_url lang s).1 = new ++ events s /\
     forall before after u,
       reverse new = before ++ EvResolve u (Some u) :: after -> after = []) /\
  (forall w w' u,
     infinite_scroll_strategy drv w = (w', inr (Some u)) \/
     load_more_strategy drv w = (w', inr (Some u)) ->
     exists w0, drv_current_url _ _ drv w0 = (w', inr u)).
Proof.
  split.
  - destruct (scrape_pages_log drv cfg (S (Z.to_nat (max_pages cfg))) lang
                start_url 1 s) as (new & Hnew & Hlog & _).
    exists new. split.
    + unfold scrape_subreddit, bind.
      destruct (scrape_pages drv cfg _ lang start_url 1 s) as [s' [e|r]];
        exact Hnew.
    + intros before after u Hrev.
      apply (f_equal reverse) in Hrev.
      rewrite reverse_involutive, reverse_app, reverse_cons, <- app_assoc in Hrev.
      apply (paging_log_self _ _ Hlog) in Hrev.
      apply (f_equal reverse) in Hrev. by rewrite reverse_involutive in Hrev.
  - intros w w' u [H|H];
      [by apply infinite_scroll_answer in H|by apply load_more_answer in H].
Qed.

(** ** The visited set *)

Global Instance keeps_preorder {S} (I : S -> Prop) : PreOrder (keeps I).
Proof.
  split; [intros s H; exact H|]. intros s1 s2 s3 H12 H23 H. apply H23, H12, H.
Qed.

Lemma added_app l1 l2 : added (l1 ++ l2) = added l1 ++ added l2.
Proof. unfold added. apply omap_app. Qed.

Lemma added_not_visit new : Forall not_visit new -> added new = [].
Proof.
  induction 1 as [|ev new Hev _ IH]; [reflexivity|].
  destruct ev; simpl in *; done.
Qed.

Lemma wf_log_not_visit new old :
  Forall not_visit new -> wf_log old -> wf_log (new ++ old).
Proof.
  induction 1 as [|ev new Hev _ IH]; intros Hold; [exact Hold|].
  destruct ev; simpl in *; auto; done.
Qed.

Lemma wf_log_suffix l1 l2 : wf_log (l1 ++ l2) -> wf_log l2.
Proof.
  induction l1 as [|ev l1 IH]; [done|]. destruct ev; simpl; try exact IH.
  - intros [_ H]. auto.
  - intros [_ H]. auto.
Qed.

Lemma wf_log_nodup l : wf_log l -> NoDup (added l).
Proof.
  induction l as [|ev l IH]; simpl; [intros _; constructor|].
  destruct ev; simpl; try exact IH.
  - intros [Hu Hl]. constructor; auto.
  - intros [_ Hl]. auto.
Qed.

Lemma added_reverse l : added (reverse l) = reverse (added l).
Proof.
  induction l as [|ev l IH]; [reflexivity|].
  rewrite reverse_cons, added_app, IH. destruct ev; simpl;
    rewrite ?app_nil_r, ?reverse_cons; reflexivity.
Qed.

Section Visited.

Context {W E : Type} (drv : Driver W E) (cfg : Config).

Global Instance calm_preorder : PreOrder (calm (W := W)).
Proof.
  split.
  - intros s. split; reflexivity.
  - intros s1 s2 s3 [V1 E1] [V2 E2]. split; [congruence|by etrans].
Qed.

Lemma calm_keeps (s s' : Analyzer W) : calm s s' -> keeps visited_inv s s'.
Proof.
  intros [Hv (new & Hnew & Fnew)] [Hwf Hin]. split.
  - rewrite Hnew. by apply wf_log_not_visit.
  - intros u. rewrite Hv, Hnew, added_app, (added_not_visit _ Fnew). apply Hin.
Qed.

Lemma calm_same (s s' : Analyzer W) : same_but_world s s' -> calm s s'.
Proof.
  intros (_ & _ & Hv & _ & He & _). split; [exact Hv|by apply emits_same_events].
Qed.

Lemma calm_log ev : not_visit ev -> rel calm (log (W := W) ev).
Proof.
  intros Hev s. split; [reflexivity|]. exists [ev]. split; [reflexivity|].
  by constructor.
Qed.

(** The state-only primitives are calm. *)
Ltac calm_prim :=
  let s := fresh "s" in
  intros s;
  unfold get_count, get_posts, append_post, incr_count, reset_posts, set_driver,
    analyze_all_results;
  repeat match goal with
         | |- context [match ?x with _ => _ end] => destruct x
         end;
  (split; [reflexivity|apply emits_same_events; reflexivity]).

Ltac calm_leaf :=
  first
    [ apply rel_lift; apply calm_same
    | apply calm_log; exact I
    | solve [calm_prim] ].

Lemma calm_save data path : rel calm (_save_to_json drv data path).
Proof. unfold _save_to_json. rel_walk calm_leaf. Qed.

Lemma rel_calm_keeps {A} (m : M (Analyzer W) A) :
  rel calm m -> rel (keeps visited_inv) m.
Proof. intros H s. apply calm_keeps, H. Qed.

Ltac keeps_leaf :=
  first
    [ apply rel_calm_keeps; first [apply calm_save | calm_leaf] ].

(** Adding a location that is not yet visited keeps the invariant and
    leaves that addition as the newest event. *)
Lemma visited_add_inv url (s : Analyzer W) :
  visited_inv s -> url ∉ visited_urls s ->
  visited_inv (visited_add url s).1 /\
  events (visited_add url s).1 = EvAdd url :: events s.
Proof.
  intros [Hwf Hin] Hnew. split; [|reflexivity]. split; simpl.
  - split; [by rewrite <- Hin|exact Hwf].
  - intros u. rewrite elem_of_union, elem_of_singleton, elem_of_cons, Hin. done.
Qed.

(** Navigating right after the addition keeps the invariant. *)
Lemma driver_get_inv url (s : Analyzer W) rest :
  visited_inv s -> events s = EvAdd url :: rest ->
  visited_inv (driver_get drv url s).1.
Proof.
  intros [Hwf Hin] Hev. unfold driver_get, bind, log, lift. simpl.
  destruct (drv_get W E drv url (world s)) as [w' r]. simpl.
  destruct r as [e|[]];
    (split; simpl; [rewrite Hev; split; [eauto|by rewrite <- Hev]|]);
    intros u; rewrite Hin, Hev; reflexivity.
Qed.

Lemma keeps_extract url lang :
  rel (keeps visited_inv) (_extract_post_content drv url lang).
Proof.
  intros s Hinv. unfold _extract_post_content.
  rewrite (bind_step (gets visited_urls) _ s s (visited_urls s) eq_refl).
  case_bool_decide as Hin; [exact Hinv|].
  destruct (visited_add_inv url s Hinv Hin) as [Hinv1 Hev1].
  rewrite (bind_step (visited_add url) _ s (visited_add url s).1 tt eq_refl).
  set (s1 := (visited_add url s).1) in *.
  assert (Hgo : rel (keeps visited_inv)
            (try_catch (post_data <- lift (extract_fields drv url lang) ;;
                        ret (Some post_data)) (fun _ => ret None))).
  { rel_walk keeps_leaf. }
  unfold try_catch. unfold bind at 1.
  pose proof (driver_get_inv url s1 _ Hinv1 Hev1) as Hget.
  destruct (driver_get drv url s1) as [s2 [e|[]]]; [exact Hget|].
  specialize (Hgo s2 Hget). unfold try_catch in Hgo.
  destruct ((post_data <- lift (extract_fields drv url lang) ;;
             ret (Some post_data)) s2) as [s3 [e|r]]; exact Hgo.
Qed.

Lemma keeps_visit_post lang url :
  rel (keeps visited_inv) (visit_post drv cfg lang url).
Proof.
  unfold visit_post.
  rel_walk ltac:(first [apply keeps_extract | keeps_leaf]).
Qed.

Lemma scrape_page_inv lang cur (s : Analyzer W) rest :
  visited_inv s -> events s = EvAdd cur :: rest ->
  visited_inv (scrape_page drv cfg lang cur s).1.
Proof.
  intros Hinv Hev. unfold scrape_page.
  apply keeps_bind_from; [by eapply driver_get_inv|]. intros _.
  rel_walk ltac:(first [apply keeps_visit_post | keeps_leaf]).
Qed.

Lemma keeps_scrape_pages fuel lang cur page_num :
  rel (keeps visited_inv) (scrape_pages drv cfg fuel lang cur page_num).
Proof.
  revert cur page_num. induction fuel as [|fuel IH]; intros cur page_num s Hinv;
    [exact Hinv|].
  cbn [scrape_pages].
  destruct (PyStr.truthy cur && bool_decide (page_num <= max_pages cfg)%Z);
    [|exact Hinv].
  unfold bind at 1, get_count.
  destruct (post_count s !! lang) as [count|]; [|exact Hinv].
  case_bool_decide; [|exact Hinv].
  assert (Hlog : visited_inv (log (EvIter page_num cur) s).1).
  { by apply (rel_calm_keeps _ (calm_log (EvIter page_num cur) I)). }
  rewrite (bind_step (log (EvIter page_num cur)) _ s
             (log (EvIter page_num cur) s).1 tt eq_refl).
  set (s0 := (log (EvIter page_num cur) s).1) in *.
  rewrite (bind_step (gets visited_urls) _ s0 s0 (visited_urls s0) eq_refl).
  case_bool_decide as Hin; [exact Hlog|].
  destruct (visited_add_inv cur s0 Hlog Hin) as [Hinv1 Hev1].
  rewrite (bind_step (visited_add cur) _ s0 (visited_add cur s0).1 tt eq_refl).
  set (s1 := (visited_add cur s0).1) in *.
  pose proof (scrape_page_inv lang cur s1 _ Hinv1 Hev1) as Hpage.
  unfold bind, try_catch.
  destruct (scrape_page drv cfg lang cur s1) as [s2 [e|[u|]]]; simpl in *;
    [exact Hpage|by apply IH|exact Hpage].
Qed.

Lemma keeps_start_analysis :
  rel (keeps visited_inv) (start_analysis drv cfg).
Proof.
  unfold start_analysis, start_analysis_try, emergency_save, close_driver,
    setup_driver, scrape_language, scrape_subreddit.
  rel_walk ltac:(first [apply keeps_scrape_pages | keeps_leaf]).
Qed.

End Visited.

(** C4: in a whole run every location is added to [visited_urls] at most
    once, the set holds exactly the added locations, and every navigation
    ([driver.get], for a listing page or for a post) comes right after the
    addition of its location, which had not been added before. *)
Theorem visited_once_and_before_navigation {W E} (drv : Driver W E)
    (cfg : Config) (w : W) :
  let s' := (start_analysis drv cfg (init cfg w)).1 in
  NoDup (added (trace s')) /\
  (forall u, u ∈ visited_urls s' <-> u ∈ added (trace s')) /\
  (forall before after u,
     trace s' = before ++ EvGet u :: after ->
     exists earlier, before = earlier ++ [EvAdd u] /\ u ∉ added earlier).
Proof.
  intros s'.
  assert (Hinv : visited_inv s').
  { apply keeps_start_analysis. split; [exact I|]. intros u. simpl.
    rewrite elem_of_empty, elem_of_nil. done. }
  destruct Hinv as [Hwf Hin]. unfold trace. repeat split.
  - rewrite added_reverse, reverse_Permutation. by apply wf_log_nodup.
  - rewrite added_reverse, elem_of_reverse. apply Hin.
  - rewrite added_reverse, elem_of_reverse. apply Hin.
  - intros before after u Htr. apply (f_equal reverse) in Htr.
    rewrite reverse_involutive, reverse_app, reverse_cons, <- app_assoc in Htr.
    rewrite Htr in Hwf. apply wf_log_suffix in Hwf.
    destruct Hwf as [[rest' Hrest] Hwf]. rewrite Hrest in Hwf.
    destruct Hwf as [Hnew _]. exists (reverse rest'). split.
    + simpl in Hrest. apply (f_equal reverse) in Hrest.
      by rewrite reverse_involutive, reverse_cons in Hrest.
    + by rewrite added_reverse, elem_of_reverse.
Qed.

(** ** Counters and sequences *)



Section Counts.

Context {W E : Type} (drv : Driver W E) (cfg : Config).

Global Instance steady_preorder : PreOrder (steady (W := W)).
Proof.
  split.
  - intros s. repeat split. exists [], []. repeat split; constructor.
  - intros s1 s2 s3 (C1 & P1 & e1 & o1 & He1 & Ho1 & Fe1 & Fo1)
      (C2 & P2 & e2 & o2 & He2 & Ho2 & Fe2 & Fo2).
    split; [congruence|]. split; [congruence|].
    exists (e2 ++ e1), (o2 ++ o1). rewrite He2, He1, Ho2, Ho1, !app_assoc.
    repeat split; apply Forall_app; split; auto.
    rewrite C1, P1 in Fo2. exact Fo2.
Qed.





Lemma steady_same (s s' : Analyzer W) : same_but_world s s' -> steady s s'.
Proof.
  intros (_ & P & _ & C & He & Ho). split; [exact C|]. split; [exact P|].
  exists [], []. repeat split; auto; constructor.
Qed.

Lemma steady_log ev : is_append ev = false -> rel steady (log (W := W) ev).
Proof.
  intros Hev s. repeat split.
  exists [ev], [(post_count s, all_posts s)]. repeat split; by repeat constructor.
Qed.

Lemma steady_visited_add url : rel steady (visited_add (W := W) url).
Proof.
  intros s. repeat split.
  exists [EvAdd url], [(post_count s, all_posts s)].
  repeat split; by repeat constructor.
Qed.

(** The read-only and driver-flag primitives are steady. *)
Ltac steady_prim :=
  let s := fresh "s" in
  intros s;
  unfold get_count, get_posts, set_driver, analyze_all_results;
  repeat match goal with
         | |- context [match ?x with _ => _ end] => destruct x
         end;
  (repeat split; exists [], []; repeat split; constructor).

Ltac steady_leaf :=
  first
    [ apply rel_lift; apply steady_same
    | apply steady_log; reflexivity
    | apply steady_visited_add
    | solve [steady_prim] ].


Lemma steady_extract url lang : rel steady (_extract_post_content drv url lang).
Proof. unfold _extract_post_content, driver_get. rel_walk steady_leaf. Qed.















End Counts.


(** ** Releasing the session *)

Section Session.

Context {W E : Type} (drv : Driver W E) (cfg : Config).

Global Instance session_quiet_preorder : PreOrder (session_quiet (W := W)).
Proof.
  split.
  - intros s. split; reflexivity.
  - intros s1 s2 s3 [D1 E1] [D2 E2]. split; [congruence|by etrans].
Qed.


Lemma session_quiet_same (s s' : Analyzer W) :
  same_but_world s s' -> session_quiet s s'.
Proof.
  intros (Hd & _ & _ & _ & He & _). split; [exact Hd|by apply emits_same_events].
Qed.

Lemma session_quiet_log ev :
  ev <> EvSessionStart -> rel session_quiet (log (W := W) ev).
Proof.
  intros Hev s. split; [reflexivity|]. exists [ev]. split; [reflexivity|].
  by constructor.
Qed.

Lemma session_quiet_visited_add url : rel session_quiet (visited_add (W := W) url).
Proof.
  intros s. split; [reflexivity|]. exists [EvAdd url]. split; [reflexivity|].
  by repeat constructor.
Qed.

Ltac session_prim :=
  let s := fresh "s" in
  intros s;
  unfold get_count, get_posts, append_post, incr_count, reset_posts,
    analyze_all_results;
  repeat match goal with
         | |- context [match ?x with _ => _ end] => destruct x
         end;
  (split; [reflexivity|apply emits_same_events; reflexivity]).

Ltac session_leaf :=
  first
    [ apply rel_lift; apply session_quiet_same
    | apply session_quiet_log; discriminate
    | apply session_quiet_visited_add
    | solve [session_prim] ].

Lemma session_quiet_scrape_pages fuel lang cur page_num :
  rel session_quiet (scrape_pages drv cfg fuel lang cur page_num).
Proof.
  revert cur page_num. induction fuel as [|fuel IH]; intros cur page_num.
  - simpl. rel_walk session_leaf.
  - cbn [scrape_pages].
    unfold scrape_page, visit_post, _extract_post_content, _save_to_json,
      driver_get.
    rel_walk ltac:(first [apply IH | session_leaf]).
Qed.




(** After the [finally] clause a held session has just been quit. *)
Lemma close_driver_quits (s : Analyzer W) :
  driver (close_driver drv s).1 = driver s /\
  events (close_driver drv s).1
    = (if driver s then [EvQuit] else []) ++ events s /\
  all_posts (close_driver drv s).1 = all_posts s.
Proof.
  unfold close_driver, bind, gets, log, lift. destruct (driver s) eqn:Hd; simpl.
  - destruct (drv_quit W E drv (world s)) as [w' [e|[]]]; simpl; auto.
  - auto.
Qed.








End Session.


(** ** Concrete runs *)

(** Item bound one, two links on the listing: one post is stored, the
    second link is never visited, and the session is quit at the end. The
    resolver runs on the page the browser is on, the post just visited. *)
Example one_post_run_trace :
  trace one_post_run =
    [ EvSessionStart;
      EvIter 1 "https://www.reddit.com/r/rust/hot/";
      EvAdd "https://www.reddit.com/r/rust/hot/";
      EvGet "https://www.reddit.com/r/rust/hot/";
      EvAdd first_post_url;
      EvGet first_post_url;
      EvAppend "rust" (default ∅ (head (default [] (all_posts one_post_run !! "rust"))));
      EvResolve "https://www.reddit.com/r/rust/hot/"
        (Some (first_post_url +:+ "?page=2"));
      EvSave (PathJoin "output" "rust_posts.json")
        (SavePosts (default [] (all_posts one_post_run !! "rust")));
      EvQuit ]
  /\ length (default [] (all_posts one_post_run !! "rust")) = 1
  /\ post_count one_post_run !! "rust" = Some 1%Z
  /\ second_post_url ∉ visited_urls one_post_run.
Proof.
  repeat split; try (vm_compute; reflexivity).
  apply (bool_decide_eq_false_1 (second_post_url ∈ visited_urls one_post_run)).
  vm_compute. reflexivity.
Qed.

(** With a resolver that answers with a new location every time, the loop
    runs exactly [max_pages] times. *)
Example three_pages_run_counts :
  count_events is_iter (events three_pages_run) = 3 /\
  count_events is_resolve (events three_pages_run) = 3 /\
  post_count three_pages_run !! "rust" = Some 2%Z.
Proof. repeat split; vm_compute; reflexivity. Qed.

(** A failure while configuring the new session: the emergency file is
    requested with the (empty) sequences and the session is quit. *)
Example broken_run_trace :
  trace broken_run =
    [ EvSessionStart;
      EvSave (PathJoin "output" "emergency-save.json") (SaveAll ∅);
      EvQuit ].
Proof. vm_compute. reflexivity. Qed.

(** The same failure on an analyzer that already holds posts: the snapshot
    carries them. *)
Example broken_rerun_snapshot :
  trace (start_analysis (Static.driver broken_site) Static.config four_posts).1 =
    [ EvSessionStart;
      EvSave (PathJoin "output" "emergency-save.json")
        (SaveAll {[ "rust" := replicate 4
                      (<["post_url" := VStr "https://example.org/"]> ∅) ]});
      EvQuit ].
Proof. vm_compute. reflexivity. Qed.

(** ** The string helpers on samples *)

Example strip_sample : PyStr.strip "  hello world
" = "hello world".
Proof. reflexivity. Qed.

Example split_sample :
  PyStr.split "/comments/" "https://www.reddit.com/r/rust/comments/abc/my_post/"
  = ["https://www.reddit.com/r/rust"; "abc/my_post/"].
Proof. reflexivity. Qed.

Example split_slash_sample : PyStr.split "/" "a//b/" = ["a"; ""; "b"; ""].
Proof. reflexivity. Qed.

Example title_sample : PyStr.title "my first-post 2x" = "My First-Post 2X".
Proof. reflexivity. Qed.

Example str_sample : PyStr.str_of_N 104 = "104" /\ PyStr.int_of_digits "007" = 7%N.
Proof. split; reflexivity. Qed.

Example dedup_sample : PyStr.dedup ["a"; "b"; "a"; "c"; "b"] = ["a"; "b"; "c"].
Proof. vm_compute. reflexivity. Qed.

Example search_page_sample :
  PyStr.search_page "https://www.reddit.com/r/rust/hot/?page=3" = Some "3"
  /\ PyStr.sub_page "page=4" "https://www.reddit.com/r/rust/hot/?page=3&x=1"
     = "https://www.reddit.com/r/rust/hot/?page=4&x=1"
  /\ PyStr.search_subreddit "https://www.reddit.com/r/rust/comments/a/b/" = Some "rust".
Proof. repeat split; reflexivity. Qed.

(** * Further properties *)

(** ** Strings *)

Lemma append_nil_r s : s +:+ "" = s.
Proof. induction s as [|c s IH]; [reflexivity|]. by rewrite append_cons, IH. Qed.

Lemma append_assoc_str a b c : (a +:+ b) +:+ c = a +:+ b +:+ c.
Proof. induction a as [|x a IH]; [reflexivity|]. by rewrite !append_cons, IH. Qed.

Lemma rev_onto_twice s a b :
  PyStr.rev_onto (PyStr.rev_onto s a) b = PyStr.rev_onto a (s +:+ b).
Proof.
  revert a b. induction s as [|c s IH]; intros a b; [reflexivity|].
  cbn [PyStr.rev_onto]. rewrite IH. reflexivity.
Qed.

Lemma rev_involutive s : PyStr.rev (PyStr.rev s) = s.
Proof. unfold PyStr.rev. rewrite rev_onto_twice. apply append_nil_r. Qed.

Lemma rev_onto_app s acc : PyStr.rev_onto s acc = PyStr.rev s +:+ acc.
Proof.
  unfold PyStr.rev. revert acc. induction s as [|c s IH]; intros acc; [reflexivity|].
  cbn [PyStr.rev_onto]. rewrite IH, (IH (String c "")), append_assoc_str.
  reflexivity.
Qed.

Lemma contains_char_cons c a s :
  PyStr.contains (String c "") (String a s)
  = Ascii.eqb c a || PyStr.contains (String c "") s.
Proof.
  cbn [PyStr.contains PyStr.starts_with].
  destruct s; by rewrite andb_true_r.
Qed.

Lemma contains_char_app c s t :
  PyStr.contains (String c "") (s +:+ t)
  = PyStr.contains (String c "") s || PyStr.contains (String c "") t.
Proof.
  induction s as [|a s IH]; [reflexivity|].
  rewrite append_cons, !contains_char_cons, IH. by rewrite orb_assoc.
Qed.

Lemma contains_char_rev c s :
  PyStr.contains (String c "") (PyStr.rev s) = PyStr.contains (String c "") s.
Proof.
  induction s as [|a s IH]; [reflexivity|].
  unfold PyStr.rev. cbn [PyStr.rev_onto]. rewrite rev_onto_app, contains_char_app, IH.
  rewrite !contains_char_cons. cbn. by rewrite orb_false_r, orb_comm.
Qed.

Lemma contains_char_lstrip c s :
  PyStr.contains (String c "") (PyStr.lstrip s) = true ->
  PyStr.contains (String c "") s = true.
Proof.
  induction s as [|a s IH]; [done|]. cbn [PyStr.lstrip].
  destruct (PyStr.is_space a); [|done].
  intros H. rewrite contains_char_cons, (IH H). apply orb_true_r.
Qed.

(** [strip] only removes characters. *)
Lemma contains_char_strip c s :
  PyStr.contains (String c "") (PyStr.strip s) = true ->
  PyStr.contains (String c "") s = true.
Proof.
  unfold PyStr.strip. rewrite contains_char_rev. intros H.
  apply contains_char_lstrip in H. rewrite contains_char_rev in H.
  by apply contains_char_lstrip.
Qed.

(** The pieces of a split at a single character do not hold it. *)
Lemma split_go_char c cur s :
  PyStr.contains (String c "") cur = false ->
  Forall (fun piece => PyStr.contains (String c "") piece = false)
    (PyStr.split_go (String c "") 0 cur s).
Proof.
  revert cur. induction s as [|a s IH]; intros cur Hcur.
  - cbn. constructor; [by rewrite contains_char_rev|constructor].
  - cbn [PyStr.split_go PyStr.starts_with String.length].
    destruct (Ascii.eqb c a) eqn:Hca.
    + replace (true && PyStr.starts_with "" s) with true by (by destruct s).
      constructor; [by rewrite contains_char_rev|]. by apply IH.
    + cbn. apply IH. by rewrite contains_char_cons, Hca, Hcur.
Qed.

Lemma split_char c s :
  Forall (fun piece => PyStr.contains (String c "") piece = false)
    (PyStr.split (String c "") s).
Proof. by apply split_go_char. Qed.

(** ** [lstrip], [strip] *)

Lemma lstrip_idem s : PyStr.lstrip (PyStr.lstrip s) = PyStr.lstrip s.
Proof.
  induction s as [|a s IH]; [reflexivity|]. cbn [PyStr.lstrip].
  destruct (PyStr.is_space a) eqn:Ha; [exact IH|]. cbn [PyStr.lstrip]. by rewrite Ha.
Qed.

Lemma lstrip_length s : String.length (PyStr.lstrip s) <= String.length s.
Proof.
  induction s as [|a s IH]; [done|]. cbn [PyStr.lstrip].
  destruct (PyStr.is_space a); simpl; lia.
Qed.

(** What [lstrip] leaves is the string without a run of spaces in front. *)
Lemma lstrip_split s :
  exists ws, s = ws +:+ PyStr.lstrip s.
Proof.
  induction s as [|a s [ws IH]]; [by exists ""|]. cbn [PyStr.lstrip].
  destruct (PyStr.is_space a); [|by exists ""].
  exists (String a ws). by rewrite append_cons, <- IH.
Qed.

Lemma rev_app s t : PyStr.rev (s +:+ t) = PyStr.rev t +:+ PyStr.rev s.
Proof.
  induction s as [|a s IH]; [by rewrite append_nil_r|].
  rewrite append_cons. unfold PyStr.rev at 1 3. cbn [PyStr.rev_onto].
  rewrite !rev_onto_app, IH, append_assoc_str. reflexivity.
Qed.

(** A string without leading space keeps none when spaces are cut at its end. *)
Lemma lstrip_fixed_prefix t w :
  PyStr.lstrip (t +:+ w) = t +:+ w -> PyStr.lstrip t = t.
Proof.
  destruct t as [|a t]; [done|]. rewrite append_cons. cbn [PyStr.lstrip].
  destruct (PyStr.is_space a); [|done].
  intros H. pose proof (lstrip_length (t +:+ w)) as Hl. rewrite H in Hl.
  simpl in Hl. lia.
Qed.

Lemma strip_no_leading s : PyStr.lstrip (PyStr.strip s) = PyStr.strip s.
Proof.
  unfold PyStr.strip.
  destruct (lstrip_split (PyStr.rev (PyStr.lstrip s))) as [ws Hws].
  apply (f_equal PyStr.rev) in Hws. rewrite rev_involutive, rev_app in Hws.
  apply (lstrip_fixed_prefix _ (PyStr.rev ws)). rewrite <- Hws. apply lstrip_idem.
Qed.

Lemma strip_idem s : PyStr.strip (PyStr.strip s) = PyStr.strip s.
Proof.
  unfold PyStr.strip at 1. rewrite strip_no_leading.
  unfold PyStr.strip at 1. by rewrite rev_involutive, lstrip_idem.
Qed.

Lemma truthy_nonempty s : PyStr.truthy s = true -> s <> "".
Proof. by destruct s. Qed.

(** ** Removing duplicates *)

Lemma dedup_go_elem seen xs x :
  x ∈ PyStr.dedup_go seen xs <-> x ∈ xs /\ x ∉ seen.
Proof.
  revert seen. induction xs as [|y xs IH]; intros seen; simpl.
  - rewrite elem_of_nil. tauto.
  - case_bool_decide as Hy.
    + rewrite IH, elem_of_cons. split; [tauto|].
      intros [[->|Hx] Hn]; [done|tauto].
    + rewrite !elem_of_cons, IH, not_elem_of_cons. split.
      * intros [->|(Hx & Hne & Hn)]; tauto.
      * intros [[->|Hx] Hn]; [tauto|].
        destruct (decide (x = y)) as [->|Hne]; tauto.
Qed.

Lemma dedup_go_nodup seen xs : NoDup (PyStr.dedup_go seen xs).
Proof.
  revert seen. induction xs as [|y xs IH]; intros seen; simpl; [constructor|].
  case_bool_decide; [apply IH|]. constructor; [|apply IH].
  rewrite dedup_go_elem, not_elem_of_cons. tauto.
Qed.

Lemma dedup_go_sublist seen xs : sublist (PyStr.dedup_go seen xs) xs.
Proof.
  revert seen. induction xs as [|y xs IH]; intros seen; simpl; [constructor|].
  case_bool_decide; [apply sublist_cons|apply sublist_skip]; apply IH.
Qed.

(** X1: [list(dict.fromkeys(xs))], the last step of [_extract_post_links],
    has no duplicates, has exactly the elements of [xs], keeps them in the
    order of [xs] and starts with the first element of [xs]. *)
Theorem dedup_keeps_first_occurrences (xs : list string) :
  NoDup (PyStr.dedup xs) /\
  (forall x, x ∈ PyStr.dedup xs <-> x ∈ xs) /\
  sublist (PyStr.dedup xs) xs /\
  hd_error (PyStr.dedup xs) = hd_error xs.
Proof.
  unfold PyStr.dedup. split; [apply dedup_go_nodup|].
  split; [|split].
  - intros x. rewrite dedup_go_elem. split; [by intros [? _]|].
    intros Hx. split; [exact Hx|apply not_elem_of_nil].
  - apply dedup_go_sublist.
  - destruct xs as [|x xs]; reflexivity.
Qed.

(** ** Post links *)

Section LinkFacts.

Context {W E : Type} (drv : Driver W E).

Lemma valid_links_valid fl :
  Forall (fun u => _is_valid_post_link (Some u) = true) (valid_links fl).
Proof.
  unfold valid_links. induction fl as [|[u|] fl IH]; simpl; [constructor| |exact IH].
  destruct (PyStr.truthy u && PyStr.contains "/comments/" u
            && PyStr.contains "reddit.com/r/" u) eqn:Hv; [|exact IH].
  constructor; [exact Hv|exact IH].
Qed.

Lemma links_by_selectors_spec sels acc w :
  Forall (fun u => _is_valid_post_link (Some u) = true) acc ->
  exists w' links, links_by_selectors drv sels acc w = (w', inr links) /\
    Forall (fun u => _is_valid_post_link (Some u) = true) links.
Proof.
  revert acc w. induction sels as [|sel sels IH]; intros acc w Hacc; simpl.
  - eexists _, _. split; [reflexivity|exact Hacc].
  - unfold bind at 1, try_catch.
    destruct ((links <- find_elements W E drv sel ;;
               fl <- found_links drv links ;; ret (valid_links fl)) w)
      as [w1 [e|found]] eqn:Hf.
    + apply IH. by rewrite app_nil_r.
    + apply IH. apply Forall_app. split; [exact Hacc|].
      apply bind_inr in Hf as (w2 & ls & _ & Hf).
      apply bind_inr in Hf as (w3 & fl & _ & Hf).
      injection Hf as _ <-. apply valid_links_valid.
Qed.

Lemma extract_post_links_spec w :
  exists w' links, _extract_post_links drv w = (w', inr links) /\
    NoDup links /\ Forall (fun u => _is_valid_post_link (Some u) = true) links.
Proof.
  unfold _extract_post_links.
  destruct (links_by_selectors_spec link_selectors [] w) as (w1 & l1 & H1 & V1);
    [constructor|].
  rewrite (bind_step _ _ _ _ _ H1).
  assert (Hsub : forall l, Forall (fun u => _is_valid_post_link (Some u) = true) l ->
            Forall (fun u => _is_valid_post_link (Some u) = true) (PyStr.dedup l)).
  { intros l Hl. rewrite Forall_forall in Hl |- *. intros u Hu. apply Hl.
    unfold PyStr.dedup in Hu. by apply dedup_go_elem in Hu as [Hu _]. }
  destruct l1 as [|u l1].
  - unfold bind, try_catch.
    destruct (js_post_links W E drv w1) as [w2 [e|js]]; simpl.
    + eexists _, _. split; [reflexivity|]. split; [constructor|constructor].
    + eexists _, _. split; [reflexivity|].
      split; [apply dedup_go_nodup|]. apply Hsub, valid_links_valid.
  - unfold bind, ret. eexists _, _. split; [reflexivity|].
    split; [apply dedup_go_nodup|]. by apply Hsub.
Qed.

End LinkFacts.

(** X2: [_extract_post_links] never raises; the links it returns are
    pairwise distinct and each of them passes [_is_valid_post_link]: it is
    non-empty and holds [/comments/] and [reddit.com/r/]. *)
Theorem extract_post_links_distinct_valid {W E} (drv : Driver W E) (w : W) :
  exists w' links, _extract_post_links drv w = (w', inr links) /\
    NoDup links /\
    Forall (fun u => _is_valid_post_link (Some u) = true /\ u <> "" /\
                     PyStr.contains "/comments/" u = true /\
                     PyStr.contains "reddit.com/r/" u = true) links.
Proof.
  destruct (extract_post_links_spec drv w) as (w' & links & Hrun & Hnd & Hv).
  exists w', links. split; [exact Hrun|]. split; [exact Hnd|].
  eapply Forall_impl; [exact Hv|]. intros u Hu. split; [exact Hu|].
  cbn [_is_valid_post_link] in Hu.
  apply andb_prop in Hu as [Hu Hr]. apply andb_prop in Hu as [Ht Hc].
  split; [by apply truthy_nonempty|]. by split.
Qed.

(** ** Field extractors *)

Section FieldFacts.

Context {W E : Type} (drv : Driver W E).

Lemma first_text_truthy sels w w' t :
  first_text drv sels w = (w', inr (Some t)) -> PyStr.truthy t = true.
Proof.
  unfold first_text. revert w. induction sels as [|sel sels IH]; intros w; simpl.
  - discriminate.
  - unfold bind at 1. unfold except_no_such_element, try_catch at 1.
    destruct ((el <- find_element W E drv sel ;;
               t0 <- el_text W E drv el ;;
               (if PyStr.truthy (PyStr.strip t0) then ret (Return (PyStr.strip t0))
                else ret Next)) w) as [w1 [e|c]] eqn:Hb.
    + destruct e; simpl; try discriminate. apply IH.
    + apply bind_inr in Hb as (w2 & el & _ & Hb).
      apply bind_inr in Hb as (w3 & t0 & _ & Hb).
      destruct (PyStr.truthy (PyStr.strip t0)) eqn:Ht; injection Hb as <- <-.
      * intros [= <- <-]. exact Ht.
      * apply IH.
Qed.

Lemma script_text_spec script w :
  exists w' r, script_text drv script w = (w', inr r) /\
    forall t, r = Some t -> PyStr.truthy t = true.
Proof.
  unfold script_text, try_catch, bind.
  destruct (js_text W E drv script w) as [w1 [e|[t|]]]; simpl.
  - eexists _, _. split; [reflexivity|]. discriminate.
  - destruct (PyStr.truthy t) eqn:Ht; eexists _, _; (split; [reflexivity|]).
    + by intros ? [= <-].
    + discriminate.
  - eexists _, _. split; [reflexivity|]. discriminate.
Qed.

(** An extractor made of the selector loop, the script and a default *)
Lemma text_or_default sels script dflt w :
  PyStr.truthy dflt = true ->
  exists w' t,
    try_catch
      (r <- first_text drv sels ;;
       match r with
       | Some t => ret t
       | None =>
           j <- script_text drv script ;;
           match j with
           | Some t => ret t
           | None => ret dflt
           end
       end)
      (fun _ => ret dflt) w = (w', inr t) /\ PyStr.truthy t = true.
Proof.
  intros Hd. unfold try_catch, bind at 1.
  destruct (first_text drv sels w) as [w1 [e|[t|]]] eqn:Hf.
  - eexists _, _. split; [reflexivity|exact Hd].
  - eexists _, _. split; [reflexivity|]. by apply first_text_truthy in Hf.
  - unfold bind. destruct (script_text_spec script w1) as (w2 & r & -> & Hr).
    destruct r as [t|]; eexists _, _; (split; [reflexivity|]); auto.
Qed.

Lemma subreddit_from_url_truthy url :
  PyStr.truthy (subreddit_from_url url) = true.
Proof.
  unfold subreddit_from_url. destruct (PyStr.contains "/r/" url); [|reflexivity].
  destruct (PyStr.search_subreddit url); reflexivity.
Qed.

Lemma extract_post_subreddit_spec url w :
  exists w' t, _extract_post_subreddit drv url w = (w', inr t) /\
    PyStr.truthy t = true.
Proof.
  unfold _extract_post_subreddit, try_catch, bind.
  destruct (first_text drv subreddit_selectors w) as [w1 [e|[t|]]] eqn:Hf.
  - eexists _, _. split; [reflexivity|reflexivity].
  - eexists _, _. split; [reflexivity|]. by apply first_text_truthy in Hf.
  - eexists _, _. split; [reflexivity|]. apply subreddit_from_url_truthy.
Qed.

End FieldFacts.

(** X3: the author, subreddit and date extractors never raise and never
    return the empty string. *)
Theorem extracted_names_never_empty {W E} (drv : Driver W E) (url : string) (w : W) :
  (exists w' a, _extract_post_author drv w = (w', inr a) /\ a <> "") /\
  (exists w' sr, _extract_post_subreddit drv url w = (w', inr sr) /\ sr <> "") /\
  (exists w' d, _extract_post_date drv w = (w', inr d) /\ d <> "").
Proof.
  split; [|split].
  - destruct (text_or_default drv author_selectors JsAuthor "Unknown" w eq_refl)
      as (w' & t & H & Ht).
    exists w', t. split; [exact H|by apply truthy_nonempty].
  - destruct (extract_post_subreddit_spec drv url w) as (w' & t & H & Ht).
    exists w', t. split; [exact H|by apply truthy_nonempty].
  - destruct (text_or_default drv date_selectors JsDate "Unknown Date" w eq_refl)
      as (w' & t & H & Ht).
    exists w', t. split; [exact H|by apply truthy_nonempty].
Qed.

(** ** Metadata *)

Section MetadataFacts.

Context {W E : Type} (drv : Driver W E).

Lemma metadata_field_grows key sels script (pd pd' : Post) w w' :
  metadata_field drv key sels script pd w = (w', inr pd') ->
  forall k, is_Some (pd !! k) -> is_Some (pd' !! k).
Proof.
  intros H k Hk.
  destruct (metadata_field_spec drv _ _ _ _ _ _ _ H) as [->|[v ->]]; [exact Hk|].
  destruct (decide (key = k)) as [->|Hne];
    [rewrite lookup_insert_eq; eauto|by rewrite lookup_insert_ne].
Qed.

Lemma metadata_grows (pd : Post) w w' pd' :
  _extract_post_metadata drv pd w = (w', inr pd') ->
  forall k, is_Some (pd !! k) -> is_Some (pd' !! k).
Proof.
  unfold _extract_post_metadata, try_catch at 1, bind.
  destruct (metadata_field drv "votes" vote_selectors JsVotes pd w)
    as [w1 [e|pd1]] eqn:H1; [by intros [= _ <-]|].
  unfold try_catch.
  destruct (metadata_field drv "comments_count" comment_selectors JsComments pd1 w1)
    as [w2 [e|pd2]] eqn:H2; intros [= _ <-] k Hk.
  - by eapply metadata_field_grows.
  - eapply metadata_field_grows; [exact H2|]. by eapply metadata_field_grows.
Qed.

End MetadataFacts.

(** X4: [_extract_post_metadata] never raises, leaves every key other than
    [votes] and [comments_count] as it was, and removes no key. *)
Theorem extract_post_metadata_only_adds {W E} (drv : Driver W E) (pd : Post)
    (w : W) :
  exists w' pd', _extract_post_metadata drv pd w = (w', inr pd') /\
    (forall k, k <> "votes" -> k <> "comments_count" -> pd' !! k = pd !! k) /\
    (forall k, is_Some (pd !! k) -> is_Some (pd' !! k)).
Proof.
  destruct (metadata_spec drv pd w) as (w' & pd' & Hrun & Hkeep).
  exists w', pd'. split; [exact Hrun|]. split; [exact Hkeep|].
  by eapply metadata_grows.
Qed.

(** ** Decimal numerals *)

Lemma int_go_pos d acc :
  PyStr.int_go (N.pos acc) (NilEmpty.string_of_uint d)
  = N.pos (Pos.of_uint_acc d acc).
Proof.
  revert acc. induction d; intros acc;
    cbn [NilEmpty.string_of_uint PyStr.int_go Pos.of_uint_acc];
    [reflexivity|rewrite <- IHd; f_equal; unfold PyStr.digit_val; simpl; lia..].
Qed.

Lemma int_go_uint d :
  PyStr.int_go 0 (NilEmpty.string_of_uint d) = N.of_uint d.
Proof.
  unfold N.of_uint.
  induction d; cbn [NilEmpty.string_of_uint PyStr.int_go Pos.of_uint];
    [reflexivity|exact IHd|rewrite <- int_go_pos; reflexivity..].
Qed.

Lemma to_uint_nonnil n : N.to_uint n <> Decimal.Nil.
Proof. destruct n; [discriminate|apply Unsigned.to_uint_nonnil]. Qed.

Lemma str_of_N_digits n :
  PyStr.str_of_N n = NilEmpty.string_of_uint (N.to_uint n).
Proof.
  unfold PyStr.str_of_N, NilZero.string_of_uint.
  pose proof (to_uint_nonnil n). by destruct (N.to_uint n).
Qed.

(** [int(str(n)) == n] *)
Lemma int_of_str n : PyStr.int_of_digits (PyStr.str_of_N n) = n.
Proof.
  unfold PyStr.int_of_digits. rewrite str_of_N_digits, int_go_uint.
  apply DecimalN.Unsigned.of_to.
Qed.

Lemma uint_all_digits d :
  PyStr.take_while PyStr.is_digit (NilEmpty.string_of_uint d)
  = NilEmpty.string_of_uint d.
Proof.
  induction d; cbn [NilEmpty.string_of_uint PyStr.take_while];
    [reflexivity|change (PyStr.is_digit _) with true; cbv iota; by rewrite IHd..].
Qed.

Lemma str_of_N_all_digits n :
  PyStr.take_while PyStr.is_digit (PyStr.str_of_N n) = PyStr.str_of_N n.
Proof. rewrite str_of_N_digits. apply uint_all_digits. Qed.

Lemma str_of_N_nonempty n : PyStr.str_of_N n <> "".
Proof.
  rewrite str_of_N_digits. pose proof (to_uint_nonnil n).
  by destruct (N.to_uint n).
Qed.

(** A run of digits holds no other character. *)
Lemma digits_without c s :
  PyStr.is_digit c = false ->
  PyStr.take_while PyStr.is_digit s = s ->
  PyStr.contains (String c "") s = false.
Proof.
  intros Hc. induction s as [|a s IH]; [reflexivity|].
  cbn [PyStr.take_while]. destruct (PyStr.is_digit a) eqn:Ha; [|discriminate].
  intros [= Hs]. rewrite contains_char_cons, (IH Hs), orb_false_r.
  destruct (Ascii.eqb_spec c a) as [->|]; [congruence|reflexivity].
Qed.

(** ** The configured languages *)

(** X5: every name that [parse_languages] returns is non-empty, has no
    leading or trailing white space (it is its own [strip]) and holds no
    comma. *)
Theorem parse_languages_clean (text : string) :
  Forall (fun lang => lang <> "" /\ PyStr.strip lang = lang /\
                      PyStr.contains "," lang = false)
    (parse_languages text).
Proof.
  unfold parse_languages. pose proof (split_char "," text) as Hpieces.
  induction Hpieces as [|piece pieces Hp _ IH]; [constructor|].
  simpl. destruct (PyStr.truthy (PyStr.strip piece)) eqn:Ht; [|exact IH].
  constructor; [|exact IH]. split; [by apply truthy_nonempty|].
  split; [apply strip_idem|].
  destruct (PyStr.contains "," (PyStr.strip piece)) eqn:Hc; [|reflexivity].
  apply contains_char_strip in Hc. congruence.
Qed.

(** ** Post identifiers *)

Lemma split_go_skip sep p cur t :
  PyStr.split_go sep (String.length p) cur (p +:+ t) = PyStr.split_go sep 0 cur t.
Proof. induction p as [|c p IH]; [reflexivity|]. exact IH. Qed.

Lemma rev_rev_onto a cur : PyStr.rev (PyStr.rev_onto a cur) = PyStr.rev cur +:+ a.
Proof. by rewrite rev_onto_app, rev_app, rev_involutive. Qed.

(** Where no separator starts, the characters go to the current piece. *)
Lemma split_go_pass sep pre cur t :
  (forall k, k < String.length pre ->
     PyStr.starts_with sep (PyStr.drop k (pre +:+ t)) = false) ->
  PyStr.split_go sep 0 cur (pre +:+ t)
  = PyStr.split_go sep 0 (PyStr.rev_onto pre cur) t.
Proof.
  revert cur. induction pre as [|c pre IH]; intros cur Hpre; [reflexivity|].
  pose proof (Hpre 0 ltac:(simpl; lia)) as H0.
  change (PyStr.drop 0 ?x) with x in H0. rewrite (append_cons c pre) in H0 |- *.
  cbn [PyStr.split_go]. rewrite H0. cbn [PyStr.rev_onto]. apply IH.
  intros k Hk. apply (Hpre (S k)). simpl. lia.
Qed.

Lemma starts_with_app p t : PyStr.starts_with p (p +:+ t) = true.
Proof.
  induction p as [|c p IH]; [reflexivity|]. rewrite (append_cons c p).
  cbn [PyStr.starts_with]. by rewrite Ascii.eqb_refl, IH.
Qed.

Lemma split_go_match c sep cur t :
  PyStr.split_go (String c sep) 0 cur (String c sep +:+ t)
  = PyStr.rev cur :: PyStr.split_go (String c sep) 0 "" t.
Proof.
  pose proof (starts_with_app (String c sep) t) as Hs.
  rewrite (append_cons c sep) in Hs |- *. cbn [PyStr.split_go]. rewrite Hs.
  f_equal. cbn [String.length]. rewrite Nat.sub_succ, Nat.sub_0_r.
  apply split_go_skip.
Qed.

(** The first piece starts with what was collected and goes on with a
    prefix of the rest. *)
Lemma split_go_hd sep cur t :
  exists x t' rest, PyStr.split_go sep 0 cur t = (PyStr.rev cur +:+ x) :: rest /\
    t = x +:+ t'.
Proof.
  revert cur. induction t as [|c t IH]; intros cur.
  - exists "", "", []. by rewrite append_nil_r.
  - cbn [PyStr.split_go]. destruct (PyStr.starts_with sep (String c t)).
    + exists "", (String c t). eexists. by rewrite append_nil_r.
    + destruct (IH (String c cur)) as (x & t' & rest & -> & ->).
      exists (String c x), t', rest. split; [|reflexivity].
      unfold PyStr.rev at 1. cbn [PyStr.rev_onto].
      rewrite rev_onto_app, append_assoc_str. reflexivity.
Qed.

(** No separator starts at a character that is not its first one. *)
Lemma no_first_char c p a t k :
  PyStr.contains (String c "") a = false -> k < String.length a ->
  PyStr.starts_with (String c p) (PyStr.drop k (a +:+ t)) = false.
Proof.
  revert k. induction a as [|b a IH]; intros k Ha Hk; [simpl in Hk; lia|].
  rewrite contains_char_cons in Ha. apply orb_false_elim in Ha as [Hb Ha].
  rewrite (append_cons b a). destruct k as [|k].
  - cbn [PyStr.drop PyStr.starts_with]. by rewrite Hb.
  - cbn [PyStr.drop]. apply IH; [exact Ha|simpl in Hk; lia].
Qed.

Lemma contains_app_r p a t : PyStr.contains p (a +:+ p +:+ t) = true.
Proof.
  induction a as [|c a IH].
  - change ("" +:+ p +:+ t) with (p +:+ t).
    destruct (p +:+ t) eqn:Hpt; cbn [PyStr.contains];
      rewrite <- Hpt, starts_with_app; reflexivity.
  - rewrite (append_cons c a). cbn [PyStr.contains]. rewrite IH. apply orb_true_r.
Qed.

Lemma contains_tail p c s :
  PyStr.contains p (String c s) = false -> PyStr.contains p s = false.
Proof. cbn [PyStr.contains]. by intros [_ ?]%orb_false_elim. Qed.

Lemma contains_head p s : PyStr.contains p s = false -> PyStr.starts_with p s = false.
Proof. destruct s; cbn [PyStr.contains]; by intros [? _]%orb_false_elim. Qed.

(** A match of the marker that starts before the marker itself would show
    in the text before it, closed by a slash. *)
Lemma marker_not_earlier r t :
  r <> "" ->
  PyStr.starts_with "/comments/" (r +:+ "/comments/" +:+ t) = true ->
  PyStr.starts_with "/comments/" (r +:+ "/") = true.
Proof.
  intros Hr.
  do 10 (destruct r as [|? r];
         [try done; cbn; rewrite ?andb_false_r; try done; intros H; exact H|]).
  cbn. intros H. exact H.
Qed.

Lemma marker_first base t k :
  PyStr.contains "/comments/" (base +:+ "/") = false ->
  k < String.length base ->
  PyStr.starts_with "/comments/" (PyStr.drop k (base +:+ "/comments/" +:+ t)) = false.
Proof.
  revert k. induction base as [|c base IH]; intros k Hb Hk; [simpl in Hk; lia|].
  destruct k as [|k].
  - change (PyStr.drop 0 ?x) with x.
    apply contains_head in Hb.
    destruct (PyStr.starts_with "/comments/" (String c base +:+ "/comments/" +:+ t))
      eqn:Hs; [|reflexivity].
    apply marker_not_earlier in Hs; [congruence|discriminate].
  - rewrite (append_cons c base) in Hb |- *. cbn [PyStr.drop].
    apply IH; [by apply contains_tail in Hb|simpl in Hk; lia].
Qed.

Lemma split_char_hd c a cur t :
  PyStr.contains (String c "") a = false ->
  (t = "" \/ exists t', t = String c t') ->
  hd "" (PyStr.split_go (String c "") 0 cur (a +:+ t)) = PyStr.rev cur +:+ a.
Proof.
  intros Ha Ht. rewrite split_go_pass by (intros k Hk; by apply no_first_char).
  destruct Ht as [->|[t' ->]].
  - cbn [PyStr.split_go hd]. apply rev_rev_onto.
  - change (String c t') with (String c "" +:+ t'). rewrite split_go_match.
    cbn [hd]. apply rev_rev_onto.
Qed.

(** X6: for a location [base/comments/id/rest] in which the marker
    [/comments/] does not occur earlier and [id] holds no slash,
    [_extract_post_id] returns [id]. *)
Theorem extract_post_id_is_comments_segment {W E} (drv : Driver W E)
    (base id rest : string) :
  PyStr.contains "/comments/" (base +:+ "/") = false ->
  PyStr.contains "/" id = false ->
  _extract_post_id drv (base +:+ "/comments/" +:+ id +:+ "/" +:+ rest) = id.
Proof.
  intros Hbase Hid. unfold _extract_post_id. rewrite contains_app_r.
  unfold PyStr.split.
  rewrite split_go_pass by (intros k Hk; by apply marker_first).
  rewrite split_go_match.
  rewrite split_go_pass by (intros k Hk; by apply no_first_char).
  destruct (split_go_hd "/comments/" (PyStr.rev_onto id "") ("/" +:+ rest))
    as (x & t' & more & -> & Hx).
  rewrite rev_rev_onto. change (PyStr.rev "" +:+ id) with id.
  apply (split_char_hd "/" id "" x Hid).
  destruct x as [|a x]; [by left|right]. injection Hx as -> _. eauto.
Qed.

Lemma extract_post_id_is_comments_segment_witness :
  _extract_post_id (Static.driver plain_site)
    ("https://www.reddit.com/r/rust" +:+ "/comments/" +:+ "abc123" +:+ "/"
     +:+ "hello_world/")
  = "abc123".
Proof.
  apply (extract_post_id_is_comments_segment (Static.driver plain_site)
           "https://www.reddit.com/r/rust" "abc123" "hello_world/");
    reflexivity.
Defined.

(** X7: the identifier that [_extract_post_id] returns never holds a
    slash, whether it comes from the location or from the hash. *)
Theorem extract_post_id_has_no_slash {W E} (drv : Driver W E) (url : string) :
  PyStr.contains "/" (_extract_post_id drv url) = false.
Proof.
  assert (Hhash : forall n, PyStr.contains "/" (PyStr.str_of_N n) = false).
  { intros n. apply digits_without; [reflexivity|apply str_of_N_all_digits]. }
  unfold _extract_post_id. destruct (PyStr.contains "/comments/" url); [|apply Hhash].
  destruct (PyStr.split "/comments/" url) as [|? [|part ?]]; [apply Hhash..|].
  pose proof (split_char "/" part) as Hp.
  destruct (PyStr.split "/" part); [reflexivity|]. by inversion Hp.
Qed.

(** ** The subreddit of a location *)

Lemma take_while_not_slash name t :
  PyStr.contains "/" name = false ->
  PyStr.take_while PyStr.not_slash (name +:+ String "/" t) = name.
Proof.
  induction name as [|c name IH]; [reflexivity|].
  rewrite contains_char_cons. intros [Hc Hn]%orb_false_elim.
  rewrite (append_cons c name). cbn [PyStr.take_while]. unfold PyStr.not_slash at 1.
  rewrite Ascii.eqb_sym, Hc. cbn [negb]. by rewrite IH.
Qed.

Lemma subreddit_not_earlier r t :
  r <> "" ->
  PyStr.starts_with "/r/" (r +:+ "/r/" +:+ t) = true ->
  PyStr.starts_with "/r/" (r +:+ "/") = true.
Proof.
  intros Hr.
  do 3 (destruct r as [|? r];
        [try done; cbn; rewrite ?andb_false_r; try done; intros H; exact H|]).
  cbn. intros H. exact H.
Qed.

Lemma search_subreddit_first base name rest :
  PyStr.contains "/r/" (base +:+ "/") = false ->
  name <> "" -> PyStr.contains "/" name = false ->
  PyStr.search_subreddit (base +:+ "/r/" +:+ name +:+ "/" +:+ rest) = Some name.
Proof.
  intros Hbase Hne Hname. induction base as [|c base IH].
  - change ("" +:+ "/r/" +:+ name +:+ "/" +:+ rest)
      with (String "/" (String "r" (String "/" (name +:+ String "/" rest)))).
    cbn [PyStr.search_subreddit PyStr.starts_with PyStr.drop].
    cbn [Ascii.eqb Bool.eqb andb].
    rewrite (take_while_not_slash name rest Hname). by destruct name.
  - pose proof (contains_head _ _ Hbase) as Hhead.
    rewrite (append_cons c base) in Hbase. apply contains_tail in Hbase.
    rewrite (append_cons c base). cbn [PyStr.search_subreddit].
    rewrite <- (append_cons c base).
    destruct (PyStr.starts_with "/r/"
                (String c base +:+ "/r/" +:+ name +:+ "/" +:+ rest)) eqn:Hs.
    + apply subreddit_not_earlier in Hs; [congruence|discriminate].
    + by apply IH.
Qed.

(** X8: for a location [base/r/name/rest] in which [/r/] does not occur
    earlier and the non-empty [name] holds no slash, the URL fallback of
    [_extract_post_subreddit] gives [r/name]. *)
Theorem subreddit_from_url_names_subreddit (base name rest : string) :
  PyStr.contains "/r/" (base +:+ "/") = false ->
  name <> "" -> PyStr.contains "/" name = false ->
  subreddit_from_url (base +:+ "/r/" +:+ name +:+ "/" +:+ rest) = "r/" +:+ name.
Proof.
  intros Hbase Hne Hname. unfold subreddit_from_url.
  rewrite contains_app_r. by rewrite search_subreddit_first.
Qed.

Lemma subreddit_from_url_names_subreddit_witness :
  subreddit_from_url
    ("https://www.reddit.com" +:+ "/r/" +:+ "rust" +:+ "/"
     +:+ "comments/aaa111/first_post/")
  = "r/" +:+ "rust".
Proof.
  apply (subreddit_from_url_names_subreddit "https://www.reddit.com" "rust"
           "comments/aaa111/first_post/");
    [reflexivity|discriminate|reflexivity].
Defined.

(** ** The URL strategy *)

Lemma append_inj_l a x y : a +:+ x = a +:+ y -> x = y.
Proof.
  induction a as [|c a IH]; [done|]. rewrite !(append_cons c a).
  intros [= H]. by apply IH.
Qed.

Lemma starts_with_drop p s :
  PyStr.starts_with p s = true -> s = p +:+ PyStr.drop (String.length p) s.
Proof.
  revert s. induction p as [|a p IH]; intros s; [reflexivity|].
  destruct s as [|b s]; [discriminate|]. cbn [PyStr.starts_with].
  intros [Hab Hp]%andb_prop. apply Ascii.eqb_eq in Hab as ->.
  rewrite (append_cons b p). cbn [String.length PyStr.drop]. f_equal. by apply IH.
Qed.

Lemma take_while_split f s :
  exists rest, s = PyStr.take_while f s +:+ rest /\ PyStr.take_while f rest = "".
Proof.
  induction s as [|c s (rest & Hs & Hr)]; [by exists ""|].
  cbn [PyStr.take_while]. destruct (f c) eqn:Hc.
  - exists rest. split; [|exact Hr]. rewrite append_cons. by rewrite <- Hs.
  - exists (String c s). split; [reflexivity|]. cbn [PyStr.take_while]. by rewrite Hc.
Qed.

Lemma take_while_idem f s :
  PyStr.take_while f (PyStr.take_while f s) = PyStr.take_while f s.
Proof.
  induction s as [|c s IH]; [reflexivity|]. cbn [PyStr.take_while].
  destruct (f c) eqn:Hc; [|reflexivity]. cbn [PyStr.take_while]. by rewrite Hc, IH.
Qed.

(** A match of [page=<digits>] at the head of a text, spelled out *)
Lemma match_page_shape s ds :
  PyStr.match_page s = Some ds ->
  exists post, s = "page=" +:+ ds +:+ post /\ ds <> "" /\
    PyStr.take_while PyStr.is_digit ds = ds /\
    PyStr.take_while PyStr.is_digit post = "".
Proof.
  unfold PyStr.match_page. destruct (PyStr.starts_with "page=" s) eqn:Hs; [|done].
  apply starts_with_drop in Hs. change (String.length "page=") with 5 in Hs.
  destruct (take_while_split PyStr.is_digit (PyStr.drop 5 s)) as (post & Hd & Hp).
  destruct (PyStr.take_while PyStr.is_digit (PyStr.drop 5 s)) as [|d ds'] eqn:Ht;
    [done|].
  intros [= <-]. exists post. split; [by rewrite Hs at 1; rewrite Hd at 1|].
  split; [done|]. split; [|exact Hp]. rewrite <- Ht. apply take_while_idem.
Qed.

(** What the substitution leaves after a run of digits does not start with
    a digit. *)
Lemma sub_page_no_digit_head repl post :
  PyStr.take_while PyStr.is_digit post = "" ->
  PyStr.take_while PyStr.is_digit (PyStr.sub_page_go ("page=" +:+ repl) 0 post) = "".
Proof.
  destruct post as [|c post]; [reflexivity|]. cbn [PyStr.take_while PyStr.sub_page_go].
  destruct (PyStr.is_digit c) eqn:Hc; [discriminate|]. intros _.
  destruct (PyStr.match_page (String c post)); [reflexivity|].
  cbn [PyStr.take_while]. by rewrite Hc.
Qed.

Lemma sub_page_at_match repl ds post :
  ds <> "" -> PyStr.take_while PyStr.is_digit ds = ds ->
  PyStr.take_while PyStr.is_digit post = "" ->
  PyStr.sub_page_go repl 0 ("page=" +:+ ds +:+ post)
  = repl +:+ PyStr.sub_page_go repl 0 post.
Proof.
  intros Hne Hds Hpost.
  change ("page=" +:+ ds +:+ post) with (String "p" ("age=" +:+ ds +:+ post)).
  cbn [PyStr.sub_page_go]. rewrite (match_page_here ds post Hne Hds Hpost).
  f_equal. change ("age=" +:+ ds +:+ post) with (("age=" +:+ ds) +:+ post).
  change (4 + String.length ds) with (String.length ("age=" +:+ ds)).
  apply sub_page_skip.
Qed.

Lemma sub_page_changes ds u :
  PyStr.search_page u = Some ds ->
  PyStr.sub_page_go ("page=" +:+ PyStr.str_of_N (PyStr.int_of_digits ds + 1)) 0 u
  <> u.
Proof.
  induction u as [|c u IH]; [discriminate|].
  cbn [PyStr.search_page].
  destruct (PyStr.match_page (String c u)) as [ds'|] eqn:Hm.
  - intros [= ->]. apply match_page_shape in Hm as (post & Hu & Hne & Hds & Hpost).
    rewrite Hu, (sub_page_at_match _ ds post Hne Hds Hpost), append_assoc_str.
    intros Heq%append_inj_l.
    apply (f_equal (PyStr.take_while PyStr.is_digit)) in Heq.
    rewrite (take_while_digits ds post Hds Hpost) in Heq.
    rewrite take_while_digits in Heq;
      [|apply str_of_N_all_digits|by apply sub_page_no_digit_head].
    apply (f_equal PyStr.int_of_digits) in Heq. rewrite int_of_str in Heq. lia.
  - intros Hs. cbn [PyStr.sub_page_go]. rewrite Hm. intros [= Heq].
    by apply (IH Hs).
Qed.

Lemma sub_page_truthy repl u :
  PyStr.truthy u = true ->
  PyStr.truthy (PyStr.sub_page_go ("page=" +:+ repl) 0 u) = true.
Proof.
  destruct u as [|c u]; [discriminate|]. intros _. cbn [PyStr.sub_page_go].
  destruct (PyStr.match_page (String c u)); reflexivity.
Qed.

Lemma append_length a b : String.length (a +:+ b) = String.length a + String.length b.
Proof.
  induction a as [|c a IH]; [reflexivity|]. rewrite append_cons. simpl.
  by rewrite IH.
Qed.

Lemma increment_page_moves u v :
  increment_page u = Some v -> PyStr.truthy v = true /\ v <> u.
Proof.
  unfold increment_page, PyStr.py_int, PyStr.py_str_N.
  destruct (PyStr.search_page u) as [ds|] eqn:Hs.
  - destruct (PyStr.within_limit ds); [|done]. cbv beta iota zeta.
    destruct (PyStr.within_limit (PyStr.str_of_N _)); [|done].
    intros [= <-]. split; [|by apply sub_page_changes]. apply sub_page_truthy.
    destruct u; [discriminate|reflexivity].
  - assert (Hgrow : forall suffix, suffix <> "" ->
              PyStr.truthy (u +:+ suffix) = true /\ u +:+ suffix <> u).
    { intros suffix Hne. split.
      - destruct u; [by destruct suffix|reflexivity].
      - intros Heq%(f_equal String.length). rewrite append_length in Heq.
        destruct suffix; [done|]. simpl in Heq. lia. }
    destruct (PyStr.contains "?" u); intros [= <-]; by apply Hgrow.
Qed.

(** X9: when the URL strategy of the resolver returns, it has read the
    location from the browser, and its answer is neither the empty string
    nor that location. *)
Theorem url_strategy_answer_differs {W E} (drv : Driver W E) (w w' : W)
    (v : string) :
  url_pattern_strategy drv w = (w', inr v) ->
  v <> "" /\
  exists u, drv_current_url _ _ drv w = (w', inr u) /\
    increment_page u = Some v /\ v <> u.
Proof.
  unfold url_pattern_strategy, bind.
  destruct (drv_current_url W E drv w) as [w1 [e|u]]; [discriminate|].
  destruct (increment_page u) as [v'|] eqn:Hv; [|discriminate].
  intros [= <- <-]. destruct (increment_page_moves u v' Hv) as [Ht Hne].
  split; [by apply truthy_nonempty|]. eauto.
Qed.

Lemma url_strategy_answer_differs_witness :
  "https://www.reddit.com/r/rust/hot/?page=4" <> "" /\
  exists u, drv_current_url _ _ (Static.driver plain_site) page3_url
            = (page3_url, inr u) /\
    increment_page u = Some "https://www.reddit.com/r/rust/hot/?page=4" /\
    "https://www.reddit.com/r/rust/hot/?page=4" <> u.
Proof.
  apply (url_strategy_answer_differs (Static.driver plain_site) page3_url
           page3_url "https://www.reddit.com/r/rust/hot/?page=4").
  vm_compute. reflexivity.
Defined.

(** *** Locations with one page parameter *)

Lemma match_page_extend r t :
  r <> "" -> PyStr.match_page r = None ->
  PyStr.match_page (r +:+ "page=" +:+ t) = None.
Proof.
  intros Hr. unfold PyStr.match_page.
  destruct (PyStr.starts_with "page=" r) eqn:Hs.
  - apply starts_with_drop in Hs. change (String.length "page=") with 5 in Hs.
    set (r' := PyStr.drop 5 r) in *. clearbody r'. subst r.
    change (PyStr.drop 5 ("page=" +:+ r')) with r'. intros Hnone.
    rewrite append_assoc_str.
    change (PyStr.starts_with "page=" ("page=" +:+ r' +:+ "page=" +:+ t)) with true.
    change (PyStr.drop 5 ("page=" +:+ r' +:+ "page=" +:+ t))
      with (r' +:+ "page=" +:+ t).
    destruct r' as [|c r'']; [reflexivity|].
    cbn [PyStr.take_while] in Hnone. rewrite (append_cons c r'').
    cbn [PyStr.take_while]. by destruct (PyStr.is_digit c).
  - intros _.
    assert (Hno : PyStr.starts_with "page=" (r +:+ "page=" +:+ t) = false);
      [|by rewrite Hno].
    revert Hs.
    do 5 (destruct r as [|? r];
          [try done; cbn; rewrite ?andb_false_r; done|]).
    cbn. done.
Qed.

Lemma no_match_before pre t i :
  PyStr.search_page pre = None -> i < String.length pre ->
  PyStr.match_page (PyStr.drop i (pre +:+ "page=" +:+ t)) = None.
Proof.
  revert i. induction pre as [|c pre IH]; intros i Hs Hi; [simpl in Hi; lia|].
  cbn [PyStr.search_page] in Hs.
  destruct (PyStr.match_page (String c pre)) eqn:Hm; [discriminate|].
  destruct i as [|i].
  - change (PyStr.drop 0 ?x) with x. by apply match_page_extend.
  - rewrite (append_cons c pre). cbn [PyStr.drop]. apply IH; [exact Hs|].
    simpl in Hi. lia.
Qed.

Lemma py_str_N_some n ds :
  PyStr.py_str_N n = Some ds ->
  ds = PyStr.str_of_N n /\ PyStr.within_limit (PyStr.str_of_N n) = true.
Proof.
  unfold PyStr.py_str_N. destruct (PyStr.within_limit (PyStr.str_of_N n)); [|done].
  by intros [= <-].
Qed.

(** X10: on a location whose only match of [page=<digits>] is the
    parameter [page=n], with [n] and [n + 1] of at most 4300 digits, the
    URL strategy changes exactly that number to [n + 1]. *)
Theorem increment_page_one_parameter (base : string) (n : N) (post : string)
    (ds ds' : string) :
  PyStr.search_page base = None ->
  PyStr.take_while PyStr.is_digit post = "" ->
  PyStr.search_page post = None ->
  PyStr.py_str_N n = Some ds ->
  PyStr.py_str_N (n + 1) = Some ds' ->
  increment_page (base +:+ "page=" +:+ ds +:+ post)
  = Some (base +:+ "page=" +:+ ds' +:+ post).
Proof.
  intros Hbase Hpost Hrest [-> Hn]%py_str_N_some [-> Hn']%py_str_N_some.
  rewrite (increment_page_single base (PyStr.str_of_N n) post);
    [by rewrite int_of_str| |apply str_of_N_nonempty|apply str_of_N_all_digits
    |exact Hpost|exact Hrest|exact Hn|by rewrite int_of_str].
  intros i Hi. by apply no_match_before.
Qed.

Lemma increment_page_one_parameter_witness :
  increment_page ("https://www.reddit.com/r/rust/hot/?" +:+ "page="
                  +:+ "3" +:+ "&sort=new")
  = Some ("https://www.reddit.com/r/rust/hot/?" +:+ "page=" +:+ "4"
          +:+ "&sort=new").
Proof.
  apply (increment_page_one_parameter "https://www.reddit.com/r/rust/hot/?" 3
           "&sort=new" "3" "4"); reflexivity.
Defined.

(** ** The sentiment distribution *)

Lemma one_bucket (c : Q) :
  (if Stats.Qlt_bool Stats.half c then 1 else 0)
  + (if Qle_bool c Stats.half && Stats.Qlt_bool Stats.twentieth c then 1 else 0)
  + (if Qle_bool (- Stats.twentieth) c && Qle_bool c Stats.twentieth then 1 else 0)
  + (if Qle_bool (- Stats.half) c && Stats.Qlt_bool c (- Stats.twentieth)
     then 1 else 0)
  + (if Stats.Qlt_bool c (- Stats.half) then 1 else 0) = 1.
Proof.
  destruct c as [a b].
  unfold Stats.Qlt_bool, Qle_bool, Stats.half, Stats.twentieth, Qopp.
  cbn [Qnum Qden Z.opp].
  repeat match goal with
         | |- context [Z.leb ?x ?y] => destruct (Z.leb_spec x y)
         end; cbn [negb andb]; lia.
Qed.

(** X11: the five classes of [sentiment_distribution] in
    [_create_json_outputs] partition the scores: every score falls in
    exactly one class, so the five counts add up to the number of scores. *)
Theorem sentiment_distribution_partitions (compounds : list Q) :
  let d := Stats.sentiment_distribution compounds in
  Stats.very_positive d + Stats.positive d + Stats.neutral d + Stats.negative d
  + Stats.very_negative d = length compounds.
Proof.
  cbn zeta. unfold Stats.sentiment_distribution.
  cbn [Stats.very_positive Stats.positive Stats.neutral Stats.negative
       Stats.very_negative].
  induction compounds as [|c rest IH]; [reflexivity|].
  cbn [Stats.count_where length]. pose proof (one_bucket c). lia.
Qed.

(** ** What a crawl keeps *)

Section Frame.

Context {W E : Type} (drv : Driver W E) (cfg : Config).

Global Instance unchanged_preorder {A} (f : Analyzer W -> A) :
  PreOrder (unchanged f).
Proof.
  split; [by intros s|]. intros s1 s2 s3 H1 H2. unfold unchanged in *.
  congruence.
Qed.

Global Instance extends_preorder lang : PreOrder (extends (W := W) lang).
Proof.
  split.
  - intros s. split; [reflexivity|]. split; [reflexivity|]. split; [done|]. split.
    + exists []. destruct (all_posts s !! lang); simpl; [by rewrite app_nil_r|done].
    + exists 0%Z. split; [lia|].
      destruct (post_count s !! lang); simpl; [by rewrite Z.add_0_r|done].
  - intros s1 s2 s3 (D1 & V1 & O1 & (n1 & P1) & (k1 & K1 & C1))
      (D2 & V2 & O2 & (n2 & P2) & (k2 & K2 & C2)).
    split; [congruence|]. split; [by etrans|]. split; [|split].
    + intros lang' Hne. destruct (O2 lang' Hne) as [-> ->]. by apply O1.
    + exists (n1 ++ n2). rewrite P2, P1.
      destruct (all_posts s1 !! lang); simpl; [by rewrite app_assoc|done].
    + exists (k1 + k2)%Z. split; [lia|]. rewrite C2, C1.
      destruct (post_count s1 !! lang); simpl; [f_equal; lia|done].
Qed.

(** A step that only moves [visited_urls] up *)
Lemma extends_frame lang (s s' : Analyzer W) :
  driver s' = driver s -> all_posts s' = all_posts s ->
  post_count s' = post_count s -> visited_urls s ⊆ visited_urls s' ->
  extends lang s s'.
Proof.
  intros D P C V. split; [exact D|]. split; [exact V|]. rewrite P, C.
  split; [done|]. split.
  - exists []. destruct (all_posts s !! lang); simpl; [by rewrite app_nil_r|done].
  - exists 0%Z. split; [lia|].
    destruct (post_count s !! lang); simpl; [by rewrite Z.add_0_r|done].
Qed.

Lemma extends_same lang (s s' : Analyzer W) : same_but_world s s' -> extends lang s s'.
Proof. intros (D & P & V & C & _). apply extends_frame; auto. by rewrite V. Qed.

Lemma extends_append lang pd : rel (extends lang) (append_post (W := W) lang pd).
Proof.
  intros s. unfold append_post. destruct (all_posts s !! lang) as [l|] eqn:Hl;
    [|reflexivity].
  split; [reflexivity|]. split; [reflexivity|]. cbn. split; [|split].
  - intros lang' Hne. by rewrite lookup_insert_ne.
  - exists [pd]. by rewrite lookup_insert_eq, Hl.
  - exists 0%Z. split; [lia|].
    destruct (post_count s !! lang); simpl; [by rewrite Z.add_0_r|done].
Qed.

Lemma extends_incr lang : rel (extends lang) (incr_count (W := W) lang).
Proof.
  intros s. unfold incr_count. destruct (post_count s !! lang) as [c|] eqn:Hc;
    [|reflexivity].
  split; [reflexivity|]. split; [reflexivity|]. cbn. split; [|split].
  - intros lang' Hne. by rewrite lookup_insert_ne.
  - exists []. destruct (all_posts s !! lang); simpl; [by rewrite app_nil_r|done].
  - exists 1%Z. split; [lia|]. by rewrite lookup_insert_eq, Hc.
Qed.

Lemma extends_log lang ev : rel (extends lang) (log (W := W) ev).
Proof. intros s. by apply extends_frame. Qed.

Lemma extends_visited_add lang url : rel (extends lang) (visited_add (W := W) url).
Proof. intros s. apply extends_frame; try reflexivity. cbn. set_solver. Qed.

Lemma extends_get_count lang lang' : rel (extends lang) (get_count (W := W) lang').
Proof. intros s. unfold get_count. by destruct (post_count s !! lang'). Qed.

Lemma extends_get_posts lang lang' : rel (extends lang) (get_posts (W := W) lang').
Proof. intros s. unfold get_posts. by destruct (all_posts s !! lang'). Qed.

End Frame.

Ltac extends_leaf :=
  first
    [ apply rel_lift; apply extends_same
    | apply extends_append
    | apply extends_incr
    | apply extends_log
    | apply extends_visited_add
    | apply extends_get_count
    | apply extends_get_posts ].

Section Extends.

Context {W E : Type} (drv : Driver W E) (cfg : Config).

Lemma extends_extract url lang lang' :
  rel (extends lang') (_extract_post_content drv url lang).
Proof. unfold _extract_post_content, driver_get. rel_walk extends_leaf. Qed.

Lemma extends_visit_post lang url : rel (extends lang) (visit_post drv cfg lang url).
Proof.
  unfold visit_post, _save_to_json.
  rel_walk ltac:(first [apply extends_extract | extends_leaf]).
Qed.

Lemma extends_scrape_pages fuel lang cur page_num :
  rel (extends lang) (scrape_pages drv cfg fuel lang cur page_num).
Proof.
  revert cur page_num. induction fuel as [|fuel IH]; intros cur page_num.
  - simpl. apply rel_ret, _.
  - cbn [scrape_pages]. unfold scrape_page, driver_get.
    rel_walk ltac:(first [apply IH | apply extends_visit_post | extends_leaf]).
Qed.

Lemma extends_scrape_subreddit url lang :
  rel (extends lang) (scrape_subreddit drv cfg url lang).
Proof.
  unfold scrape_subreddit.
  rel_walk ltac:(first [apply extends_scrape_pages | extends_leaf]).
Qed.

(** The loop returns whenever the language has a counter. *)
Lemma scrape_pages_returns fuel lang cur page_num (s : Analyzer W) :
  is_Some (post_count s !! lang) ->
  exists s' r, scrape_pages drv cfg fuel lang cur page_num s = (s', inr r).
Proof.
  revert cur page_num s. induction fuel as [|fuel IH]; intros cur page_num s Hc.
  - eexists _, _. reflexivity.
  - cbn [scrape_pages].
    destruct (PyStr.truthy cur && bool_decide (page_num <= max_pages cfg)%Z);
      [|eexists _, _; reflexivity].
    unfold bind at 1, get_count. destruct Hc as [c Hc]. rewrite Hc.
    case_bool_decide; [|eexists _, _; reflexivity].
    rewrite (bind_step (log (EvIter page_num cur)) _ s
               (log (EvIter page_num cur) s).1 tt eq_refl).
    set (s0 := (log (EvIter page_num cur) s).1).
    rewrite (bind_step (gets visited_urls) _ s0 s0 (visited_urls s0) eq_refl).
    case_bool_decide; [eexists _, _; reflexivity|].
    rewrite (bind_step (visited_add cur) _ s0 (visited_add cur s0).1 tt eq_refl).
    set (s1 := (visited_add cur s0).1).
    assert (Hext : rel (extends lang)
              (try_catch (scrape_page drv cfg lang cur) (fun _ => ret None))).
    { unfold scrape_page, driver_get.
      rel_walk ltac:(first [apply extends_visit_post | extends_leaf]). }
    specialize (Hext s1). unfold bind at 1.
    destruct (try_catch_total (scrape_page drv cfg lang cur) (fun _ => ret None) s1)
      as (s2 & next & Hrun); [intros e s'; eexists _, _; reflexivity|].
    rewrite Hrun in Hext |- *. cbn [fst] in Hext.
    destruct next as [next_url|]; [|eexists _, _; reflexivity].
    apply IH. destruct Hext as (_ & _ & _ & _ & k & _ & ->).
    change (post_count s1) with (post_count s). rewrite Hc. simpl. eauto.
Qed.

End Extends.

(** X12: a crawl of one subreddit forgets nothing: the session flag stays,
    [visited_urls] only grows, the sequences and counters of the other
    languages stay as they are, the sequence of its language is only
    appended to and its counter never goes down. *)
Theorem scrape_subreddit_only_extends {W E} (drv : Driver W E) (cfg : Config)
    (start_url lang : string) (s : Analyzer W) :
  let s' := (scrape_subreddit drv cfg start_url lang s).1 in
  driver s' = driver s /\
  visited_urls s ⊆ visited_urls s' /\
  (forall lang', lang' <> lang ->
     all_posts s' !! lang' = all_posts s !! lang' /\
     post_count s' !! lang' = post_count s !! lang') /\
  (exists new, all_posts s' !! lang = (fun l => l ++ new) <$> all_posts s !! lang) /\
  (exists k, (0 <= k)%Z /\
     post_count s' !! lang = (fun c => (c + k)%Z) <$> post_count s !! lang).
Proof.
  intros s'. pose proof (extends_scrape_subreddit drv cfg start_url lang s) as Hext.
  exact Hext.
Qed.

(** X13: [scrape_subreddit] returns normally whenever its language has a
    counter, and at once, touching nothing, when that counter has reached
    the item bound. Without a counter it raises [KeyError] before it
    touches anything, unless the start location is empty or the page bound
    is below one, in which case it returns at once. *)
Theorem scrape_subreddit_raises_only_without_counter {W E} (drv : Driver W E)
    (cfg : Config) (start_url lang : string) (s : Analyzer W) :
  match post_count s !! lang with
  | Some c =>
      (exists s', scrape_subreddit drv cfg start_url lang s = (s', inr tt)) /\
      ((max_posts cfg <= c)%Z ->
       scrape_subreddit drv cfg start_url lang s = (s, inr tt))
  | None =>
      scrape_subreddit drv cfg start_url lang s
      = (s, if PyStr.truthy start_url && bool_decide (1 <= max_pages cfg)%Z
            then inl KeyError else inr tt)
  end.
Proof.
  destruct (post_count s !! lang) as [c|] eqn:Hc.
  - split.
    + unfold scrape_subreddit.
      destruct (scrape_pages_returns drv cfg (S (Z.to_nat (max_pages cfg))) lang
                  start_url 1 s) as (s' & r & Hrun); [by rewrite Hc|].
      exists s'. unfold bind. by rewrite Hrun.
    + intros Hmax. unfold scrape_subreddit. cbn [scrape_pages].
      destruct (PyStr.truthy start_url && bool_decide (1 <= max_pages cfg)%Z);
        [|reflexivity].
      unfold bind, get_count. rewrite Hc.
      rewrite bool_decide_eq_false_2 by lia. reflexivity.
  - unfold scrape_subreddit. cbn [scrape_pages].
    destruct (PyStr.truthy start_url && bool_decide (1 <= max_pages cfg)%Z);
      [|reflexivity].
    unfold bind, get_count. by rewrite Hc.
Qed.

(** ** The stored posts *)

Section Settled.

Context {W E : Type} (drv : Driver W E) (cfg : Config).

(** After [driver.get] the extraction leaves [visited_urls] alone. *)
Lemma extract_body_visited url lang :
  rel (unchanged visited_urls)
    (try_catch
       (driver_get drv url ;;
        post_data <- lift (extract_fields drv url lang) ;;
        ret (Some post_data))
       (fun _ => ret None)).
Proof.
  unfold driver_get.
  rel_walk ltac:(first
    [ apply rel_lift; intros ? ? (_ & _ & ? & _); assumption
    | intros ?; reflexivity ]).
Qed.

Lemma extract_post_content_visited url lang (s : Analyzer W) :
  visited_urls (_extract_post_content drv url lang s).1 = {[url]} ∪ visited_urls s.
Proof.
  unfold _extract_post_content.
  rewrite (bind_step (gets visited_urls) _ s s (visited_urls s) eq_refl).
  case_bool_decide as Hin.
  { simpl. apply set_eq. intros x. rewrite elem_of_union, elem_of_singleton.
    split; [tauto|]. by intros [->|?]. }
  rewrite (bind_step (visited_add url) _ s (visited_add url s).1 tt eq_refl).
  rewrite (extract_body_visited url lang (visited_add url s).1). reflexivity.
Qed.

Lemma extract_post_content_again url lang lang' (s : Analyzer W) :
  let s1 := (_extract_post_content drv url lang s).1 in
  _extract_post_content drv url lang' s1 = (s1, inr None).
Proof.
  intros s1. pose proof (extract_post_content_visited url lang s) as Hv.
  fold s1 in Hv. unfold _extract_post_content at 1.
  rewrite (bind_step (gets visited_urls) _ s1 s1 (visited_urls s1) eq_refl).
  rewrite bool_decide_eq_true_2; [reflexivity|]. rewrite Hv.
  by apply elem_of_union_l, elem_of_singleton.
Qed.


Global Instance settled_preorder : PreOrder (settled (W := W)).
Proof.
  split; [by intros s|]. intros s1 s2 s3 [P1 V1] [P2 V2].
  split; [congruence|by etrans].
Qed.

Lemma settled_keeps (s s' : Analyzer W) :
  settled s s' -> keeps (stored_inv drv) s s'.
Proof.
  intros [P V] [Hposts Huniq]. split.
  - intros lang posts pd Hl Hpd. rewrite P in Hl.
    destruct (Hposts lang posts pd Hl Hpd)
      as (Hlang & Hkeys & u & Hu & Hid & Hok & Hin).
    split; [exact Hlang|]. split; [exact Hkeys|]. exists u. auto.
  - rewrite P. exact Huniq.
Qed.

Lemma settled_same (s s' : Analyzer W) : same_but_world s s' -> settled s s'.
Proof. intros (_ & P & V & _). split; [exact P|by rewrite V]. Qed.

Lemma settled_log ev : rel settled (log (W := W) ev).
Proof. by intros s. Qed.

Lemma settled_visited_add url : rel settled (visited_add (W := W) url).
Proof. intros s. split; [reflexivity|]. cbn. apply union_subseteq_r. Qed.

Lemma settled_get_count lang : rel settled (get_count (W := W) lang).
Proof. intros s. unfold get_count. by destruct (post_count s !! lang). Qed.

Lemma settled_get_posts lang : rel settled (get_posts (W := W) lang).
Proof. intros s. unfold get_posts. by destruct (all_posts s !! lang). Qed.

Lemma settled_incr lang : rel settled (incr_count (W := W) lang).
Proof. intros s. unfold incr_count. by destruct (post_count s !! lang). Qed.

Lemma settled_set_driver d : rel settled (set_driver (W := W) d).
Proof. by intros s. Qed.

Lemma settled_analyze : rel settled (analyze_all_results drv cfg).
Proof. by intros s. Qed.

End Settled.

Ltac settled_leaf :=
  first
    [ apply rel_lift; apply settled_same
    | apply settled_log
    | apply settled_visited_add
    | apply settled_get_count
    | apply settled_get_posts
    | apply settled_incr
    | apply settled_set_driver
    | apply settled_analyze ].

Section StoredPosts.

Context {W E : Type} (drv : Driver W E) (cfg : Config).

Lemma settled_save data path : rel settled (_save_to_json drv data path).
Proof. unfold _save_to_json. rel_walk settled_leaf. Qed.

Lemma settled_extract url lang : rel settled (_extract_post_content drv url lang).
Proof. unfold _extract_post_content, driver_get. rel_walk settled_leaf. Qed.

Lemma rel_settled_keeps {A} (m : M (Analyzer W) A) :
  rel settled m -> rel (keeps (stored_inv drv)) m.
Proof. intros H s. apply settled_keeps, H. Qed.

Ltac stored_leaf :=
  apply rel_settled_keeps;
  first [apply settled_save | apply settled_extract | settled_leaf].

Lemma keeps_reset_stored lang :
  rel (keeps (stored_inv drv)) (reset_posts (W := W) lang).
Proof.
  intros s [Hposts Huniq]. split; cbn.
  - intros lang' posts pd. destruct (decide (lang = lang')) as [<-|Hne].
    + rewrite lookup_insert_eq. intros [= <-] Hpd. by apply elem_of_nil in Hpd.
    + rewrite lookup_insert_ne by done. apply Hposts.
  - intros lang1 lang2 posts1 posts2 i j pd1 pd2.
    destruct (decide (lang = lang1)) as [<-|Hne1];
      [rewrite lookup_insert_eq; by intros [= <-] _ ?|].
    destruct (decide (lang = lang2)) as [<-|Hne2];
      [rewrite (lookup_insert_eq _ lang); by intros _ [= <-] _ ?|].
    rewrite !lookup_insert_ne by done. apply Huniq.
Qed.

(** Appending a post with a location no stored post has *)
Lemma stored_append lang pd l url (s : Analyzer W) :
  stored_inv drv s -> all_posts s !! lang = Some l ->
  pd !! "language" = Some (VStr lang) ->
  Forall (fun k => is_Some (pd !! k)) core_keys ->
  pd !! "post_url" = Some (VStr url) ->
  pd !! "post_id" = Some (VStr (_extract_post_id drv url)) ->
  _is_valid_post_link (Some url) = true ->
  url ∈ visited_urls s ->
  (forall lang' posts pd', all_posts s !! lang' = Some posts -> pd' ∈ posts ->
     pd' !! "post_url" <> Some (VStr url)) ->
  stored_inv drv
    (mkAnalyzer (world s) (driver s) (<[lang := l ++ [pd]]> (all_posts s))
       (visited_urls s) (post_count s) (events s) (observed s)).
Proof.
  intros [Hposts Huniq] Hl Hlang Hkeys Hurl Hid Hok Hin Hfresh.
  assert (Hlook : forall lang' posts i pd',
            <[lang := l ++ [pd]]> (all_posts s) !! lang' = Some posts ->
            posts !! i = Some pd' ->
            (exists old, all_posts s !! lang' = Some old /\ old !! i = Some pd') \/
            (lang' = lang /\ i = length l /\ pd' = pd)).
  { intros lang' posts i pd'. destruct (decide (lang = lang')) as [<-|Hne].
    - rewrite lookup_insert_eq. intros [= <-] Hi.
      apply lookup_app_Some in Hi as [Hi|[Hlen Hi]]; [left; eauto|right].
      apply list_lookup_singleton_Some in Hi as [Hi ->].
      split; [done|]. split; [lia|done].
    - rewrite lookup_insert_ne by done. intros Hl' Hi. left. eauto. }
  split; cbn.
  - intros lang' posts pd' Hl' Hpd'.
    apply list_elem_of_lookup in Hpd' as [i Hi].
    destruct (Hlook lang' posts i pd' Hl' Hi) as [(old & Hold & Hi')|(-> & _ & ->)].
    + apply (Hposts lang' old pd' Hold). by eapply list_elem_of_lookup_2.
    + split; [exact Hlang|]. split; [exact Hkeys|]. exists url. auto.
  - intros lang1 lang2 posts1 posts2 i j pd1 pd2 H1 H2 Hi Hj Heq.
    destruct (Hlook lang1 posts1 i pd1 H1 Hi) as [(old1 & Ho1 & Hi1)|(-> & -> & ->)];
      destruct (Hlook lang2 posts2 j pd2 H2 Hj) as [(old2 & Ho2 & Hj2)|(-> & -> & ->)].
    + by apply (Huniq lang1 lang2 old1 old2 i j pd1 pd2).
    + exfalso. apply (Hfresh lang1 old1 pd1 Ho1); [by eapply list_elem_of_lookup_2|].
      by rewrite Heq.
    + exfalso. apply (Hfresh lang2 old2 pd2 Ho2); [by eapply list_elem_of_lookup_2|].
      by rewrite <- Heq.
    + done.
Qed.

Lemma keeps_visit_post_stored lang url :
  _is_valid_post_link (Some url) = true ->
  rel (keeps (stored_inv drv)) (visit_post drv cfg lang url).
Proof.
  intros Hok s Hinv. unfold visit_post.
  unfold bind at 1, get_count.
  destruct (post_count s !! lang) as [c|] eqn:Hc; [|exact Hinv].
  case_bool_decide as Hmax; [exact Hinv|].
  rewrite (bind_step (gets visited_urls) _ s s (visited_urls s) eq_refl).
  case_bool_decide as Hnew; [exact Hinv|].
  rewrite try_catch_state. unfold bind at 1.
  pose proof (settled_extract url lang s) as Hset.
  pose proof (extract_post_content_visited drv url lang s) as Hvis.
  destruct (_extract_post_content drv url lang s) as [s1 r] eqn:Hrun.
  cbn [fst] in Hset, Hvis.
  pose proof (settled_keeps drv _ _ Hset Hinv) as Hinv1.
  destruct r as [e|post_data]; [exact Hinv1|].
  apply keeps_bind_from; [|intros _; rel_walk stored_leaf].
  destruct post_data as [pd|]; [|exact Hinv1].
  case_bool_decide; [exact Hinv1|].
  apply keeps_bind_from; [|intros _; rel_walk stored_leaf].
  unfold append_post. destruct (all_posts s1 !! lang) as [l|] eqn:Hl; [|exact Hinv1].
  cbn [fst].
  apply extract_post_content_inv in Hrun as (w & w' & Hx).
  apply extract_fields_spec in Hx
    as (t & a & sr & d & ct & Hid & Hurl & Hlang & Hat & Ht & Ha & Hsr & Hd & Hct & Hs).
  apply (stored_append lang pd l url s1); auto.
  - unfold core_keys. repeat constructor; eauto.
  - rewrite Hvis. by apply elem_of_union_l, elem_of_singleton.
  - intros lang' posts pd' Hl' Hpd' Hsame. destruct Hset as [P _].
    rewrite P in Hl'. destruct Hinv as [Hposts _].
    destruct (Hposts lang' posts pd' Hl' Hpd') as (_ & _ & u & Hu & _ & _ & Hin).
    rewrite Hu in Hsame. injection Hsame as ->. done.
Qed.

(** A value-aware sequencing rule for [keeps] *)
Lemma keeps_bind_val {A B} (I : Analyzer W -> Prop) (P : A -> Prop)
    (m : M (Analyzer W) A) (k : A -> M (Analyzer W) B) :
  rel (keeps I) m -> (forall s s' a, m s = (s', inr a) -> P a) ->
  (forall a, P a -> rel (keeps I) (k a)) ->
  rel (keeps I) (x <- m ;; k x).
Proof.
  intros Hm HP Hk s Hs. unfold bind. specialize (Hm s Hs).
  destruct (m s) as [s1 [e|a]] eqn:Hrun; [exact Hm|].
  apply (Hk a (HP _ _ _ Hrun) s1 Hm).
Qed.

Lemma rel_for_each_Forall {A B} (R : Analyzer W -> Analyzer W -> Prop)
    `{!PreOrder R} (P : A -> Prop) (xs : list A)
    (body : A -> M (Analyzer W) (ctl B)) :
  Forall P xs -> (forall x, P x -> rel R (body x)) -> rel R (for_each xs body).
Proof.
  intros Hxs Hb. induction Hxs as [|x xs Hx _ IH]; simpl.
  - apply rel_ret, _.
  - apply rel_bind; [apply _|by apply Hb|]. intros []; [exact IH|apply rel_ret, _..].
Qed.

Lemma find_post_links_valid w w' links :
  find_post_links drv w = (w', inr links) ->
  Forall (fun u => _is_valid_post_link (Some u) = true) links.
Proof.
  unfold find_post_links. intros H.
  apply bind_inr in H as (w1 & l1 & H1 & H).
  destruct (extract_post_links_spec drv w) as (w1' & l1' & H1' & _ & V1).
  rewrite H1 in H1'. injection H1' as <- <-.
  destruct l1 as [|u l1]; [|by injection H as _ <-].
  apply bind_inr in H as (w2 & _ & _ & H).
  apply bind_inr in H as (w3 & _ & _ & H).
  apply bind_inr in H as (w4 & _ & _ & H).
  apply bind_inr in H as (w5 & _ & _ & H).
  destruct (extract_post_links_spec drv w5) as (w6 & l2 & H2 & _ & V2).
  rewrite H in H2. by injection H2 as _ <-.
Qed.

Lemma keeps_scrape_page_stored lang cur :
  rel (keeps (stored_inv drv)) (scrape_page drv cfg lang cur).
Proof.
  unfold scrape_page, driver_get.
  apply rel_bind; [apply _|rel_walk stored_leaf|]. intros _.
  apply rel_bind; [apply _|rel_walk stored_leaf|]. intros found.
  destruct found; simpl; [|apply rel_ret, _].
  apply rel_bind; [apply _|rel_walk stored_leaf|]. intros _.
  apply (keeps_bind_val _ (Forall (fun u => _is_valid_post_link (Some u) = true))).
  - rel_walk stored_leaf.
  - intros s s' links Hrun. unfold lift in Hrun.
    destruct (find_post_links drv (world s)) as [w' r] eqn:Hf.
    injection Hrun as _ ->. by apply find_post_links_valid in Hf.
  - intros links Hlinks. destruct links as [|l links]; [apply rel_ret, _|].
    apply rel_bind; [apply _| |intros _; rel_walk stored_leaf].
    eapply rel_for_each_Forall; [apply _|exact Hlinks|].
    intros x Hx. by apply keeps_visit_post_stored.
Qed.

Lemma keeps_scrape_pages_stored fuel lang cur page_num :
  rel (keeps (stored_inv drv)) (scrape_pages drv cfg fuel lang cur page_num).
Proof.
  revert cur page_num. induction fuel as [|fuel IH]; intros cur page_num.
  - simpl. apply rel_ret, _.
  - cbn [scrape_pages].
    rel_walk ltac:(first [apply IH | apply keeps_scrape_page_stored | stored_leaf]).
Qed.

Lemma keeps_start_analysis_stored :
  rel (keeps (stored_inv drv)) (start_analysis drv cfg).
Proof.
  unfold start_analysis, start_analysis_try, emergency_save, close_driver,
    setup_driver, scrape_language, scrape_subreddit.
  rel_walk ltac:(first [apply keeps_scrape_pages_stored | apply keeps_reset_stored
                       | stored_leaf]).
Qed.

Lemma stored_init w : stored_inv drv (init cfg w).
Proof.
  split; cbn.
  - intros lang posts pd Hl. by rewrite lookup_empty in Hl.
  - intros lang1 lang2 posts1 posts2 i j pd1 pd2 Hl. by rewrite lookup_empty in Hl.
Qed.

End StoredPosts.

(** X14: whatever its outcome, [_extract_post_content] leaves its
    location in [visited_urls] and changes neither the sequences, nor the
    counters, nor the session flag; a second call for the same location
    returns [None] at once. *)
Theorem extract_post_content_marks_visited {W E} (drv : Driver W E)
    (url lang lang' : string) (s : Analyzer W) :
  let s1 := (_extract_post_content drv url lang s).1 in
  visited_urls s1 = {[url]} ∪ visited_urls s /\
  all_posts s1 = all_posts s /\ post_count s1 = post_count s /\
  driver s1 = driver s /\
  _extract_post_content drv url lang' s1 = (s1, inr None).
Proof.
  intros s1. split; [apply extract_post_content_visited|].
  destruct (steady_extract drv url lang s) as (C & P & _).
  destruct (extends_extract drv url lang lang s) as [D _].
  split; [exact P|]. split; [exact C|]. split; [exact D|].
  apply extract_post_content_again.
Qed.

(** X15: after a run from a new analyzer every stored post carries the
    language it is stored under and the core keys; its [post_url] passed
    [_is_valid_post_link], is in [visited_urls], and its [post_id] was
    computed from it; and no location is stored twice, neither within a
    language nor across languages. *)
Theorem stored_posts_are_distinct_visits {W E} (drv : Driver W E) (cfg : Config)
    (w : W) :
  let s' := (start_analysis drv cfg (init cfg w)).1 in
  (forall lang posts pd, all_posts s' !! lang = Some posts -> pd ∈ posts ->
     pd !! "language" = Some (VStr lang) /\
     Forall (fun k => is_Some (pd !! k)) core_keys /\
     exists u, pd !! "post_url" = Some (VStr u) /\
       pd !! "post_id" = Some (VStr (_extract_post_id drv u)) /\
       _is_valid_post_link (Some u) = true /\ u ∈ visited_urls s') /\
  (forall lang posts, all_posts s' !! lang = Some posts ->
     NoDup ((fun pd : Post => pd !! "post_url") <$> posts)) /\
  (forall lang1 lang2 posts1 posts2 pd1 pd2,
     all_posts s' !! lang1 = Some posts1 -> all_posts s' !! lang2 = Some posts2 ->
     pd1 ∈ posts1 -> pd2 ∈ posts2 ->
     pd1 !! "post_url" = pd2 !! "post_url" -> lang1 = lang2).
Proof.
  intros s'.
  destruct (keeps_start_analysis_stored drv cfg _ (stored_init drv cfg w))
    as [Hposts Huniq].
  fold s' in Hposts, Huniq. split; [exact Hposts|]. split.
  - intros lang posts Hl. apply NoDup_alt. intros i j x Hi Hj.
    rewrite list_lookup_fmap in Hi, Hj.
    apply fmap_Some in Hi as (pd1 & Hi & ->).
    apply fmap_Some in Hj as (pd2 & Hj & Heq).
    by destruct (Huniq lang lang posts posts i j pd1 pd2 Hl Hl Hi Hj Heq).
  - intros lang1 lang2 posts1 posts2 pd1 pd2 H1 H2 Hin1 Hin2 Heq.
    apply list_elem_of_lookup in Hin1 as [i Hi].
    apply list_elem_of_lookup in Hin2 as [j Hj].
    by destruct (Huniq lang1 lang2 posts1 posts2 i j pd1 pd2 H1 H2 Hi Hj Heq).
Qed.

(** ** The whole run *)

Section RunReturns.

Context {W E : Type} (drv : Driver W E) (cfg : Config).

Lemma emergency_save_returns (s : Analyzer W) :
  exists s', emergency_save drv cfg s = (s', inr tt).
Proof.
  unfold emergency_save, try_catch.
  destruct ((all <- gets all_posts ;; _save_to_json drv (SaveAll all)
               (emergency_path cfg)) s) as [s1 [e|[]]]; eexists; reflexivity.
Qed.

(** The [try] and [except] clauses of [start_analysis] together never raise. *)
Lemma start_analysis_guarded (s : Analyzer W) :
  exists s1,
    try_catch (start_analysis_try drv cfg) (fun _ => emergency_save drv cfg) s
    = (s1, inr tt).
Proof.
  unfold try_catch. destruct (start_analysis_try drv cfg s) as [s1 [e|[]]];
    [apply emergency_save_returns|eexists; reflexivity].
Qed.

End RunReturns.

(** X16: [start_analysis] returns normally whenever closing the browser
    cannot fail: every other exception of the run is caught. *)
Theorem start_analysis_returns_unless_quit_raises {W E} (drv : Driver W E)
    (cfg : Config) (s : Analyzer W) :
  (forall w, exists w', drv_quit _ _ drv w = (w', inr tt)) ->
  exists s', start_analysis drv cfg s = (s', inr tt).
Proof.
  intros Hquit. unfold start_analysis, finally.
  destruct (start_analysis_guarded drv cfg s) as (s1 & ->).
  unfold close_driver, bind, gets. destruct (driver s1); [|eexists; reflexivity].
  unfold log, lift. cbn [world].
  destruct (Hquit (world s1)) as (w' & ->). eexists. reflexivity.
Qed.

Lemma start_analysis_returns_unless_quit_raises_witness :
  exists s',
    start_analysis (Static.driver listing_site) one_post_config
      (init one_post_config "about:blank") = (s', inr tt).
Proof.
  apply (start_analysis_returns_unless_quit_raises (Static.driver listing_site)
           one_post_config (init one_post_config "about:blank")).
  intros w. exists w. reflexivity.
Defined.

(** *** Languages *)

Section Languages.

Context {W E : Type} (drv : Driver W E) (cfg : Config).

Lemma languages_settled (s s' : Analyzer W) :
  settled s s' -> keeps (languages_inv cfg) s s'.
Proof. intros [P _] Hinv lang. rewrite P. apply Hinv. Qed.

Lemma languages_extends lang (s s' : Analyzer W) :
  extends lang s s' -> keeps (languages_inv cfg) s s'.
Proof.
  intros (_ & _ & Hother & (new & Hnew) & _) Hinv lang' Hl. apply Hinv.
  destruct (decide (lang' = lang)) as [->|Hne].
  - rewrite Hnew in Hl. by apply fmap_is_Some in Hl.
  - destruct (Hother lang' Hne) as [<- _]. exact Hl.
Qed.

Lemma languages_reset lang :
  lang ∈ languages cfg -> known_language lang = true ->
  rel (keeps (languages_inv cfg)) (reset_posts (W := W) lang).
Proof.
  intros Hin Hknown s Hinv lang'. cbn. destruct (decide (lang = lang')) as [<-|Hne].
  - done.
  - rewrite lookup_insert_ne by done. apply Hinv.
Qed.

Lemma rel_languages_settled {A} (m : M (Analyzer W) A) :
  rel settled m -> rel (keeps (languages_inv cfg)) m.
Proof. intros H s. apply languages_settled, H. Qed.

Lemma rel_languages_extends {A} lang (m : M (Analyzer W) A) :
  rel (extends lang) m -> rel (keeps (languages_inv cfg)) m.
Proof. intros H s. eapply languages_extends, H. Qed.

End Languages.

Ltac languages_leaf :=
  first
    [ eapply rel_languages_extends; apply extends_scrape_subreddit
    | apply rel_languages_settled; first [apply settled_save | settled_leaf] ].

Section LanguagesRun.

Context {W E : Type} (drv : Driver W E) (cfg : Config).

Lemma keeps_languages_start :
  rel (keeps (languages_inv cfg)) (start_analysis drv cfg).
Proof.
  unfold start_analysis, start_analysis_try.
  apply rel_finally; [apply _| |unfold close_driver; rel_walk languages_leaf].
  apply rel_try_catch;
    [apply _| |intros _; unfold emergency_save; rel_walk languages_leaf].
  apply rel_bind; [apply _|unfold setup_driver; rel_walk languages_leaf|intros _].
  apply rel_bind; [apply _| |intros _].
  { eapply rel_for_each_Forall with (P := fun lang => lang ∈ languages cfg);
      [apply _|by apply Forall_forall|].
    intros lang Hin. destruct (known_language lang) eqn:Hk; [|apply rel_ret, _].
    apply rel_bind; [apply _|by apply languages_reset|intros _; apply rel_ret, _]. }
  unfold scrape_language. rel_walk languages_leaf.
Qed.

Lemma languages_init (w : W) : languages_inv cfg (init cfg w).
Proof. intros lang [l Hl]. cbn in Hl. by rewrite lookup_empty in Hl. Qed.

End LanguagesRun.

(** X17: a run from a new analyzer stores nothing, not even an empty
    sequence, for a language that is not configured or not in the table of
    languages. *)
Theorem unknown_language_is_skipped {W E} (drv : Driver W E) (cfg : Config)
    (w : W) (lang : string) :
  lang ∉ languages cfg \/ language_info lang PROGRAMMING_LANGUAGES = None ->
  all_posts (start_analysis drv cfg (init cfg w)).1 !! lang = None.
Proof.
  intros Hskip.
  pose proof (keeps_languages_start drv cfg _ (languages_init cfg w) lang) as Hinv.
  destruct (all_posts (start_analysis drv cfg (init cfg w)).1 !! lang) as [l|];
    [|reflexivity].
  destruct Hinv as [Hin Hknown]; [eauto|]. exfalso.
  destruct Hskip as [Hout|Hnone]; [done|].
  unfold known_language in Hknown. rewrite Hnone in Hknown.
  apply bool_decide_eq_true_1 in Hknown. by destruct Hknown.
Qed.

Lemma unknown_language_is_skipped_witness :
  all_posts (start_analysis (Static.driver listing_site) one_post_config
               (init one_post_config "about:blank")).1 !! "cobol" = None.
Proof.
  apply (unknown_language_is_skipped (Static.driver listing_site) one_post_config
           "about:blank" "cobol").
  right. reflexivity.
Defined.

(** *** The checkpoint *)

Lemma extract_some_unvisited {W E} (drv : Driver W E) url lang
    (s s1 : Analyzer W) pd :
  _extract_post_content drv url lang s = (s1, inr (Some pd)) ->
  url ∉ visited_urls s.
Proof.
  unfold _extract_post_content.
  rewrite (bind_step (gets visited_urls) _ s s (visited_urls s) eq_refl).
  case_bool_decide; [discriminate|done].
Qed.

(** X18: a visit within the item bound that stores a post, bringing the
    count of the language to [c + 1]. When [c + 1] is not a multiple of
    five, the visit ends with the append of the post and the pause between
    posts. When it is, the batch file is [output_dir / name] with [name]
    the language, [_posts_batch_], the decimal numeral of [c + 1] (with its
    sign) and [.json]; the whole sequence is written to it on the world the
    extraction left, a failure of the write is swallowed, and the pause
    follows. When the numeral has more than 4300 digits, formatting the
    name raises: nothing is written and the pause is skipped. *)
Theorem visit_post_saves_every_fifth_post {W E} (drv : Driver W E) (cfg : Config)
    (lang url : string) (s s1 : Analyzer W) (c : Z) (l : list Post) (pd : Post) :
  post_count s !! lang = Some c -> (c < max_posts cfg)%Z ->
  all_posts s !! lang = Some l ->
  _extract_post_content drv url lang s = (s1, inr (Some pd)) ->
  let s' := (visit_post drv cfg lang url s).1 in
  if bool_decide ((c + 1) `mod` 5 = 0)%Z
  then
    match PyStr.py_str (c + 1) with
    | Some digits =>
        let batch_file :=
          PathJoin (output_dir cfg)
            (lang +:+ "_posts_batch_" +:+ digits +:+ ".json") in
        events s' = EvSave batch_file (SavePosts (l ++ [pd]))
                      :: EvAppend lang pd :: events s1 /\
        world s' = sleep _ _ drv (request_delay cfg)
                     (write_json _ _ drv batch_file (SavePosts (l ++ [pd]))
                        (world s1)).1
    | None =>
        events s' = EvAppend lang pd :: events s1 /\ world s' = world s1
    end
  else
    events s' = EvAppend lang pd :: events s1 /\
    world s' = sleep _ _ drv (request_delay cfg) (world s1).
Proof.
  intros Hc Hlt Hl Hrun s'. subst s'.
  pose proof (extract_some_unvisited _ _ _ _ _ _ Hrun) as Hnew.
  pose proof (steady_extract drv url lang s) as (C1 & P1 & _).
  rewrite Hrun in C1, P1. cbn [fst] in C1, P1.
  assert (Hne : pd <> ∅).
  { apply extract_post_content_inv in Hrun as (w & w' & Hx).
    apply extract_fields_spec in Hx as (? & ? & ? & ? & ? & Hid & _).
    intros ->. by rewrite lookup_empty in Hid. }
  set (r := visit_post drv cfg lang url s).
  assert (Hr : r = visit_post drv cfg lang url s) by reflexivity.
  clearbody r. unfold visit_post in Hr.
  unfold bind at 1 in Hr. unfold get_count at 1 in Hr. rewrite Hc in Hr.
  rewrite (bool_decide_eq_false_2 (max_posts cfg <= c)%Z) in Hr by lia.
  rewrite (bind_step (gets visited_urls) _ s s (visited_urls s) eq_refl) in Hr.
  rewrite (bool_decide_eq_false_2 (url ∈ visited_urls s)) in Hr by done.
  apply (f_equal fst) in Hr. cbn [fst] in Hr.
  rewrite try_catch_state in Hr. unfold bind at 1 in Hr. unfold bind at 1 in Hr.
  rewrite Hrun in Hr.
  rewrite (bool_decide_eq_false_2 (pd = ∅)) in Hr by done.
  unfold bind at 1, append_post in Hr. rewrite P1, Hl in Hr.
  unfold bind at 1, incr_count in Hr. cbn [post_count] in Hr.
  rewrite C1, Hc in Hr.
  unfold bind at 1, log in Hr.
  cbn [world driver all_posts visited_urls post_count events observed] in Hr.
  unfold bind at 1 in Hr. unfold get_count at 1 in Hr. cbn [post_count] in Hr.
  rewrite lookup_insert_eq in Hr.
  revert Hr. destruct (bool_decide ((c + 1) `mod` 5 = 0)%Z); intros Hr.
  - unfold bind at 1, batch_path in Hr.
    destruct (PyStr.py_str (c + 1)) as [digits|]; [|by rewrite Hr].
    unfold ret at 1 in Hr. cbv beta iota in Hr.
    unfold bind at 1 in Hr. unfold get_posts at 1 in Hr. cbn [all_posts] in Hr.
    rewrite lookup_insert_eq in Hr. unfold _save_to_json, bind at 1, log in Hr.
    cbn [world driver all_posts visited_urls post_count events observed] in Hr.
    unfold lift at 1, try_catch in Hr. cbn [world] in Hr. cbv zeta.
    destruct (write_json W E drv _ (SavePosts (l ++ [pd])) (world s1))
      as [w' [e|[]]]; by rewrite Hr.
  - by rewrite Hr.
Qed.

Lemma visit_post_saves_every_fifth_post_witness :
  let s' := (visit_post (Static.driver listing_site) Static.config "rust"
               first_post_url four_posts).1 in
  let posts := replicate 4 (<["post_url" := VStr "https://example.org/"]> ∅)
               ++ [fifth_post] in
  events s' = EvSave (PathJoin "output" "rust_posts_batch_5.json") (SavePosts posts)
                :: EvAppend "rust" fifth_post :: events fifth_visit.1 /\
  world s' = first_post_url.
Proof.
  apply (visit_post_saves_every_fifth_post (Static.driver listing_site)
           Static.config "rust" first_post_url four_posts fifth_visit.1 4
           (replicate 4 (<["post_url" := VStr "https://example.org/"]> ∅))
           fifth_post);
    [reflexivity|reflexivity|reflexivity|vm_compute; reflexivity].
Defined.

(** The fifth post of that visit triggers the batch file of five posts. *)
Example fifth_post_checkpoint :
  exists posts rest,
    events (visit_post (Static.driver listing_site) Static.config "rust"
              first_post_url four_posts).1
    = EvSave (PathJoin "output" "rust_posts_batch_5.json") (SavePosts posts)
        :: rest /\
    length posts = 5.
Proof. eexists _, _. split; vm_compute; reflexivity. Qed.

(** *** The files of the languages *)

(** A loop whose passes all go on to the next element, with a fact [I]
    about the elements done so far *)
Lemma for_each_next {S A} (I : list A -> S -> Prop) (xs done : list A)
    (body : A -> M S (ctl unit)) (s : S) :
  I done s ->
  (forall d x s1, x ∈ xs -> I d s1 ->
     exists s2, body x s1 = (s2, inr Next) /\ I (d ++ [x]) s2) ->
  exists s', for_each xs body s = (s', inr None) /\ I (done ++ xs) s'.
Proof.
  revert done s. induction xs as [|x xs IH]; intros done s Hs Hbody.
  - exists s. rewrite app_nil_r. by split.
  - destruct (Hbody done x s) as (s2 & Hrun & H2); [apply list_elem_of_here|exact Hs|].
    cbn [for_each]. rewrite (bind_step _ _ _ _ _ Hrun).
    destruct (IH (done ++ [x]) s2 H2) as (s' & Hrest & H').
    { intros d y s1 Hy. apply Hbody. by apply list_elem_of_further. }
    exists s'. split; [exact Hrest|]. by rewrite <- app_assoc in H'.
Qed.

Section Files.

Context {W E : Type} (drv : Driver W E) (cfg : Config).

Lemma emits_weaken (phi psi : Event -> Prop) (s s' : Analyzer W) :
  (forall ev, phi ev -> psi ev) -> emits phi s s' -> emits psi s s'.
Proof.
  intros Himp (new & Hnew & Fnew). exists new. split; [exact Hnew|].
  eapply Forall_impl; [exact Fnew|exact Himp].
Qed.

Lemma grows_scrape_subreddit url lang :
  rel (emits (fun _ => True)) (scrape_subreddit drv cfg url lang).
Proof.
  intros s. unfold scrape_subreddit, bind.
  destruct (session_quiet_scrape_pages drv cfg (S (Z.to_nat (max_pages cfg))) lang
              url 1 s) as [_ Hem].
  destruct (scrape_pages drv cfg (S (Z.to_nat (max_pages cfg))) lang url 1 s)
    as [s1 [e|r]]; by eapply emits_weaken.
Qed.

Lemma scrape_language_saves lang subreddits (s : Analyzer W) :
  is_Some (all_posts s !! lang) ->
  exists s' posts,
    scrape_language drv cfg lang subreddits s = (s', inr tt) /\
    all_posts s' !! lang = Some posts /\
    (forall lang', lang' <> lang -> all_posts s' !! lang' = all_posts s !! lang') /\
    exists new,
      events s' = EvSave (language_path cfg lang) (SavePosts posts) :: new ++ events s.
Proof.
  intros [l0 Hl0]. unfold scrape_language, crawl_subreddits.
  match goal with
  | |- context [bind (for_each ?xs ?body) _] => set (loop := for_each xs body)
  end.
  assert (Hext : rel (extends lang) loop).
  { subst loop. rel_walk ltac:(first [apply extends_scrape_subreddit | extends_leaf]). }
  assert (Hem : rel (emits (fun _ => True)) loop).
  { subst loop.
    rel_walk ltac:(first [ apply grows_scrape_subreddit
                         | apply rel_lift; apply emits_same
                         | solve [same_events] ]). }
  assert (Htot : exists sa r, loop s = (sa, inr r)).
  { subst loop. apply for_each_total. intros x s1. apply try_catch_total.
    intros e s2. eexists _, _. reflexivity. }
  destruct Htot as (sa & r & Hrun). specialize (Hext s). specialize (Hem s).
  rewrite Hrun in Hext, Hem. cbn [fst] in Hext, Hem.
  rewrite (bind_step _ _ _ _ _ Hrun).
  destruct Hext as (_ & _ & Hother & (new & Hnew) & _).
  rewrite Hl0 in Hnew. cbn in Hnew.
  unfold bind at 1, get_posts. rewrite Hnew.
  unfold _save_to_json, bind, log, lift, try_catch.
  cbn [world driver all_posts visited_urls post_count events observed].
  destruct Hem as (evs & Hevs & _).
  destruct (write_json W E drv _ _ (world sa)) as [w' [e|[]]];
    (eexists _, (l0 ++ new); split; [reflexivity|];
     cbn [world driver all_posts visited_urls post_count events observed];
     split; [exact Hnew|]; split; [intros lang' Hne; by apply Hother|];
     exists evs; by rewrite Hevs).
Qed.


(** The first loop of [start_analysis]: a sequence for every known
    language of the list *)
Lemma reset_loop (xs : list string) (s : Analyzer W) :
  exists s',
    for_each (R := unit) xs (fun lang =>
      if known_language lang then reset_posts lang ;; ret Next else ret Next) s
    = (s', inr None) /\
    events s' = events s /\
    forall lang, lang ∈ xs -> known_language lang = true ->
      is_Some (all_posts s' !! lang).
Proof.
  destruct (for_each_next
              (fun d s1 => events s1 = events s /\
                 forall lang, lang ∈ d -> known_language lang = true ->
                   is_Some (all_posts s1 !! lang))
              xs [] (fun lang =>
                if known_language lang then reset_posts lang ;; ret Next
                else ret Next) s) as (s' & Hrun & Hev & Hkeys).
  - split; [reflexivity|]. intros lang Hin. by apply elem_of_nil in Hin.
  - intros d x s1 _ [Hev Hkeys]. destruct (known_language x) eqn:Hx.
    + eexists. split; [reflexivity|]. cbn. split; [exact Hev|].
      intros lang Hin Hk. destruct (decide (x = lang)) as [->|Hne].
      * rewrite lookup_insert_eq. eauto.
      * rewrite lookup_insert_ne by done. apply Hkeys; [|exact Hk].
        apply elem_of_app in Hin as [Hin|Hin]; [exact Hin|].
        apply list_elem_of_singleton in Hin. congruence.
    + exists s1. split; [reflexivity|]. split; [exact Hev|].
      intros lang Hin Hk. apply Hkeys; [|exact Hk].
      apply elem_of_app in Hin as [Hin|Hin]; [exact Hin|].
      apply list_elem_of_singleton in Hin. congruence.
  - exists s'. auto.
Qed.

(** The second loop: every known language of the list is crawled and
    then written. *)
Lemma crawl_loop (xs : list string) (s : Analyzer W) :
  (forall lang, lang ∈ xs -> known_language lang = true ->
     is_Some (all_posts s !! lang)) ->
  exists s',
    for_each (R := unit) xs (fun lang =>
      match language_info lang PROGRAMMING_LANGUAGES with
      | None => ret Next
      | Some (_, subreddits) => scrape_language drv cfg lang subreddits ;; ret Next
      end) s
    = (s', inr None) /\
    saved_inv cfg xs s'.
Proof.
  intros Hready.
  destruct (for_each_next
              (fun d s1 =>
                 (forall lang, lang ∈ xs -> known_language lang = true ->
                    is_Some (all_posts s1 !! lang)) /\
                 saved_inv cfg d s1)
              xs [] (fun lang =>
                match language_info lang PROGRAMMING_LANGUAGES with
                | None => ret Next
                | Some (_, subreddits) =>
                    scrape_language drv cfg lang subreddits ;; ret Next
                end) s) as (s' & Hrun & _ & Hsaved).
  - split; [exact Hready|]. intros lang Hin. by apply elem_of_nil in Hin.
  - intros d x s1 Hx [Hkeys Hsaved]. unfold known_language in *.
    destruct (language_info x PROGRAMMING_LANGUAGES) as [[name subreddits]|] eqn:Hinfo.
    + destruct (scrape_language_saves x subreddits s1) as
        (s2 & posts & Hrun & Hposts & Hother & new & Hev).
      { apply Hkeys; [exact Hx|]. rewrite Hinfo. by apply bool_decide_eq_true_2. }
      exists s2. split; [by rewrite (bind_step _ _ _ _ _ Hrun)|]. split.
      * intros lang Hin Hk. destruct (decide (lang = x)) as [->|Hne]; [eauto|].
        rewrite (Hother lang Hne). by apply Hkeys.
      * intros lang Hin Hk. destruct (decide (lang = x)) as [->|Hne].
        { exists posts. split; [exact Hposts|]. rewrite Hev. apply list_elem_of_here. }
        apply elem_of_app in Hin as [Hin|Hin];
          [|apply list_elem_of_singleton in Hin; congruence].
        destruct (Hsaved lang Hin Hk) as (old & Hold & Hsave).
        exists old. split; [by rewrite (Hother lang Hne)|].
        rewrite Hev. apply list_elem_of_further, elem_of_app. by right.
    + exists s1. split; [reflexivity|]. split; [exact Hkeys|].
      intros lang Hin Hk. apply elem_of_app in Hin as [Hin|Hin]; [by apply Hsaved|].
      apply list_elem_of_singleton in Hin. subst lang.
      unfold known_language in Hk. rewrite Hinfo in Hk.
      apply bool_decide_eq_true_1 in Hk. by destruct Hk.
  - exists s'. auto.
Qed.

(** Once the session is set up, the [try] block of [start_analysis]
    returns, with every known configured language written. *)
Lemma start_analysis_try_saves (s s1 : Analyzer W) :
  setup_driver drv s = (s1, inr tt) ->
  exists s', start_analysis_try drv cfg s = (s', inr tt) /\
    saved_inv cfg (languages cfg) s'.
Proof.
  intros Hsetup. unfold start_analysis_try.
  rewrite (bind_step _ _ _ _ _ Hsetup).
  destruct (reset_loop (languages cfg) s1) as (s2 & Hreset & _ & Hkeys).
  rewrite (bind_step _ _ _ _ _ Hreset).
  destruct (crawl_loop (languages cfg) s2 Hkeys) as (s3 & Hcrawl & Hsaved).
  rewrite (bind_step _ _ _ _ _ Hcrawl).
  rewrite (bind_step (gets all_posts) _ s3 s3 (all_posts s3) eq_refl).
  destruct (any_posts (all_posts s3)); eexists; (split; [reflexivity|exact Hsaved]).
Qed.

End Files.

(** The subreddit loop of a language never raises. *)
Lemma crawl_subreddits_total {W E} (drv : Driver W E) (cfg : Config)
    (lang : string) (subreddits : list string) (s : Analyzer W) :
  exists s1 r, crawl_subreddits drv cfg lang subreddits s = (s1, inr r).
Proof.
  apply for_each_total. intros x s1. apply try_catch_total.
  intros e s2. eexists _, _. reflexivity.
Qed.

(** X19: when setting up the session succeeds, the run writes every known
    configured language: at the end each of them has a sequence, and a
    write of exactly that sequence to [output_dir / (lang + "_posts.json")]
    was requested. The request is the last step of the pass for a language:
    after the subreddit loop, [write_json] is called with that path and the
    sequence of the language on the world the loop left, and its failure is
    swallowed. *)
Theorem language_files_hold_final_posts {W E} (drv : Driver W E) (cfg : Config)
    (w : W) (lang : string) :
  (setup_driver drv (init cfg w)).2 = inr tt ->
  lang ∈ languages cfg -> known_language lang = true ->
  let s' := (start_analysis drv cfg (init cfg w)).1 in
  let path := PathJoin (output_dir cfg) (lang +:+ "_posts.json") in
  (exists posts, all_posts s' !! lang = Some posts /\
     EvSave path (SavePosts posts) ∈ events s') /\
  (forall (subreddits : list string) (s : Analyzer W) (posts : list Post),
     let s1 := (crawl_subreddits drv cfg lang subreddits s).1 in
     let s2 := (scrape_language drv cfg lang subreddits s).1 in
     all_posts s1 !! lang = Some posts ->
     (scrape_language drv cfg lang subreddits s).2 = inr tt /\
     events s2 = EvSave path (SavePosts posts) :: events s1 /\
     world s2 = (write_json _ _ drv path (SavePosts posts) (world s1)).1 /\
     all_posts s2 = all_posts s1).
Proof.
  intros Hsetup Hin Hknown s' path. split.
  - destruct (setup_driver drv (init cfg w)) as [s1 r] eqn:Hrun.
    cbn [snd] in Hsetup. subst r.
    destruct (start_analysis_try_saves drv cfg _ _ Hrun) as (s2 & Htry & Hsaved).
    destruct (Hsaved lang Hin Hknown) as (posts & Hposts & Hsave).
    exists posts. subst s'. unfold start_analysis, finally, try_catch. rewrite Htry.
    destruct (close_driver_quits drv s2) as (_ & Hev & Hall).
    destruct (close_driver drv s2) as [s3 [e|[]]]; cbn [fst] in *;
      (split; [by rewrite Hall|]; rewrite Hev; apply elem_of_app; by right).
  - intros subreddits s posts s1 s2 Hposts. subst s1 s2.
    set (run := scrape_language drv cfg lang subreddits s).
    assert (Hr : run = scrape_language drv cfg lang subreddits s) by reflexivity.
    clearbody run. unfold scrape_language in Hr.
    destruct (crawl_subreddits_total drv cfg lang subreddits s) as (s1 & r & Hrun).
    rewrite (bind_step _ _ _ _ _ Hrun) in Hr. rewrite Hrun in Hposts |- *.
    cbn [fst] in Hposts |- *.
    unfold bind at 1, get_posts in Hr. rewrite Hposts in Hr.
    unfold _save_to_json, bind, log, lift, try_catch in Hr.
    cbn [world driver all_posts visited_urls post_count events observed] in Hr.
    fold path in Hr.
    destruct (write_json W E drv path (SavePosts posts) (world s1))
      as [w' [e|[]]]; by subst run.
Qed.

Lemma language_files_hold_final_posts_witness :
  let path := PathJoin "output" "rust_posts.json" in
  (exists posts, all_posts one_post_run !! "rust" = Some posts /\
     EvSave path (SavePosts posts) ∈ events one_post_run) /\
  (forall (subreddits : list string) (s : Analyzer string) (posts : list Post),
     let s1 := (crawl_subreddits (Static.driver listing_site) one_post_config
                  "rust" subreddits s).1 in
     let s2 := (scrape_language (Static.driver listing_site) one_post_config
                  "rust" subreddits s).1 in
     all_posts s1 !! "rust" = Some posts ->
     (scrape_language (Static.driver listing_site) one_post_config "rust"
        subreddits s).2 = inr tt /\
     events s2 = EvSave path (SavePosts posts) :: events s1 /\
     world s2 = (write_json _ _ (Static.driver listing_site) path (SavePosts posts)
                   (world s1)).1 /\
     all_posts s2 = all_posts s1).
Proof.
  apply (language_files_hold_final_posts (Static.driver listing_site)
           one_post_config "about:blank" "rust");
    [reflexivity|apply list_elem_of_here|reflexivity].
Defined.
